(** * PomoSpace: the timer core

    A shallow embedding of the timer logic of the PomoSpace repository and
    the properties of its specification that were checked against it,
    followed by further properties of the code around it.

    The sources embedded:

    - [src/utils/localStorageUtils.ts]: the validating loaders, the savers
      and the fix-up helpers over [localStorage] (module
      [LocalStorageUtils]);
    - [src/components/PomodoroTimer.tsx], in the variant that keeps the
      timer state itself: [getSavedTimerState], [updateTimerState], the five
      effects, the one second interval, [toggleTimer], [resetTimer] and
      [formatTime] (module [PomodoroTimer]);
    - the [useTimer] hook, which keeps one clock-based state per timer
      kind, together with the variant of the component that is built on it
      (module [UseTimer]);
    - [src/utils/dataUtils.ts]: export and import of the stored data, and
      the task history as CSV (module [DataUtils]);
    - [src/components/TaskList.tsx]: the handlers of the task list (module
      [TaskList]);
    - the two test timers and [playWithRepeat] of [src/utils/soundUtils.ts]
      (modules [SimpleTimer], [BasicTimer] and [SoundUtils]).

    Numbers are integers ([Z]); JSON text is represented by the value
    [JSON.parse] produces for it, or by [Unparsable] when it is not JSON.
    Logging, sounds and the rendered markup are left out. *)

From Stdlib Require Import ZArith List String Bool Lia.
From Stdlib Require Decimal DecimalString DecimalZ DecimalPos.
Import ListNotations.

#[local] Open Scope string_scope.
#[local] Open Scope Z_scope.
#[local] Set Warnings "-register-all".

(** ** JavaScript values as the loaders see them *)

Module Js.

(** The values [JSON.parse] can return, plus [undefined]. A JSON array is an
    object keyed by its indices: none of the property names the loaders
    read or write is an index or a member of [Array.prototype]. *)
Inductive value : Type :=
| VUndef
| VNull
| VBool (b : bool)
| VNum (n : Z)
| VStr (s : string)
| VObj (fields : list (string * value)).

(** An error monad for code that can throw (TypeError, SyntaxError):
    [None] is a thrown exception. *)
Definition throws (A : Type) : Type := option A.

Definition bind {A B : Type} (m : throws A) (k : A -> throws B) : throws B :=
  match m with
  | Some a => k a
  | None => None
  end.

Notation "x <- m ;; k" := (bind m (fun x => k))
  (at level 61, m at next level, right associativity).
Notation "' pat <- m ;; k" := (bind m (fun x => match x with pat => k end))
  (at level 61, pat pattern, m at next level, right associativity).

(** [try { body } catch { handler }] *)
Definition tryCatch {A : Type} (body : throws A) (handler : A) : A :=
  match body with
  | Some a => a
  | None => handler
  end.

Fixpoint lookup (k : string) (fs : list (string * value)) : value :=
  match fs with
  | [] => VUndef
  | (k', v) :: rest => if String.eqb k k' then v else lookup k rest
  end.

Fixpoint update (k : string) (x : value) (fs : list (string * value))
  : list (string * value) :=
  match fs with
  | [] => [(k, x)]
  | (k', v) :: rest =>
      if String.eqb k k' then (k', x) :: rest else (k', v) :: update k x rest
  end.

(** [v.k]: a TypeError on [null] and [undefined], [undefined] on the other
    primitives. *)
Definition getProp (v : value) (k : string) : throws value :=
  match v with
  | VUndef | VNull => None
  | VObj fs => Some (lookup k fs)
  | VBool _ | VNum _ | VStr _ => Some VUndef
  end.

(** [v?.k] *)
Definition getPropOpt (v : value) (k : string) : value :=
  match v with
  | VObj fs => lookup k fs
  | _ => VUndef
  end.

(** [v.k = x] in strict mode (the file is an ES module): a TypeError on
    every primitive. *)
Definition setProp (v : value) (k : string) (x : value) : throws value :=
  match v with
  | VObj fs => Some (VObj (update k x fs))
  | _ => None
  end.

Definition truthy (v : value) : bool :=
  match v with
  | VUndef | VNull => false
  | VBool b => b
  | VNum n => negb (n =? 0)
  | VStr s => negb (String.eqb s "")
  | VObj _ => true
  end.

(** [a || b] *)
Definition orElse (a b : value) : value := if truthy a then a else b.

(** [v === n] for a number literal [n] *)
Definition isNum (v : value) (n : Z) : bool :=
  match v with
  | VNum m => m =? n
  | _ => false
  end.

(** [v === s] for a string literal [s] *)
Definition isStr (v : value) (s : string) : bool :=
  match v with
  | VStr t => String.eqb t s
  | _ => false
  end.

Definition isUndef (v : value) : bool :=
  match v with
  | VUndef => true
  | _ => false
  end.




(** What [localStorage.getItem] followed by [JSON.parse] can give. *)
Inductive item : Type :=
| Absent                (* getItem returned null *)
| Unparsable            (* a string JSON.parse rejects *)
| Json (v : value).     (* the parsed value *)

End Js.

(** ** src/utils/localStorageUtils.ts *)

Module LocalStorageUtils.
Import Js.

(** The [Settings] interface, as far as the timer reads it: durations are
    in minutes. *)
Record Settings : Type := mkSettings {
  pomodoro : Z;
  shortBreak : Z;
  longBreak : Z;
  longBreakInterval : Z
}.

(** [DEFAULT_SETTINGS]; [loaded] is the [Date.now()] of module load. *)
Definition DEFAULT_SETTINGS (loaded : Z) : value :=
  VObj [ ("timerDurations",
          VObj [ ("pomodoro", VNum 25); ("shortBreak", VNum 5);
                 ("longBreak", VNum 15) ]);
         ("longBreakInterval", VNum 4);
         ("autoStartBreaks", VBool false);
         ("autoStartPomodoros", VBool false);
         ("darkMode", VBool true);
         ("sound",
          VObj [ ("alarmSound", VStr "kitty"); ("alarmVolume", VNum 80);
                 ("alarmRepeat", VNum 1); ("tickingSound", VStr "none");
                 ("tickingVolume", VNum 50) ]);
         ("lastUpdated", VNum loaded) ].

(** The body of the [try] block of [getSettings]. *)
Definition getSettings_body (loaded now : Z) (stored : item) : throws value :=
  match stored with
  | Absent => Some (DEFAULT_SETTINGS loaded)
  | Unparsable => None
  | Json savedSettings =>
      td <- getProp savedSettings "timerDurations" ;;
      if negb (truthy td) then Some (DEFAULT_SETTINGS loaded) else
      p <- getProp td "pomodoro" ;;
      match p with
      | VNum n =>
          if (n <? 1) || (n >? 60) then Some (DEFAULT_SETTINGS loaded) else
          let sound := getPropOpt savedSettings "sound" in
          let darkMode := getPropOpt savedSettings "darkMode" in
          Some (VObj
            [ ("timerDurations",
               VObj [ ("pomodoro", orElse (getPropOpt td "pomodoro") (VNum 25));
                      ("shortBreak", orElse (getPropOpt td "shortBreak") (VNum 5));
                      ("longBreak", orElse (getPropOpt td "longBreak") (VNum 15)) ]);
              ("longBreakInterval",
               orElse (getPropOpt savedSettings "longBreakInterval") (VNum 4));
              ("autoStartBreaks",
               orElse (getPropOpt savedSettings "autoStartBreaks") (VBool false));
              ("autoStartPomodoros",
               orElse (getPropOpt savedSettings "autoStartPomodoros") (VBool false));
              ("darkMode", if isUndef darkMode then VBool true else darkMode);
              ("sound",
               VObj [ ("alarmSound", orElse (getPropOpt sound "alarmSound") (VStr "kitty"));
                      ("alarmVolume", orElse (getPropOpt sound "alarmVolume") (VNum 80));
                      ("alarmRepeat", orElse (getPropOpt sound "alarmRepeat") (VNum 1));
                      ("tickingSound", orElse (getPropOpt sound "tickingSound") (VStr "none"));
                      ("tickingVolume", orElse (getPropOpt sound "tickingVolume") (VNum 50)) ]);
              ("lastUpdated", orElse (getPropOpt savedSettings "lastUpdated") (VNum now)) ])
      | _ => Some (DEFAULT_SETTINGS loaded)
      end
  end.

Definition getSettings (loaded now : Z) (stored : item) : value :=
  tryCatch (getSettings_body loaded now stored) (DEFAULT_SETTINGS loaded).

Definition slotValue (timeRemaining : Z) : value :=
  VObj [ ("timeRemaining", VNum timeRemaining); ("isActive", VBool false) ].

Definition freshTimerStates (settings : Settings) : value :=
  VObj [ ("pomodoro", slotValue (pomodoro settings * 60));
         ("shortBreak", slotValue (shortBreak settings * 60));
         ("longBreak", slotValue (longBreak settings * 60)) ].

Definition createFreshTimerState (currentMode : string) (settings : Settings)
  : value :=
  let pomodoroTime := pomodoro settings * 60 in
  let shortBreakTime := shortBreak settings * 60 in
  let longBreakTime := longBreak settings * 60 in
  let currentTime := pomodoroTime in
  let currentTime :=
    if String.eqb currentMode "shortBreak" then shortBreakTime else currentTime in
  let currentTime :=
    if String.eqb currentMode "longBreak" then longBreakTime else currentTime in
  VObj [ ("timeRemaining", VNum currentTime);
         ("isActive", VBool false);
         ("completedPomodoros", VNum 0);
         ("timerMode", VStr currentMode);
         ("originalDuration", VNum currentTime);
         ("timerStates", freshTimerStates settings);
         ("settingsChanged", VBool false) ].

(** [if (!timerStates.kind.isActive) timerStates.kind.timeRemaining = correct]
    on the object [timerStates]; the updated [timerStates] is returned. *)
Definition forceInactive (timerStates : value) (kind : string) (correct : Z)
  : throws value :=
  slot <- getProp timerStates kind ;;
  active <- getProp slot "isActive" ;;
  if negb (truthy active) then
    slot' <- setProp slot "timeRemaining" (VNum correct) ;;
    setProp timerStates kind slot'
  else Some timerStates.

(** The body of the [try] block of [getTimerState]. *)
Definition getTimerState_body (currentMode : string) (settings : Settings)
  (stored : item) : throws value :=
  match stored with
  | Absent => Some (createFreshTimerState currentMode settings)
  | Unparsable => None
  | Json parsedState =>
      let correctPomodoroTime := pomodoro settings * 60 in
      let correctShortBreakTime := shortBreak settings * 60 in
      let correctLongBreakTime := longBreak settings * 60 in
      parsedState <-
        (if String.eqb currentMode "pomodoro" then
           active <- getProp parsedState "isActive" ;;
           if negb (truthy active)
           then setProp parsedState "timeRemaining" (VNum correctPomodoroTime)
           else Some parsedState
         else Some parsedState) ;;
      timerStates <- getProp parsedState "timerStates" ;;
      if negb (truthy timerStates) then
        setProp parsedState "timerStates" (freshTimerStates settings)
      else
        ts <- forceInactive timerStates "pomodoro" correctPomodoroTime ;;
        ts <- forceInactive ts "shortBreak" correctShortBreakTime ;;
        ts <- forceInactive ts "longBreak" correctLongBreakTime ;;
        setProp parsedState "timerStates" ts
  end.

Definition getTimerState (currentMode : string) (settings : Settings)
  (stored : item) : value :=
  tryCatch (getTimerState_body currentMode settings stored)
           (createFreshTimerState currentMode settings).

(** The two [localStorage] keys the helpers use. *)
Record Store : Type := mkStore {
  pomoSpaceSettings : item;
  pomoSpaceTimerState : item
}.

(** [resetLocalStorage]: both keys are rewritten from the defaults. *)
Definition defaultSettingsRecord : Settings := mkSettings 25 5 15 4.

Definition resetLocalStorage (loaded : Z) (st : Store) : Store :=
  mkStore (Json (DEFAULT_SETTINGS loaded))
          (Json (createFreshTimerState "pomodoro" defaultSettingsRecord)).

(** [parsedState.timerStates?.pomodoro?.timeRemaining] *)
Definition pomodoroSlotRemaining (parsedState : value) : throws value :=
  timerStates <- getProp parsedState "timerStates" ;;
  Some (getPropOpt (getPropOpt timerStates "pomodoro") "timeRemaining").

(** First check of [fixHardcodedPomodoroTime], on the record and the
    [foundHardcodedValue] flag:
    [if (parsedState.timerStates?.pomodoro?.timeRemaining === 900)
       { parsedState.timerStates.pomodoro.timeRemaining = 1500; found = true }] *)
Definition fixSlot (acc : value * bool) : throws (value * bool) :=
  let '(parsedState, foundHardcodedValue) := acc in
  slotRemaining <- pomodoroSlotRemaining parsedState ;;
  if isNum slotRemaining 900 then
    timerStates <- getProp parsedState "timerStates" ;;
    slot <- getProp timerStates "pomodoro" ;;
    slot' <- setProp slot "timeRemaining" (VNum 1500) ;;
    timerStates' <- setProp timerStates "pomodoro" slot' ;;
    parsedState' <- setProp parsedState "timerStates" timerStates' ;;
    Some (parsedState', true)
  else Some (parsedState, foundHardcodedValue).

(** Second and third check, for [field] one of [timeRemaining] and
    [originalDuration]:
    [if (parsedState.timerMode === 'pomodoro' && parsedState.field === 900)
       { parsedState.field = 1500; found = true }] *)
Definition fixField (field : string) (acc : value * bool) : throws (value * bool) :=
  let '(parsedState, foundHardcodedValue) := acc in
  mode <- getProp parsedState "timerMode" ;;
  if isStr mode "pomodoro" then
    current <- getProp parsedState field ;;
    if isNum current 900 then
      parsedState' <- setProp parsedState field (VNum 1500) ;;
      Some (parsedState', true)
    else Some (parsedState, foundHardcodedValue)
  else Some (parsedState, foundHardcodedValue).

(** The body of the [try] block of [fixHardcodedPomodoroTime]: the flag it
    returns and the value left under the key. *)
Definition fixHardcodedPomodoroTime_body (stored : item) : throws (bool * item) :=
  match stored with
  | Absent => Some (false, stored)
  | Unparsable => None
  | Json parsedState =>
      acc <- fixSlot (parsedState, false) ;;
      acc <- fixField "timeRemaining" acc ;;
      acc <- fixField "originalDuration" acc ;;
      let '(parsedState, foundHardcodedValue) := acc in
      if foundHardcodedValue then Some (true, Json parsedState)
      else Some (false, stored)
  end.

Definition fixHardcodedPomodoroTime (stored : item) : bool * item :=
  tryCatch (fixHardcodedPomodoroTime_body stored) (false, stored).

(** The TypeScript cast of the loaded settings object to [Settings]: the
    three durations and the interval must be numbers; arithmetic on any
    other value ([x * 60] with coercion) is outside this model. *)
Definition asSettings (v : value) : option Settings :=
  let td := getPropOpt v "timerDurations" in
  match getPropOpt td "pomodoro", getPropOpt td "shortBreak",
        getPropOpt td "longBreak", getPropOpt v "longBreakInterval" with
  | VNum p, VNum s, VNum l, VNum i => Some (mkSettings p s l i)
  | _, _, _, _ => None
  end.

(** The body of the [try] block of [validateLocalStorage], for settings
    whose durations are numbers. *)
Definition validateLocalStorage_body (loaded now : Z) (st : Store)
  (settings : Settings) : throws (bool * Store) :=
  let '(fixedHardcodedValue, timerItem) :=
    fixHardcodedPomodoroTime (pomoSpaceTimerState st) in
  let st := mkStore (pomoSpaceSettings st) timerItem in
  let timerState := getTimerState "pomodoro" settings timerItem in
  let correctPomodoroTime := pomodoro settings * 60 in
  mode <- getProp timerState "timerMode" ;;
  (if isStr mode "pomodoro" then
     active <- getProp timerState "isActive" ;;
     if negb (truthy active) then
       timerStates <- getProp timerState "timerStates" ;;
       slot <- getProp timerStates "pomodoro" ;;
       remaining <- getProp slot "timeRemaining" ;;
       if negb (isNum remaining correctPomodoroTime)
       then Some (false, resetLocalStorage loaded st)
       else Some (true, st)
     else Some (true, st)
   else Some (true, st)).

(** [validateLocalStorage]; [None] when the stored settings carry a
    duration that is not a number (see [asSettings]). *)
Definition validateLocalStorage (loaded now : Z) (st : Store)
  : option (bool * Store) :=
  match asSettings (getSettings loaded now (pomoSpaceSettings st)) with
  | None => None
  | Some settings =>
      Some (tryCatch (validateLocalStorage_body loaded now st settings)
              (false,
               resetLocalStorage loaded
                 (mkStore (pomoSpaceSettings st)
                          (snd (fixHardcodedPomodoroTime (pomoSpaceTimerState st))))))
  end.


(** The [sound] member of the [Settings] interface. *)
Record Sound : Type := mkSound {
  alarmSound : string;
  alarmVolume : Z;
  alarmRepeat : Z;
  tickingSound : string;
  tickingVolume : Z
}.

(** The whole [Settings] interface; [timing] holds [timerDurations] and
    [longBreakInterval]. *)
Record AppSettings : Type := mkAppSettings {
  timing : Settings;
  autoStartBreaks : bool;
  autoStartPomodoros : bool;
  darkMode : bool;
  sound : Sound;
  lastUpdated : option Z
}.

(** [JSON.parse(JSON.stringify(v))] of a value that is no array with
    properties assigned to it ([maybeArray]): a property whose value is
    [undefined] is left out. *)
Fixpoint stringified (v : value) : value :=
  match v with
  | VObj fs =>
      VObj ((fix members (fs : list (string * value)) : list (string * value) :=
               match fs with
               | [] => []
               | (k, x) :: rest =>
                   match x with
                   | VUndef => members rest
                   | _ => (k, stringified x) :: members rest
                   end
               end) fs)
  | _ => v
  end.

(** The object a [Settings] value is, member by member. *)
Definition settingsObject (s : AppSettings) : value :=
  VObj [ ("timerDurations",
          VObj [ ("pomodoro", VNum (pomodoro (timing s)));
                 ("shortBreak", VNum (shortBreak (timing s)));
                 ("longBreak", VNum (longBreak (timing s))) ]);
         ("longBreakInterval", VNum (longBreakInterval (timing s)));
         ("autoStartBreaks", VBool (autoStartBreaks s));
         ("autoStartPomodoros", VBool (autoStartPomodoros s));
         ("darkMode", VBool (darkMode s));
         ("sound",
          VObj [ ("alarmSound", VStr (alarmSound (sound s)));
                 ("alarmVolume", VNum (alarmVolume (sound s)));
                 ("alarmRepeat", VNum (alarmRepeat (sound s)));
                 ("tickingSound", VStr (tickingSound (sound s)));
                 ("tickingVolume", VNum (tickingVolume (sound s))) ]);
         ("lastUpdated", match lastUpdated s with
                         | Some t => VNum t
                         | None => VUndef
                         end) ].

(** The body of the [try] block of [saveTimerState]: what is stored. *)
Definition saveTimerState_body (now : Z) (timerState : value) : throws item :=
  active <- getProp timerState "isActive" ;;
  timerState <-
    setProp timerState "activeTimestamp"
            (if truthy active then VNum now else VUndef) ;;
  Some (Json (stringified timerState)).

Definition saveTimerState (now : Z) (timerState : value) (st : Store) : Store :=
  match saveTimerState_body now timerState with
  | Some stored => mkStore (pomoSpaceSettings st) stored
  | None => st
  end.

(** [saveSettings]: the settings object as the caller finds it afterwards,
    and the store. *)
Definition saveSettings (now : Z) (settings : AppSettings) (st : Store)
  : AppSettings * Store :=
  let p := pomodoro (timing settings) in
  let settings :=
    if (p =? 0) || (p <? 1) || (p >? 60) then
      mkAppSettings
        (mkSettings 25 (shortBreak (timing settings)) (longBreak (timing settings))
                    (longBreakInterval (timing settings)))
        (autoStartBreaks settings) (autoStartPomodoros settings)
        (darkMode settings) (sound settings) (lastUpdated settings)
    else settings in
  let settings :=
    mkAppSettings (timing settings) (autoStartBreaks settings)
                  (autoStartPomodoros settings) (darkMode settings)
                  (sound settings) (Some now) in
  let st := mkStore (Json (stringified (settingsObject settings)))
                    (pomoSpaceTimerState st) in
  let timerState :=
    getTimerState "pomodoro" (timing settings) (pomoSpaceTimerState st) in
  (settings, saveTimerState now timerState st).

End LocalStorageUtils.

(** ** src/components/PomodoroTimer.tsx

    The component keeps its state in React hooks. A [Render] is what one
    evaluation of the component function sees: its props and the current
    values of its state variables; the closures created by that render (the
    effects, the interval callback, the click handlers) capture exactly
    these values. A [World] is what lives outside React state: the
    [localStorage] record, [intervalRef], the parent callbacks' log and the
    clock.

    React is modelled as follows. All state setters called by one callback
    or by the effects of one commit are applied together (last write wins),
    then the component renders again; after a render, the cleanups and then
    the bodies of the effects whose dependencies changed run in declaration
    order, every effect on mount. Object-valued dependencies are compared
    by identity, which the model tracks with a counter. The component body
    runs on every render, and with it [getSavedTimerState]. A function
    passed to a setter is applied by the render that follows, when the body
    reaches the hook; the setters it calls on the component being rendered
    make React evaluate the body once more before the commit, and an update
    of the parent it asks for is rendered after that commit.

    The kind of timer is one of the three strings the parent passes, and
    the stored record is one the component wrote ([JSON.stringify] of a
    [TimerState]); [onPomodoroComplete] is provided, as the parent does. *)

Module PomodoroTimer.

Inductive TimerMode : Type := Pomodoro | ShortBreak | LongBreak.

Definition TimerMode_eqb (a b : TimerMode) : bool :=
  match a, b with
  | Pomodoro, Pomodoro | ShortBreak, ShortBreak | LongBreak, LongBreak => true
  | _, _ => false
  end.

(** An object with the three keys [pomodoro], [shortBreak], [longBreak]. *)
Record PerMode (A : Type) : Type := mkPerMode {
  pomodoro : A;
  shortBreak : A;
  longBreak : A
}.
Arguments mkPerMode {A}.
Arguments pomodoro {A}.
Arguments shortBreak {A}.
Arguments longBreak {A}.

(** [obj[mode]] *)
Definition get {A : Type} (mode : TimerMode) (obj : PerMode A) : A :=
  match mode with
  | Pomodoro => pomodoro obj
  | ShortBreak => shortBreak obj
  | LongBreak => longBreak obj
  end.

(** [{ ...obj, [mode]: x }] *)
Definition set {A : Type} (mode : TimerMode) (x : A) (obj : PerMode A)
  : PerMode A :=
  match mode with
  | Pomodoro => mkPerMode x (shortBreak obj) (longBreak obj)
  | ShortBreak => mkPerMode (pomodoro obj) x (longBreak obj)
  | LongBreak => mkPerMode (pomodoro obj) (shortBreak obj) x
  end.

Record Settings : Type := mkSettings {
  timerDurations : PerMode Z;      (* minutes *)
  longBreakInterval : Z
}.

Definition getDuration (mode : TimerMode) (settings : Settings) : Z :=
  match mode with
  | Pomodoro => pomodoro (timerDurations settings) * 60
  | ShortBreak => shortBreak (timerDurations settings) * 60
  | LongBreak => longBreak (timerDurations settings) * 60
  end.

(** One entry of [timerStates]. *)
Module Slot.
Record t : Type := mk {
  timeRemaining : Z;
  isActive : bool
}.
End Slot.

(** The [TimerState] record kept under ['pomoSpaceTimerState']. *)
Module Saved.
Record t : Type := mk {
  timeRemaining : Z;
  isActive : bool;
  completedPomodoros : Z;
  activeTimestamp : option Z;
  timerMode : TimerMode;
  originalDuration : option Z;
  timerStates : option (PerMode Slot.t)
}.
End Saved.

Record Render : Type := mkRender {
  timerMode : TimerMode;                 (* prop *)
  settings : Settings;                   (* prop *)
  settingsId : nat;                      (* identity of settings.timerDurations *)
  timeRemaining : Z;
  isActive : bool;
  completedPomodoros : Z;
  timerStates : PerMode Slot.t;
  timerStatesId : nat                    (* identity of the timerStates object *)
}.

Record World : Type := mkWorld {
  storage : option Saved.t;              (* localStorage['pomoSpaceTimerState'] *)
  intervalRef : option Render;           (* the live interval and what its callback captured *)
  timeouts : list TimerMode;             (* pending setTimeout(() => setTimerMode(m, false), 0) *)
  pomodoroCompleted : nat;               (* calls of onPomodoroComplete *)
  alarms : nat;                          (* calls of playAlarmSound *)
  now : Z;                               (* Date.now() *)
  nextId : nat
}.

(** [a || b] on numbers *)
Definition orNum (a b : Z) : Z := if a =? 0 then b else a.

(** [n % m === 0] *)
Definition divides (m n : Z) : bool :=
  if m =? 0 then false else Z.rem n m =? 0.

Definition defaultTimerStates (settings : Settings) : PerMode Slot.t :=
  mkPerMode (Slot.mk (getDuration Pomodoro settings) false)
            (Slot.mk (getDuration ShortBreak settings) false)
            (Slot.mk (getDuration LongBreak settings) false).

Definition onPomodoroComplete (w : World) : World :=
  mkWorld (storage w) (intervalRef w) (timeouts w) (S (pomodoroCompleted w))
          (alarms w) (now w) (nextId w).

Definition playAlarmSound (w : World) : World :=
  mkWorld (storage w) (intervalRef w) (timeouts w) (pomodoroCompleted w)
          (S (alarms w)) (now w) (nextId w).

Definition setTimeoutSetTimerMode (m : TimerMode) (w : World) : World :=
  mkWorld (storage w) (intervalRef w) (timeouts w ++ [m])%list (pomodoroCompleted w)
          (alarms w) (now w) (nextId w).

Definition setItem (s : Saved.t) (w : World) : World :=
  mkWorld (Some s) (intervalRef w) (timeouts w) (pomodoroCompleted w)
          (alarms w) (now w) (nextId w).

Definition setIntervalRef (i : option Render) (w : World) : World :=
  mkWorld (storage w) i (timeouts w) (pomodoroCompleted w)
          (alarms w) (now w) (nextId w).

Definition clearInterval (w : World) : World := setIntervalRef None w.

(** [getSavedTimerState]: the state it returns and its side effects. *)
Definition getSavedTimerState (timerMode : TimerMode) (settings : Settings)
  (w : World) : Saved.t * World :=
  match storage w with
  | Some parsedState =>
      let timerStates :=
        match Saved.timerStates parsedState with
        | Some ts => ts
        | None =>
            let activeIf m :=
              if TimerMode_eqb (Saved.timerMode parsedState) m
              then Saved.isActive parsedState else false in
            mkPerMode
              (Slot.mk (getDuration Pomodoro settings) (activeIf Pomodoro))
              (Slot.mk (getDuration ShortBreak settings) (activeIf ShortBreak))
              (Slot.mk (getDuration LongBreak settings) (activeIf LongBreak))
        end in
      let stamped :=
        match Saved.activeTimestamp parsedState with
        | Some t => negb (t =? 0)
        | None => false
        end in
      if Saved.isActive parsedState && stamped then
        let stamp := match Saved.activeTimestamp parsedState with
                     | Some t => t | None => 0 end in
        let elapsedSeconds := (now w - stamp) / 1000 in
        let newTimeRemaining :=
          Z.max 0 (Saved.timeRemaining parsedState - elapsedSeconds) in
        let mode := Saved.timerMode parsedState in
        let timerStates :=
          set mode (Slot.mk newTimeRemaining (Slot.isActive (get mode timerStates)))
              timerStates in
        if newTimeRemaining <=? 0 then
          let w := if TimerMode_eqb mode Pomodoro then onPomodoroComplete w else w in
          let newMode :=
            if TimerMode_eqb mode Pomodoro then
              let newCompletedCount := Saved.completedPomodoros parsedState + 1 in
              if divides (longBreakInterval settings) newCompletedCount
              then LongBreak else ShortBreak
            else Pomodoro in
          let newCompletedPomodoros :=
            if TimerMode_eqb mode Pomodoro
            then Saved.completedPomodoros parsedState + 1
            else Saved.completedPomodoros parsedState in
          let timerStates :=
            set mode (Slot.mk (getDuration mode settings) false) timerStates in
          let w := if negb (TimerMode_eqb timerMode newMode)
                   then setTimeoutSetTimerMode newMode w else w in
          (Saved.mk (getDuration newMode settings) false newCompletedPomodoros
                    None newMode None (Some timerStates), w)
        else
          (Saved.mk newTimeRemaining (Saved.isActive parsedState)
                    (Saved.completedPomodoros parsedState)
                    (if Saved.isActive parsedState then Some (now w) else None)
                    (Saved.timerMode parsedState)
                    (Saved.originalDuration parsedState) (Some timerStates), w)
      else
        (Saved.mk (Saved.timeRemaining parsedState) (Saved.isActive parsedState)
                  (Saved.completedPomodoros parsedState)
                  (Saved.activeTimestamp parsedState)
                  (Saved.timerMode parsedState)
                  (Saved.originalDuration parsedState) (Some timerStates), w)
  | None =>
      (Saved.mk (getDuration timerMode settings) false 0 None timerMode None
                (Some (defaultTimerStates settings)), w)
  end.

(** [updateTimerState], with the settings of the render that calls it. *)
Definition updateTimerState (settings : Settings) (currentTimerMode : TimerMode)
  (timeRemaining : Z) (isActive : bool) (completedPomodoros : Z)
  (allTimerStates : PerMode Slot.t) (w : World) : World :=
  let originalDuration :=
    match storage w with
    | Some parsedState => Saved.originalDuration parsedState
    | None => None
    end in
  let originalDuration :=
    match originalDuration with
    | Some d => if d =? 0 then getDuration currentTimerMode settings else d
    | None => getDuration currentTimerMode settings
    end in
  setItem (Saved.mk timeRemaining isActive completedPomodoros
                    (if isActive then Some (now w) else None)
                    currentTimerMode (Some originalDuration)
                    (Some allTimerStates)) w.

(** State setters write into the pending render. *)
Definition setTimeRemaining (x : Z) (p : Render) : Render :=
  mkRender (timerMode p) (settings p) (settingsId p) x (isActive p)
           (completedPomodoros p) (timerStates p) (timerStatesId p).

Definition setIsActive (x : bool) (p : Render) : Render :=
  mkRender (timerMode p) (settings p) (settingsId p) (timeRemaining p) x
           (completedPomodoros p) (timerStates p) (timerStatesId p).

Definition setCompletedPomodoros (x : Z) (p : Render) : Render :=
  mkRender (timerMode p) (settings p) (settingsId p) (timeRemaining p)
           (isActive p) x (timerStates p) (timerStatesId p).

(** The parent's [setTimerMode]: the prop of the next render. *)
Definition setTimerMode (m : TimerMode) (p : Render) : Render :=
  mkRender m (settings p) (settingsId p) (timeRemaining p)
           (isActive p) (completedPomodoros p) (timerStates p) (timerStatesId p).

(** [setTimerStates] installs a new object. *)
Definition setTimerStates (x : PerMode Slot.t) (pw : Render * World)
  : Render * World :=
  let '(p, w) := pw in
  (mkRender (timerMode p) (settings p) (settingsId p) (timeRemaining p)
            (isActive p) (completedPomodoros p) x (nextId w),
   mkWorld (storage w) (intervalRef w) (timeouts w) (pomodoroCompleted w)
           (alarms w) (now w) (S (nextId w))).

(** *** The effects, in declaration order *)

(** "Save timeRemaining to localStorage every second when timer is active";
    dependencies [timeRemaining, isActive, completedPomodoros, timerMode,
    timerStates]. *)
Definition saveWhileActiveEffect (r : Render) (w : World) : World :=
  if isActive r then
    let updatedTimerStates :=
      set (timerMode r) (Slot.mk (timeRemaining r) (isActive r)) (timerStates r) in
    updateTimerState (settings r) (timerMode r) (timeRemaining r) (isActive r)
                     (completedPomodoros r) updatedTimerStates w
  else w.

(** "Also save state when isActive changes"; dependencies [isActive]. *)
Definition isActiveEffect (r : Render) (pw : Render * World) : Render * World :=
  let updatedTimerStates :=
    set (timerMode r) (Slot.mk (timeRemaining r) (isActive r)) (timerStates r) in
  let '(p, w) := setTimerStates updatedTimerStates pw in
  (p, updateTimerState (settings r) (timerMode r) (timeRemaining r) (isActive r)
                       (completedPomodoros r) updatedTimerStates w).

(** "Handle timer mode changes"; dependencies [timerMode]. Every mode has an
    entry in [timerStates], so the branch for a missing entry is not
    reachable. *)
Definition timerModeEffect (r : Render) (pw : Render * World) : Render * World :=
  let '(p, w) := pw in
  let w := clearInterval w in
  let timerState := get (timerMode r) (timerStates r) in
  let p := setTimeRemaining (Slot.timeRemaining timerState) p in
  let p := setIsActive false p in
  let updatedTimerStates :=
    set (timerMode r)
        (Slot.mk (orNum (Slot.timeRemaining timerState)
                        (getDuration (timerMode r) (settings r)))
                 false)
        (timerStates r) in
  let '(p, w) := setTimerStates updatedTimerStates (p, w) in
  (p, updateTimerState (settings r) (timerMode r) (timeRemaining r) false
                       (completedPomodoros r) updatedTimerStates w).

(** "Start/stop the timer when isActive changes"; dependencies [isActive,
    timerMode, completedPomodoros, settings, timeRemaining, setTimerMode,
    onPomodoroComplete]. Its cleanup clears the interval. The interval is
    recorded with the render whose values its callback captured. *)
Definition intervalEffect (r : Render) (w : World) : World :=
  if isActive r then
    match intervalRef w with
    | None => if timeRemaining r >? 0 then setIntervalRef (Some r) w else w
    | Some _ => w
    end
  else clearInterval w.

(** One iteration of the [forEach] of the settings effect. The callback
    declares [const timerMode = mode], which hides the prop of the same
    name; [oldFullDuration] is read from a copy of the current settings. *)
Definition reconcileMode (r : Render) (mode : TimerMode)
  (acc : PerMode Slot.t * Render) : PerMode Slot.t * Render :=
  let '(updatedTimerStates, p) := acc in
  let timerMode := mode in
  let currentState := get timerMode (timerStates r) in
  let newFullDuration := getDuration mode (settings r) in
  let oldFullDuration :=
    getDuration mode
      (mkSettings (mkPerMode (pomodoro (timerDurations (settings r)))
                             (shortBreak (timerDurations (settings r)))
                             (longBreak (timerDurations (settings r))))
                  (longBreakInterval (settings r))) in
  if Slot.isActive currentState
     || (Slot.timeRemaining currentState <? oldFullDuration) then
    let elapsedTime := Z.max 0 (oldFullDuration - Slot.timeRemaining currentState) in
    let newTimeRemaining := Z.max 1 (newFullDuration - elapsedTime) in
    let updatedTimerStates :=
      set timerMode (Slot.mk newTimeRemaining (Slot.isActive currentState))
          updatedTimerStates in
    (updatedTimerStates,
     if TimerMode_eqb mode timerMode then setTimeRemaining newTimeRemaining p else p)
  else
    let updatedTimerStates :=
      set timerMode (Slot.mk newFullDuration (Slot.isActive currentState))
          updatedTimerStates in
    (updatedTimerStates,
     if TimerMode_eqb mode timerMode then setTimeRemaining newFullDuration p else p).

(** "Effect to handle settings changes"; dependencies
    [settings.timerDurations]. *)
Definition settingsEffect (r : Render) (pw : Render * World) : Render * World :=
  let '(p, w) := pw in
  let '(updatedTimerStates, p) :=
    fold_left (fun acc mode => reconcileMode r mode acc)
              [Pomodoro; ShortBreak; LongBreak] (timerStates r, p) in
  let '(p, w) := setTimerStates updatedTimerStates (p, w) in
  (p, updateTimerState (settings r) (timerMode r) (timeRemaining r) (isActive r)
                       (completedPomodoros r) updatedTimerStates w).

(** *** Commit: run the effects whose dependencies changed *)

Definition changed {A : Type} (eqb : A -> A -> bool) (f : Render -> A)
  (prev : option Render) (r : Render) : bool :=
  match prev with
  | None => true
  | Some q => negb (eqb (f q) (f r))
  end.

Definition commit (prev : option Render) (r : Render) (w : World)
  : Render * World :=
  let cTime := changed Z.eqb timeRemaining prev r in
  let cActive := changed Bool.eqb isActive prev r in
  let cCompleted := changed Z.eqb completedPomodoros prev r in
  let cMode := changed TimerMode_eqb timerMode prev r in
  let cStates := changed Nat.eqb timerStatesId prev r in
  let cSettings := changed Nat.eqb settingsId prev r in
  let runsInterval := cActive || cMode || cCompleted || cSettings || cTime in
  (* cleanups of the effects about to run again *)
  let w := if runsInterval then
             match prev with Some _ => clearInterval w | None => w end
           else w in
  let w := if cTime || cActive || cCompleted || cMode || cStates
           then saveWhileActiveEffect r w else w in
  let pw := (r, w) in
  let pw := if cActive then isActiveEffect r pw else pw in
  let pw := if cMode then timerModeEffect r pw else pw in
  let pw := if runsInterval then (fst pw, intervalEffect r (snd pw)) else pw in
  let pw := if cSettings then settingsEffect r pw else pw in
  pw.

(** React renders again only when a prop or a state variable changed. *)
Definition sameRender (a b : Render) : bool :=
  TimerMode_eqb (timerMode a) (timerMode b)
  && Nat.eqb (settingsId a) (settingsId b)
  && (timeRemaining a =? timeRemaining b)
  && Bool.eqb (isActive a) (isActive b)
  && (completedPomodoros a =? completedPomodoros b)
  && Nat.eqb (timerStatesId a) (timerStatesId b).

(** The component body calls [getSavedTimerState] on every render; after
    mount only its side effects matter. *)
Definition renderBody (r : Render) (w : World) : World :=
  snd (getSavedTimerState (timerMode r) (settings r) w).

Definition popTimeout (w : World) : World :=
  mkWorld (storage w) (intervalRef w) (tl (timeouts w)) (pomodoroCompleted w)
          (alarms w) (now w) (nextId w).

(** Render and commit until nothing changes; a pending timeout runs once
    React has nothing left to render. [cur] is the committed render, [next]
    the props and state waiting to be rendered. *)
Fixpoint settle (fuel : nat) (cur next : Render) (w : World) : Render * World :=
  match fuel with
  | O => (next, w)
  | S fuel' =>
      if sameRender cur next then
        match timeouts w with
        | [] => (cur, w)
        | m :: _ => settle fuel' cur (setTimerMode m cur) (popTimeout w)
        end
      else
        let w := renderBody next w in
        let '(p, w) := commit (Some cur) next w in
        settle fuel' next p w
  end.

Definition fuel : nat := 12.

(** *** Mounting, and the events the component reacts to *)

(** First render and first commit, with the [useState] initialisers. *)
Definition mount (timerMode : TimerMode) (settings : Settings) (w : World)
  : Render * World :=
  let '(savedState, w) := getSavedTimerState timerMode settings w in
  let savedStates :=
    match Saved.timerStates savedState with
    | Some ts => ts
    | None => defaultTimerStates settings
    end in
  let r :=
    mkRender timerMode settings 0
             (orNum (Slot.timeRemaining (get timerMode savedStates))
                    (Saved.timeRemaining savedState))
             (Slot.isActive (get timerMode savedStates) || false)
             (Saved.completedPomodoros savedState)
             savedStates (nextId w) in
  let w := mkWorld (storage w) (intervalRef w) (timeouts w) (pomodoroCompleted w)
                   (alarms w) (now w) (S (nextId w)) in
  let '(p, w) := commit None r w in
  settle fuel r p w.

(** A page that was just opened: nothing is scheduled yet. *)
Definition freshWorld (stored : option Saved.t) (now : Z) : World :=
  mkWorld stored None [] 0 0 now 0.

(** Reloading the page keeps [localStorage] only; the parent starts from
    the kind it showed last. *)
Definition reload (c : Render * World) : Render * World :=
  let '(r, w) := c in
  mount (timerMode r) (settings r)
        (mkWorld (storage w) None [] (pomodoroCompleted w) (alarms w) (now w) 0).

(** [toggleTimer] *)
Definition toggleTimer (c : Render * World) : Render * World :=
  let '(r, w) := c in
  settle fuel r (setIsActive (negb (isActive r)) r) w.

(** [resetTimer] *)
Definition resetTimer (c : Render * World) : Render * World :=
  let '(r, w) := c in
  settle fuel r
    (setTimeRemaining (getDuration (timerMode r) (settings r))
       (setIsActive false r)) w.

(** A click on a mode button: the parent's [setTimerMode(mode, true)]. *)
Definition clickMode (mode : TimerMode) (c : Render * World) : Render * World :=
  let '(r, w) := c in
  settle fuel r (setTimerMode mode r) w.

(** The parent passes new settings (a new object with a new
    [timerDurations]), as the settings dialog does on every edit of a
    duration. *)
Definition changeSettings (s : Settings) (c : Render * World) : Render * World :=
  let '(r, w) := c in
  let next :=
    mkRender (timerMode r) s (nextId w) (timeRemaining r) (isActive r)
             (completedPomodoros r) (timerStates r) (timerStatesId r) in
  settle fuel r next
    (mkWorld (storage w) (intervalRef w) (timeouts w) (pomodoroCompleted w)
             (alarms w) (now w) (S (nextId w))).

(** The updater the interval callback passes to [setTimeRemaining], applied
    to the latest value [prev]; [c] is the render the callback captured.
    The click on the tab of the next kind, which it schedules after 10 ms,
    asks the parent for the kind it was just given and is left out. *)
Definition intervalCallback (c : Render) (prev : Z) (pw : Render * World)
  : Render * World :=
  if prev <=? 1 then
    let '(p, w) := pw in
    let w := clearInterval w in
    let w := playAlarmSound w in
    let '(nextMode, (p, w)) :=
      if TimerMode_eqb (timerMode c) Pomodoro then
        let newCompletedCount := completedPomodoros c + 1 in
        let p := setCompletedPomodoros newCompletedCount p in
        let w := onPomodoroComplete w in
        let nextMode :=
          if divides (longBreakInterval (settings c)) newCompletedCount
          then LongBreak else ShortBreak in
        let updatedTimerStates :=
          set (timerMode c)
              (Slot.mk (getDuration (timerMode c) (settings c)) false)
              (timerStates c) in
        (nextMode, setTimerStates updatedTimerStates (p, w))
      else
        let updatedTimerStates :=
          set (timerMode c)
              (Slot.mk (getDuration (timerMode c) (settings c)) false)
              (timerStates c) in
        (Pomodoro, setTimerStates updatedTimerStates (p, w)) in
    let p := setTimerMode nextMode p in
    (setTimeRemaining 0 p, w)
  else
    let '(p, w) := pw in
    (setTimeRemaining (prev - 1) p, w).

(** The interval fires; nothing happens when no interval is live. React
    applies the updater while it renders, when the body reaches [useState]:
    [getSavedTimerState] has run by then. As long as time is left the
    updater only returns the new value, and the order makes no difference.
    When it completes, the state setters it calls are updates of the
    component being rendered, so React evaluates the body once more before
    it commits, with the prop [timerMode] as it was; [setTimerMode] is an
    update of the parent, which renders after that commit with the new
    prop. *)
Definition tick (c : Render * World) : Render * World :=
  let '(r, w) := c in
  match intervalRef w with
  | None => c
  | Some captured =>
      if timeRemaining r <=? 1 then
        let w := renderBody r w in
        let '(p, w) := intervalCallback captured (timeRemaining r) (r, w) in
        let w := renderBody r w in
        let child := setTimerMode (timerMode r) p in
        let '(q, w) := commit (Some r) child w in
        settle fuel child (setTimerMode (timerMode p) q) w
      else
        let '(p, w) := intervalCallback captured (timeRemaining r) (r, w) in
        settle fuel r p w
  end.

(** Wall-clock time passes. *)
Definition advance (ms : Z) (c : Render * World) : Render * World :=
  let '(r, w) := c in
  (r, mkWorld (storage w) (intervalRef w) (timeouts w) (pomodoroCompleted w)
              (alarms w) (now w + ms) (nextId w)).

Inductive Event : Type :=
| Toggle
| Reset
| Click (mode : TimerMode)
| ChangeSettings (s : Settings)
| Tick
| Advance (ms : Z)
| Reload.

Definition step (c : Render * World) (e : Event) : Render * World :=
  match e with
  | Toggle => toggleTimer c
  | Reset => resetTimer c
  | Click mode => clickMode mode c
  | ChangeSettings s => changeSettings s c
  | Tick => tick c
  | Advance ms => advance ms c
  | Reload => reload c
  end.

Definition run (es : list Event) (c : Render * World) : Render * World :=
  fold_left step es c.

(** The slots whose running flag is set. *)
Definition runningSlots (ts : PerMode Slot.t) : list TimerMode :=
  filter (fun m => Slot.isActive (get m ts)) [Pomodoro; ShortBreak; LongBreak].


(** *** The display *)

Import Ascii.

(** [n.toString()] for a whole number below 10^21 in absolute value, where
    JavaScript prints every digit. From 10^21 on [Number.prototype.toString]
    switches to exponent notation, and a number with a fraction prints its
    fraction: neither is modelled, and the facts about the display are
    stated for whole numbers within the range of safe integers. *)
Definition toString (n : Z) : string := DecimalString.NilZero.string_of_int (Z.to_int n).

Fixpoint zeros (k : nat) : string :=
  match k with
  | O => ""
  | S k' => String "0" (zeros k')
  end.

(** [s.padStart(width, '0')] *)
Definition padStart0 (width : nat) (s : string) : string :=
  zeros (width - String.length s) ++ s.

(** [formatTime]: [Math.floor] rounds down, [%] keeps the sign of the
    dividend. *)
Definition formatTime (seconds : Z) : string :=
  let mins := seconds / 60 in
  let secs := Z.rem seconds 60 in
  padStart0 2 (toString mins) ++ ":" ++ padStart0 2 (toString secs).

End PomodoroTimer.

(** ** Scenarios and state predicates for the component *)

Module Scenario.
Import PomodoroTimer.

(** Default durations: 25, 5 and 15 minutes, a long break every fourth
    pomodoro. *)
Definition settings25 : Settings := mkSettings (mkPerMode 25 5 15) 4.

Definition settingsShort10 : Settings := mkSettings (mkPerMode 25 10 15) 4.

(** A one minute pomodoro. *)
Definition settings1 : Settings := mkSettings (mkPerMode 1 5 15) 4.

(** The page opened for the first time at clock [1000000]. *)
Definition opened (s : Settings) : Render * World :=
  mount Pomodoro s (freshWorld None 1000000).

(** [n] seconds during which the interval fires once a second. *)
Fixpoint seconds (n : nat) : list Event :=
  match n with
  | O => []
  | S k => Advance 1000 :: Tick :: seconds k
  end.

(** The focus timer brought to its full duration and started. *)
Definition focusStarted (s : Settings) : Render * World :=
  run [Click ShortBreak; Click Pomodoro; Toggle] (opened s).

(** One Start/Pause pair: Start, then for every gap in [fst cy] that much
    wall-clock time followed by one run of the interval callback, then
    [snd cy] more milliseconds and Pause. *)
Definition tickEvents (gaps : list Z) : list Event :=
  flat_map (fun g => [Advance g; Tick]) gaps.

Definition cycleEvents (cy : list Z * Z) : list Event :=
  (Toggle :: tickEvents (fst cy) ++ [Advance (snd cy); Toggle])%list.

Definition cyclesEvents (cs : list (list Z * Z)) : list Event :=
  flat_map cycleEvents cs.

(** How often the interval callback ran, and how many milliseconds passed
    between each Start and its Pause. *)
Definition tickCount (cs : list (list Z * Z)) : Z :=
  Z.of_nat (List.length (flat_map fst cs)).

Definition allGaps (cs : list (list Z * Z)) : list Z :=
  flat_map (fun cy => (fst cy ++ [snd cy])%list) cs.

Definition runningMillis (cs : list (list Z * Z)) : Z :=
  fold_right Z.add 0 (allGaps cs).

(** The entry the settings effect writes for a kind. *)
Definition reconciled (r : Render) (mode : TimerMode) : Slot.t :=
  get mode (fst (reconcileMode r mode (timerStates r, r))).

(** The kind the interval callback switches to when it completes. *)
Definition nextMode (captured : Render) : TimerMode :=
  if TimerMode_eqb (timerMode captured) Pomodoro then
    if divides (longBreakInterval (settings captured))
               (completedPomodoros captured + 1)
    then LongBreak else ShortBreak
  else Pomodoro.




(** The stored record does not describe a running timer. *)
Definition quiet (w : World) : Prop :=
  match storage w with
  | None => True
  | Some s => Saved.isActive s = false
  end.

(** The timer shows [T] seconds and is paused; nothing is scheduled. *)
Definition Paused (T : Z) (c : Render * World) : Prop :=
  isActive (fst c) = false
  /\ timeRemaining (fst c) = T
  /\ intervalRef (snd c) = None
  /\ timeouts (snd c) = []
  /\ (timerStatesId (fst c) < nextId (snd c))%nat
  /\ quiet (snd c).

(** The timer shows [T] seconds and is running; the record stored [age]
    milliseconds ago says so. *)
Definition Running (T age : Z) (c : Render * World) : Prop :=
  isActive (fst c) = true
  /\ timeRemaining (fst c) = T
  /\ (exists captured, intervalRef (snd c) = Some captured)
  /\ timeouts (snd c) = []
  /\ (timerStatesId (fst c) < nextId (snd c))%nat
  /\ exists s, storage (snd c) = Some s
               /\ Saved.isActive s = true
               /\ Saved.timeRemaining s = T
               /\ Saved.activeTimestamp s = Some (now (snd c) - age).

End Scenario.

(** ** Definitions used to state the properties *)

Module Props.
Import Js.

(** [state.timerStates?.[kind]] of a loaded timer state. *)
Definition slotOf (state : value) (kind : string) : value :=
  getPropOpt (getPropOpt state "timerStates") kind.

(** [settings.timerDurations?.[kind]] of loaded settings. *)
Definition durationOf (settings : value) (kind : string) : value :=
  getPropOpt (getPropOpt settings "timerDurations") kind.

(** The configured length in seconds of a kind, by its key. *)
Definition fullDuration (settings : LocalStorageUtils.Settings) (kind : string) : Z :=
  if String.eqb kind "shortBreak" then LocalStorageUtils.shortBreak settings * 60
  else if String.eqb kind "longBreak" then LocalStorageUtils.longBreak settings * 60
  else LocalStorageUtils.pomodoro settings * 60.

Definition isKind (kind : string) : bool :=
  String.eqb kind "pomodoro" || String.eqb kind "shortBreak"
  || String.eqb kind "longBreak".

(** The three tests of [fixHardcodedPomodoroTime] on a parsed record. *)
Definition slotIs900 (v : value) : bool :=
  isNum (getPropOpt (slotOf v "pomodoro") "timeRemaining") 900.

Definition mainIs900 (v : value) : bool :=
  isStr (getPropOpt v "timerMode") "pomodoro"
  && isNum (getPropOpt v "timeRemaining") 900.

Definition originalIs900 (v : value) : bool :=
  isStr (getPropOpt v "timerMode") "pomodoro"
  && isNum (getPropOpt v "originalDuration") 900.

(** Stored settings with a 15 minute pomodoro, and the timer record of
    that configuration at full duration. *)
Definition settings15 : value :=
  VObj [ ("timerDurations",
          VObj [ ("pomodoro", VNum 15); ("shortBreak", VNum 5);
                 ("longBreak", VNum 15) ]);
         ("longBreakInterval", VNum 4) ].

Definition store15 : LocalStorageUtils.Store :=
  LocalStorageUtils.mkStore
    (Json settings15)
    (Json (LocalStorageUtils.createFreshTimerState "pomodoro"
             (LocalStorageUtils.mkSettings 15 5 15 4))).

(** Stored settings whose break durations are out of range. *)
Definition settingsBadBreaks : value :=
  VObj [ ("timerDurations",
          VObj [ ("pomodoro", VNum 25); ("shortBreak", VNum (-5));
                 ("longBreak", VNum 0) ]) ].

(** A stored timer record whose running focus slot has a negative remaining
    time. *)
Definition negativeRemaining : value :=
  VObj [ ("timeRemaining", VNum (-5)); ("isActive", VBool true);
         ("completedPomodoros", VNum 0); ("activeTimestamp", VNum 1);
         ("timerMode", VStr "pomodoro");
         ("timerStates",
          VObj [ ("pomodoro", VObj [ ("timeRemaining", VNum (-5));
                                     ("isActive", VBool true) ]);
                 ("shortBreak", VObj [ ("timeRemaining", VNum 300);
                                       ("isActive", VBool false) ]);
                 ("longBreak", VObj [ ("timeRemaining", VNum 900);
                                      ("isActive", VBool false) ]) ]) ].


(** The store [validateLocalStorage] leaves when it returns true: the timer
    record after [fixHardcodedPomodoroTime]. *)
Definition fixedStore (st : LocalStorageUtils.Store) : LocalStorageUtils.Store :=
  LocalStorageUtils.mkStore
    (LocalStorageUtils.pomoSpaceSettings st)
    (snd (LocalStorageUtils.fixHardcodedPomodoroTime
            (LocalStorageUtils.pomoSpaceTimerState st))).

(** [n || d] on numbers, [s || d] on strings *)
Definition numOr (n d : Z) : Z := if n =? 0 then d else n.
Definition strOr (s d : string) : string := if String.eqb s "" then d else s.




(** Reading a field of the display back as a number. *)
Definition readNumber (s : string) : option Z :=
  option_map Z.of_int (DecimalString.NilZero.int_of_string s).

End Props.


(** ** hooks/useTimer.ts and the PomodoroTimer component that uses it

    The hook keeps one [TimerState] per kind and derives the time left of
    a running timer from [Date.now()] and the timestamp of its start. The
    component passes its props on and adds one effect, which asks the hook
    for the kind the parent selected.

    React is modelled as for the component above: setters called by one
    callback or by the effects of one commit are applied in order to the
    pending state, then the component renders again; the effects whose
    dependencies changed run in declaration order, every effect on mount.
    The stored record is one the hook wrote. *)

Module UseTimer.

Inductive TimerType : Type := Pomodoro | ShortBreak | LongBreak.

Definition TimerType_eqb (a b : TimerType) : bool :=
  match a, b with
  | Pomodoro, Pomodoro | ShortBreak, ShortBreak | LongBreak, LongBreak => true
  | _, _ => false
  end.

(** The three members [pomodoro], [shortBreak], [longBreak] of an object. *)
Record ByType (A : Type) : Type := mkByType {
  pomodoro : A;
  shortBreak : A;
  longBreak : A
}.
Arguments mkByType {A}.
Arguments pomodoro {A}.
Arguments shortBreak {A}.
Arguments longBreak {A}.

(** [obj[type]] *)
Definition getTimer {A : Type} (type : TimerType) (obj : ByType A) : A :=
  match type with
  | Pomodoro => pomodoro obj
  | ShortBreak => shortBreak obj
  | LongBreak => longBreak obj
  end.

(** [{ ...obj, [type]: x }] *)
Definition setTimer {A : Type} (type : TimerType) (x : A) (obj : ByType A)
  : ByType A :=
  match type with
  | Pomodoro => mkByType x (shortBreak obj) (longBreak obj)
  | ShortBreak => mkByType (pomodoro obj) x (longBreak obj)
  | LongBreak => mkByType (pomodoro obj) (shortBreak obj) x
  end.

Record TimerState : Type := mkTimerState {
  startTime : option Z;       (* null, or the timestamp the run is counted from *)
  duration : Z;               (* seconds *)
  elapsed : Z;                (* seconds, as of the last pause *)
  isRunning : bool
}.

(** [AllTimerStates]: the three timers, the active type and the count. *)
Record AllTimerStates : Type := mkAllTimerStates {
  timers : ByType TimerState;
  activeType : TimerType;
  completedPomodoros : Z
}.

Record TimerSettings : Type := mkTimerSettings {
  timerDurations : ByType Z;  (* minutes *)
  longBreakInterval : Z
}.

(** What one evaluation of the component sees: its props and the state of
    the hook. *)
Record Render : Type := mkRender {
  timerMode : TimerType;             (* prop of the component *)
  settings : TimerSettings;          (* prop *)
  settingsId : nat;                  (* identity of the settings object *)
  settingsLastUpdated : option Z;    (* settings.lastUpdated *)
  allTimers : AllTimerStates;
  timeRemaining : Z
}.

Record World : Type := mkWorld {
  storage : option AllTimerStates;   (* localStorage[TIMER_STORAGE_KEY] *)
  timerIntervalRef : option Render;  (* the live interval and what its callback captured *)
  completions : nat;                 (* calls of onComplete *)
  now : Z;                           (* Date.now() *)
  nextId : nat
}.

Definition activeTimer (a : AllTimerStates) : TimerState :=
  getTimer (activeType a) (timers a).

(** [t || now] for a timestamp that may be null *)
Definition stampOr (t : option Z) (now : Z) : Z :=
  match t with
  | Some t => if t =? 0 then now else t
  | None => now
  end.

Definition hasStamp (t : option Z) : bool :=
  match t with
  | Some t => negb (t =? 0)
  | None => false
  end.

Definition calculateTimeRemaining (now : Z) (timer : TimerState) : Z :=
  match startTime timer with
  | Some t =>
      if negb (isRunning timer) || (t =? 0) then duration timer - elapsed timer
      else
        let elapsedMs := now - t in
        let elapsedSeconds := elapsedMs / 1000 in
        Z.max 0 (duration timer - elapsedSeconds)
  | None => duration timer - elapsed timer
  end.

Definition getDurationFromSettings (type : TimerType) (settings : TimerSettings) : Z :=
  getTimer type (timerDurations settings) * 60.

Definition createDefaultTimerState (duration : Z) : TimerState :=
  mkTimerState None duration 0 false.

Definition createDefaultTimerStates (settings : TimerSettings) : AllTimerStates :=
  mkAllTimerStates
    (mkByType (createDefaultTimerState (pomodoro (timerDurations settings) * 60))
              (createDefaultTimerState (shortBreak (timerDurations settings) * 60))
              (createDefaultTimerState (longBreak (timerDurations settings) * 60)))
    Pomodoro 0.

(** [loadTimerStates] on a record the hook stored: a timer keeps its stored
    duration only while it is the active one and running. *)
Definition loadTimerStates (settings : TimerSettings) (w : World)
  : option AllTimerStates :=
  match storage w with
  | None => None
  | Some parsedState =>
      let validated (type : TimerType) : TimerState :=
        let t := getTimer type (timers parsedState) in
        if (duration t =? 0)
           || (negb (TimerType_eqb (activeType parsedState) type)
               || negb (isRunning t))
        then mkTimerState (startTime t) (getDurationFromSettings type settings)
                          (elapsed t) (isRunning t)
        else t in
      Some (mkAllTimerStates
              (mkByType (validated Pomodoro) (validated ShortBreak)
                        (validated LongBreak))
              (activeType parsedState)
              (completedPomodoros parsedState))
  end.

Definition saveTimerStates (state : AllTimerStates) (w : World) : World :=
  mkWorld (Some state) (timerIntervalRef w) (completions w) (now w) (nextId w).

Definition onComplete (w : World) : World :=
  mkWorld (storage w) (timerIntervalRef w) (S (completions w)) (now w) (nextId w).

Definition setRef (i : option Render) (w : World) : World :=
  mkWorld (storage w) i (completions w) (now w) (nextId w).

(** State setters write into the pending render. *)
Definition setAllTimers (x : AllTimerStates) (p : Render) : Render :=
  mkRender (timerMode p) (settings p) (settingsId p) (settingsLastUpdated p)
           x (timeRemaining p).

Definition setTimeRemaining (x : Z) (p : Render) : Render :=
  mkRender (timerMode p) (settings p) (settingsId p) (settingsLastUpdated p)
           (allTimers p) x.

Definition clearTimerInterval (w : World) : World := setRef None w.

(** [startTimerInterval] of render [r]: the callback it installs reads
    [allTimers] and [activeType] of that render. *)
Definition startTimerInterval (r : Render) (w : World) : World :=
  match timerIntervalRef w with
  | Some _ => w
  | None => setRef (Some r) w
  end.

(** [updateActiveTimer]: [setAllTimers(prev => ...)] with the active type
    of render [r], and the save inside the updater. *)
Definition updateActiveTimer (r : Render) (newTimerState : TimerState)
  (pw : Render * World) : Render * World :=
  let '(p, w) := pw in
  let prev := allTimers p in
  let updated :=
    mkAllTimerStates (setTimer (activeType (allTimers r)) newTimerState (timers prev))
                     (activeType prev) (completedPomodoros prev) in
  (setAllTimers updated p, saveTimerStates updated w).

Definition changeTimerType (r : Render) (newType : TimerType)
  (pw : Render * World) : Render * World :=
  if TimerType_eqb newType (activeType (allTimers r)) then pw else
  let '(p, w) := pw in
  let w := clearTimerInterval w in
  let prev := allTimers p in
  let updated := mkAllTimerStates (timers prev) newType (completedPomodoros prev) in
  let p := setAllTimers updated p in
  let w := saveTimerStates updated w in
  let newTimer := getTimer newType (timers (allTimers r)) in
  let p := setTimeRemaining (calculateTimeRemaining (now w) newTimer) p in
  let w := if isRunning newTimer then startTimerInterval r w else w in
  (p, w).

Definition startTimer (r : Render) (pw : Render * World) : Render * World :=
  let timer := activeTimer (allTimers r) in
  if isRunning timer then pw else
  let now := now (snd pw) in
  let updatedTimer :=
    mkTimerState (Some (now - elapsed timer * 1000)) (duration timer)
                 (elapsed timer) true in
  let '(p, w) := updateActiveTimer r updatedTimer pw in
  (p, startTimerInterval r w).

Definition pauseTimer (r : Render) (pw : Render * World) : Render * World :=
  let timer := activeTimer (allTimers r) in
  if negb (isRunning timer) then pw else
  let '(p, w) := pw in
  let w := clearTimerInterval w in
  let startTime' := stampOr (startTime timer) (now w) in
  let elapsedSeconds := (now w - startTime') / 1000 in
  let updatedTimer :=
    mkTimerState (startTime timer) (duration timer) elapsedSeconds false in
  updateActiveTimer r updatedTimer (p, w).

Definition resetTimer (r : Render) (pw : Render * World) : Render * World :=
  let '(p, w) := pw in
  let w := clearTimerInterval w in
  let newDuration := getDurationFromSettings (activeType (allTimers r)) (settings r) in
  let updatedTimer := mkTimerState None newDuration 0 false in
  let '(p, w) := updateActiveTimer r updatedTimer (p, w) in
  (setTimeRemaining newDuration p, w).

(** [n % m === 0] *)
Definition divides (m n : Z) : bool :=
  if m =? 0 then false else Z.rem n m =? 0.

Definition completeTimer (r : Render) (pw : Render * World) : Render * World :=
  let '(p, w) := pw in
  let w := clearTimerInterval w in
  let type := activeType (allTimers r) in
  let timer := activeTimer (allTimers r) in
  let newCompletedPomodoros :=
    if TimerType_eqb type Pomodoro
    then completedPomodoros (allTimers r) + 1
    else completedPomodoros (allTimers r) in
  let nextType :=
    if TimerType_eqb type Pomodoro then
      if divides (longBreakInterval (settings r)) newCompletedPomodoros
      then LongBreak else ShortBreak
    else Pomodoro in
  let w := if TimerType_eqb type Pomodoro then onComplete w else w in
  let completedTimer := mkTimerState None (duration timer) 0 false in
  let prev := allTimers p in
  let updated :=
    mkAllTimerStates (setTimer type completedTimer (timers prev))
                     nextType newCompletedPomodoros in
  let p := setAllTimers updated p in
  let w := saveTimerStates updated w in
  (setTimeRemaining (getDurationFromSettings nextType (settings r)) p, w).

(** The interval callback installed by render [c]. *)
Definition intervalCallback (c : Render) (pw : Render * World) : Render * World :=
  let current := activeTimer (allTimers c) in
  let remaining := calculateTimeRemaining (now (snd pw)) current in
  if remaining <=? 0 then
    let '(p, w) := pw in
    completeTimer c (p, clearTimerInterval w)
  else
    let '(p, w) := pw in
    (setTimeRemaining remaining p, w).

(** *** The effects, in declaration order *)

(** "Effect to start/stop timer interval when active timer state changes";
    dependencies [activeTimer.isRunning, activeTimer.startTime, activeType];
    its cleanup clears the interval. *)
Definition intervalEffect (r : Render) (w : World) : World :=
  if isRunning (activeTimer (allTimers r)) then startTimerInterval r w
  else clearTimerInterval w.

(** One of the three checks of the settings effect. *)
Definition reconcile (r : Render) (now : Z) (type : TimerType)
  (acc : ByType TimerState * bool) : ByType TimerState * bool :=
  let '(updatedTimers, needsUpdate) := acc in
  let newDuration := getDurationFromSettings type (settings r) in
  let timer := getTimer type updatedTimers in
  if negb (duration timer =? newDuration) then
    if TimerType_eqb (activeType (allTimers r)) type
       && isRunning (activeTimer (allTimers r)) then
      let startTime' := stampOr (startTime (activeTimer (allTimers r))) now in
      let elapsedSeconds := (now - startTime') / 1000 in
      (setTimer type
         (mkTimerState (Some (now - elapsedSeconds * 1000)) newDuration
                       (elapsed timer) (isRunning timer))
         updatedTimers, true)
    else
      (setTimer type
         (mkTimerState (startTime timer) newDuration (elapsed timer)
                       (isRunning timer))
         updatedTimers, true)
  else acc.

(** "Effect to handle settings changes"; dependencies
    [settings, settingsLastUpdated]. *)
Definition settingsEffect (r : Render) (pw : Render * World) : Render * World :=
  if negb (hasStamp (settingsLastUpdated r)) then pw else
  let '(p, w) := pw in
  let '(updated, needsUpdate) :=
    reconcile r (now w) LongBreak
      (reconcile r (now w) ShortBreak
         (reconcile r (now w) Pomodoro (timers (allTimers r), false))) in
  if needsUpdate then
    let updatedTimers :=
      mkAllTimerStates updated (activeType (allTimers r))
                       (completedPomodoros (allTimers r)) in
    let p := setAllTimers updatedTimers p in
    let w := saveTimerStates updatedTimers w in
    let type := activeType (allTimers r) in
    if negb (duration (getTimer type updated)
             =? duration (getTimer type (timers (allTimers r)))) then
      (setTimeRemaining
         (calculateTimeRemaining (now w) (getTimer type updated)) p, w)
    else (p, w)
  else (p, w).

(** "Effect to handle page reload and initial load"; runs once, on mount. *)
Definition mountEffect (r : Render) (pw : Render * World) : Render * World :=
  let timer := activeTimer (allTimers r) in
  if isRunning timer && hasStamp (startTime timer) then
    let remaining := calculateTimeRemaining (now (snd pw)) timer in
    if remaining <=? 0 then completeTimer r pw
    else
      let '(p, w) := pw in
      (setTimeRemaining remaining p, startTimerInterval r w)
  else
    let '(p, w) := pw in
    let newRemaining := duration timer - elapsed timer in
    (setTimeRemaining (if newRemaining >? 0 then newRemaining else 0) p, w).

(** The effect of the component, "Handle timer mode changes": one of its
    dependencies is [changeTimerType], a new function on every render, so
    it runs after every render. *)
Definition timerModeEffect (r : Render) (pw : Render * World) : Render * World :=
  if negb (TimerType_eqb (timerMode r) (activeType (allTimers r)))
  then changeTimerType r (timerMode r) pw
  else pw.

(** *** Commit: run the effects whose dependencies changed *)

Definition stamp_eqb (a b : option Z) : bool :=
  match a, b with
  | Some x, Some y => x =? y
  | None, None => true
  | _, _ => false
  end.

Definition TimerState_eqb (a b : TimerState) : bool :=
  stamp_eqb (startTime a) (startTime b) && (duration a =? duration b)
  && (elapsed a =? elapsed b) && Bool.eqb (isRunning a) (isRunning b).

Definition AllTimerStates_eqb (a b : AllTimerStates) : bool :=
  TimerState_eqb (pomodoro (timers a)) (pomodoro (timers b))
  && TimerState_eqb (shortBreak (timers a)) (shortBreak (timers b))
  && TimerState_eqb (longBreak (timers a)) (longBreak (timers b))
  && TimerType_eqb (activeType a) (activeType b)
  && (completedPomodoros a =? completedPomodoros b).

Definition intervalDepsChanged (prev : option Render) (r : Render) : bool :=
  match prev with
  | None => true
  | Some q =>
      negb (Bool.eqb (isRunning (activeTimer (allTimers q)))
                     (isRunning (activeTimer (allTimers r)))
            && stamp_eqb (startTime (activeTimer (allTimers q)))
                         (startTime (activeTimer (allTimers r)))
            && TimerType_eqb (activeType (allTimers q)) (activeType (allTimers r)))
  end.

Definition settingsDepsChanged (prev : option Render) (r : Render) : bool :=
  match prev with
  | None => true
  | Some q =>
      negb (Nat.eqb (settingsId q) (settingsId r)
            && stamp_eqb (settingsLastUpdated q) (settingsLastUpdated r))
  end.

Definition commit (prev : option Render) (r : Render) (w : World)
  : Render * World :=
  let cInterval := intervalDepsChanged prev r in
  (* cleanup of the interval effect when it is about to run again *)
  let w := if cInterval then
             match prev with Some _ => clearTimerInterval w | None => w end
           else w in
  let w := if cInterval then intervalEffect r w else w in
  let pw := (r, w) in
  let pw := if settingsDepsChanged prev r then settingsEffect r pw else pw in
  let pw := match prev with None => mountEffect r pw | Some _ => pw end in
  timerModeEffect r pw.

(** React renders again when a prop or a state variable changed. The state
    object [allTimers] is compared by its members: a new object with the
    members of the old one re-runs no effect that acts. *)
Definition sameRender (a b : Render) : bool :=
  TimerType_eqb (timerMode a) (timerMode b)
  && Nat.eqb (settingsId a) (settingsId b)
  && stamp_eqb (settingsLastUpdated a) (settingsLastUpdated b)
  && AllTimerStates_eqb (allTimers a) (allTimers b)
  && (timeRemaining a =? timeRemaining b).

(** Render and commit until nothing changes. [cur] is the committed
    render, [next] the props and state waiting to be rendered. *)
Fixpoint settle (fuel : nat) (cur next : Render) (w : World) : Render * World :=
  match fuel with
  | O => (next, w)
  | S fuel' =>
      if sameRender cur next then (cur, w)
      else
        let '(p, w) := commit (Some cur) next w in
        settle fuel' next p w
  end.

Definition fuel : nat := 8.

(** *** Mounting, and the events the component reacts to *)

Definition mount (timerMode : TimerType) (settings : TimerSettings)
  (lastUpdated : option Z) (w : World) : Render * World :=
  let initial :=
    match loadTimerStates settings w with
    | Some a => a
    | None => createDefaultTimerStates settings
    end in
  let r :=
    mkRender timerMode settings (nextId w) lastUpdated initial
             (calculateTimeRemaining (now w) (activeTimer initial)) in
  let w := mkWorld (storage w) (timerIntervalRef w) (completions w) (now w)
                   (S (nextId w)) in
  let '(p, w) := commit None r w in
  settle fuel r p w.

Definition freshWorld (stored : option AllTimerStates) (now : Z) : World :=
  mkWorld stored None 0 now 0.

(** Reloading the page keeps [localStorage] only; [timerMode] is the kind
    the parent starts with. *)
Definition reload (timerMode : TimerType) (c : Render * World) : Render * World :=
  let '(r, w) := c in
  mount timerMode (settings r) (settingsLastUpdated r)
        (mkWorld (storage w) None (completions w) (now w) 0).

(** [toggleTimer] of the component *)
Definition toggleTimer (c : Render * World) : Render * World :=
  let '(r, w) := c in
  let '(p, w) :=
    if isRunning (activeTimer (allTimers r)) then pauseTimer r (r, w)
    else startTimer r (r, w) in
  settle fuel r p w.

(** The reset button *)
Definition clickReset (c : Render * World) : Render * World :=
  let '(r, w) := c in
  let '(p, w) := resetTimer r (r, w) in
  settle fuel r p w.

(** A click on a mode button: the parent's [setTimerMode(mode, true)]. *)
Definition clickMode (mode : TimerType) (c : Render * World) : Render * World :=
  let '(r, w) := c in
  settle fuel r
    (mkRender mode (settings r) (settingsId r) (settingsLastUpdated r)
              (allTimers r) (timeRemaining r)) w.

(** The parent passes a new settings object. *)
Definition changeSettings (s : TimerSettings) (lastUpdated : option Z)
  (c : Render * World) : Render * World :=
  let '(r, w) := c in
  settle fuel r
    (mkRender (timerMode r) s (nextId w) lastUpdated (allTimers r) (timeRemaining r))
    (mkWorld (storage w) (timerIntervalRef w) (completions w) (now w)
             (S (nextId w))).

(** The interval fires; nothing happens when no interval is live. *)
Definition tick (c : Render * World) : Render * World :=
  let '(r, w) := c in
  match timerIntervalRef w with
  | None => c
  | Some captured =>
      let '(p, w) := intervalCallback captured (r, w) in
      settle fuel r p w
  end.

(** Wall-clock time passes. *)
Definition advance (ms : Z) (c : Render * World) : Render * World :=
  let '(r, w) := c in
  (r, mkWorld (storage w) (timerIntervalRef w) (completions w) (now w + ms)
              (nextId w)).

Inductive Event : Type :=
| Toggle
| Reset
| Click (mode : TimerType)
| ChangeSettings (s : TimerSettings) (lastUpdated : option Z)
| Tick
| Advance (ms : Z)
| Reload (mode : TimerType).

Definition step (c : Render * World) (e : Event) : Render * World :=
  match e with
  | Toggle => toggleTimer c
  | Reset => clickReset c
  | Click mode => clickMode mode c
  | ChangeSettings s lastUpdated => changeSettings s lastUpdated c
  | Tick => tick c
  | Advance ms => advance ms c
  | Reload mode => reload mode c
  end.

Definition run (es : list Event) (c : Render * World) : Render * World :=
  fold_left step es c.

End UseTimer.


(** ** State predicates and event sequences for the hook *)

Module HookScenario.
Import UseTimer.

(** The active type of the hook is the kind the parent selected. *)
Definition AtRest (c : Render * World) : Prop :=
  timerMode (fst c) = activeType (allTimers (fst c)).

(** The active timer has length [D] and is paused with [E] seconds
    elapsed; no interval is live. *)
Definition Idle (D E : Z) (c : Render * World) : Prop :=
  AtRest c
  /\ duration (activeTimer (allTimers (fst c))) = D
  /\ elapsed (activeTimer (allTimers (fst c))) = E
  /\ isRunning (activeTimer (allTimers (fst c))) = false
  /\ timerIntervalRef (snd c) = None.

(** The active timer has length [D] and is running, counted from the
    timestamp [S]; the live interval reads the current timers. *)
Definition Running (D S : Z) (c : Render * World) : Prop :=
  AtRest c
  /\ duration (activeTimer (allTimers (fst c))) = D
  /\ startTime (activeTimer (allTimers (fst c))) = Some S
  /\ S <> 0
  /\ isRunning (activeTimer (allTimers (fst c))) = true
  /\ exists captured,
       timerIntervalRef (snd c) = Some captured
       /\ allTimers captured = allTimers (fst c)
       /\ settings captured = settings (fst c).

(** One Start/Pause pair: Start, then for every gap in [fst cy] that much
    wall-clock time followed by one run of the interval callback, then
    [snd cy] more milliseconds and Pause. *)
Definition tickEvents (gaps : list Z) : list Event :=
  flat_map (fun g => [Advance g; Tick]) gaps.

Definition cycleEvents (cy : list Z * Z) : list Event :=
  (Toggle :: tickEvents (fst cy) ++ [Advance (snd cy); Toggle])%list.

Definition cyclesEvents (cs : list (list Z * Z)) : list Event :=
  flat_map cycleEvents cs.

Definition sum (l : list Z) : Z := fold_right Z.add 0 l.

(** The milliseconds between a Start and its Pause, and the whole seconds
    of every such run added up. *)
Definition runMillis (cy : list Z * Z) : Z := sum (fst cy) + snd cy.

Definition wholeSeconds (cs : list (list Z * Z)) : Z :=
  sum (map (fun cy => runMillis cy / 1000) cs).

Definition allGaps (cs : list (list Z * Z)) : list Z :=
  flat_map (fun cy => (fst cy ++ [snd cy])%list) cs.

(** The render the parent's new settings object produces. *)
Definition withSettings (s : TimerSettings) (lu : option Z) (id : nat) (r : Render)
  : Render :=
  mkRender (timerMode r) s id lu (allTimers r) (timeRemaining r).

(** Default durations: 25, 5 and 15 minutes, a long break every fourth
    pomodoro; the same with a 30 minute and with a one minute pomodoro. *)
Definition settings25 : TimerSettings := mkTimerSettings (mkByType 25 5 15) 4.
Definition settings30 : TimerSettings := mkTimerSettings (mkByType 30 5 15) 4.
Definition settings1 : TimerSettings := mkTimerSettings (mkByType 1 5 15) 4.

(** The page opened for the first time at clock [2000000], with settings
    last edited at [1500000]. *)
Definition opened (s : TimerSettings) : Render * World :=
  mount Pomodoro s (Some 1500000) (freshWorld None 2000000).

(** A record stored while the focus timer was running since [2000000]. *)
Definition storedRunning : AllTimerStates :=
  mkAllTimerStates
    (mkByType (mkTimerState (Some 2000000) 1500 0 true)
              (createDefaultTimerState 300) (createDefaultTimerState 900))
    Pomodoro 0.

End HookScenario.

(** ** src/utils/dataUtils.ts: export and import of the user's data

    [localStorage] is a map from keys to what [getItem] followed by
    [JSON.parse] gives; the exported text is represented, like every JSON
    text, by the value [JSON.parse] produces for it. *)

Module DataUtils.
Import Js.

Definition Storage : Type := string -> item.

Definition getItem (key : string) (st : Storage) : item := st key.

Definition setItem (key : string) (x : item) (st : Storage) : Storage :=
  fun k => if String.eqb k key then x else st k.

(** [Object.values(STORAGE_KEYS)] *)
Definition STORAGE_KEYS : list string :=
  [ "pomoSpaceTimerState"; "pomoSpaceSettings"; "pomoSpaceTasks";
    "pomoSpaceTaskHistory"; "pomoSpaceActiveTask" ].

(** [Object.values(STORAGE_KEYS).includes(key)] *)
Definition isStorageKey (key : string) : bool :=
  existsb (String.eqb key) STORAGE_KEYS.

(** [exportUserData]: a key is exported when it holds a string that is not
    empty and that [JSON.parse] accepts; the [SyntaxError] of any other is
    caught key by key. *)
Definition exportUserData (exportDate : string) (st : Storage) : value :=
  let data :=
    fold_left (fun data key =>
                 match getItem key st with
                 | Json v => update key v data
                 | Absent | Unparsable => data
                 end)
              STORAGE_KEYS [] in
  LocalStorageUtils.stringified
    (VObj [ ("version", VStr "1.0"); ("exportDate", VStr exportDate);
            ("data", VObj data) ]).

(** What [setItem(key, JSON.stringify(value))] stores: [JSON.stringify]
    returns [undefined] for [undefined], which is stored as the text
    'undefined'. *)
Definition stringify (v : value) : item :=
  match v with
  | VUndef => Unparsable
  | _ => Json (LocalStorageUtils.stringified v)
  end.

(** The entries of a string are its characters, keyed by their indices. *)
Fixpoint characters (i : nat) (s : string) : list (string * value) :=
  match s with
  | EmptyString => []
  | String c rest =>
      (PomodoroTimer.toString (Z.of_nat i), VStr (String c EmptyString))
        :: characters (S i) rest
  end.

(** [Object.entries(v)]: every own key once, with the value a read of the
    key gives. The order of the keys plays no role below: different keys
    are written to different items. *)
Definition entries (v : value) : throws (list (string * value)) :=
  match v with
  | VUndef | VNull => None
  | VObj fs => Some (map (fun k => (k, lookup k fs)) (nodup string_dec (map fst fs)))
  | VStr s => Some (characters 0 s)
  | VBool _ | VNum _ => Some []
  end.

(** The body of the [try] block of [importUserData]; [jsonData] is the
    result of [JSON.parse(jsonData)]. *)
Definition importUserData_body (jsonData : throws value) (st : Storage)
  : throws Storage :=
  userData <- jsonData ;;
  version <- getProp userData "version" ;;
  if negb (truthy version) then None else
  data <- getProp userData "data" ;;
  if negb (truthy data) then None else
  es <- entries data ;;
  Some (fold_left (fun st kv =>
                     if isStorageKey (fst kv)
                     then setItem (fst kv) (stringify (snd kv)) st
                     else st)
                  es st).

(** [importUserData]: the result and the store afterwards. Nothing after
    the validation throws as long as the store has room, so a failed
    import has written nothing. *)
Definition importUserData (jsonData : throws value) (st : Storage)
  : bool * Storage :=
  match importUserData_body jsonData st with
  | Some st' => (true, st')
  | None => (false, st)
  end.

(** *** Definitions used to state the properties of export and import *)

(** A value [JSON.parse] can return: no member is [undefined]. *)
Fixpoint parsed (v : value) : bool :=
  match v with
  | VUndef => false
  | VObj fs =>
      (fix all (fs : list (string * value)) : bool :=
         match fs with
         | [] => true
         | (_, x) :: rest => parsed x && all rest
         end) fs
  | _ => true
  end.

(** The object has an own property [k]. *)
Definition hasKey (k : string) (v : value) : bool :=
  match v with
  | VObj fs => existsb (String.eqb k) (map fst fs)
  | _ => false
  end.

(** The members [JSON.stringify] keeps. *)
Definition members (fs : list (string * value)) : list (string * value) :=
  flat_map (fun kv => match snd kv with
                      | VUndef => []
                      | x => [(fst kv, LocalStorageUtils.stringified x)]
                      end) fs.


(** Whether [importUserData] accepts the parsed text. *)
Definition accepted (jsonData : throws value) : bool :=
  match jsonData with
  | Some userData =>
      truthy (getPropOpt userData "version") && truthy (getPropOpt userData "data")
  | None => false
  end.


(** What [exportUserData] puts into [data] for a key. *)
Definition exportedOf (st : Storage) (key : string) : list (string * value) :=
  match st key with
  | Json v =>
      match v with
      | VUndef => []
      | _ => [(key, LocalStorageUtils.stringified v)]
      end
  | Absent | Unparsable => []
  end.

(** A backup: a text with another version number, one known key and one
    unknown key. *)
Definition backup : value :=
  VObj [ ("version", VNum 2);
         ("data", VObj [ ("pomoSpaceTasks", VObj []); ("theme", VStr "dark") ]) ].

(** A store with settings, a damaged timer record and nothing else. *)
Definition someStorage : Storage :=
  fun k =>
    if String.eqb k "pomoSpaceSettings" then Json (VObj [("darkMode", VBool true)])
    else if String.eqb k "pomoSpaceTimerState" then Unparsable
    else Absent.

(** *** The task history as CSV *)

Definition quoteChar : Ascii.ascii := Ascii.ascii_of_nat 34.
Definition commaChar : Ascii.ascii := Ascii.ascii_of_nat 44.
Definition newlineChar : Ascii.ascii := Ascii.ascii_of_nat 10.

(** What [getItem] followed by [JSON.parse] gives for a key that holds a
    list the application wrote: [Missing] when [getItem] returns [null] or
    the empty string, [Damaged] when [JSON.parse] throws. *)
Inductive saved (A : Type) : Type :=
| Missing
| Damaged
| Held (x : A).
Arguments Missing {A}.
Arguments Damaged {A}.
Arguments Held {A}.

(** An entry of the task history, as [TaskList] and [App] write it. *)
Record TaskHistoryItem : Type := mkTaskHistoryItem {
  entryId : string;
  taskId : string;
  taskName : string;
  date : string;
  minutes : Z;
  category : option string
}.

(** [s || d] for a string that may be missing, and [n || 0] *)
Definition stringOr (s : option string) (d : string) : string :=
  match s with
  | Some s => if String.eqb s "" then d else s
  | None => d
  end.

Definition numberOr0 (n : Z) : Z := if n =? 0 then 0 else n.

(** The [replace] of the export: every quote becomes two quotes. *)
Fixpoint doubleQuotes (s : string) : string :=
  match s with
  | EmptyString => EmptyString
  | String c rest =>
      if Ascii.eqb c quoteChar
      then String quoteChar (String quoteChar (doubleQuotes rest))
      else String c (doubleQuotes rest)
  end.

(** The template that puts the escaped text between two quotes. *)
Definition quoted (s : string) : string :=
  String quoteChar (doubleQuotes s ++ String quoteChar EmptyString).

(** [l.join(sep)] *)
Fixpoint join (sep : string) (l : list string) : string :=
  match l with
  | [] => ""
  | x :: rest =>
      match rest with
      | [] => x
      | _ :: _ => x ++ sep ++ join sep rest
      end
  end.

(** [taskPomodoroMap]: the tasks are [(id, completedPomodoros)]; a later
    task with the same id replaces an earlier one. *)
Definition taskPomodoroMap (tasks : list (string * option Z)) : list (string * Z) :=
  fold_left (fun m task =>
               match snd task with
               | Some completedPomodoros =>
                   if negb (String.eqb (fst task) "")
                   then (fst task, completedPomodoros) :: m
                   else m
               | None => m
               end)
            tasks [].

(** [taskPomodoroMap.get(id) || 0] *)
Definition completedPomodorosOf (m : list (string * Z)) (id : string) : Z :=
  match find (fun e => String.eqb (fst e) id) m with
  | Some e => numberOr0 (snd e)
  | None => 0
  end.

Definition headers : list string :=
  [ "Date"; "Task"; "Category"; "Minutes"; "Completed Pomodoros" ].

(** The members of [formattedRow], each as [join] renders it. *)
Definition formattedRow (m : list (string * Z)) (entry : TaskHistoryItem)
  : list string :=
  [ stringOr (Some (date entry)) "";
    quoted (stringOr (Some (taskName entry)) "");
    quoted (stringOr (category entry) "Uncategorized");
    PomodoroTimer.toString (numberOr0 (minutes entry));
    PomodoroTimer.toString (completedPomodorosOf m (taskId entry)) ].

Definition exportTaskHistoryAsCSV (savedHistory : saved (list TaskHistoryItem))
  (savedTasks : saved (list (string * option Z))) : string :=
  match savedHistory with
  | Missing | Damaged => ""
  | Held taskHistory =>
      match savedTasks with
      | Damaged => ""
      | Missing | Held _ =>
          let tasks := match savedTasks with Held tasks => tasks | _ => [] end in
          let m := taskPomodoroMap tasks in
          let csvRows :=
            (join "," headers
               :: map (fun entry => join "," (formattedRow m entry)) taskHistory)%list in
          join (String newlineChar EmptyString) csvRows
      end
  end.

(** *** A reader of CSV text

    Records end at a line feed, fields at a comma; a field that starts
    with a quote runs to the next quote that is not doubled, and a doubled
    quote inside it stands for one quote. [None] is text that is not CSV. *)
Inductive CsvMode : Type := Plain | InQuotes | AfterQuote.

Fixpoint readCsv (s : string) (mode : CsvMode) (field : string)
  (fields : list string) (records : list (list string))
  : option (list (list string)) :=
  match s with
  | EmptyString =>
      match mode with
      | InQuotes => None
      | Plain | AfterQuote => Some (rev (rev (field :: fields) :: records))
      end
  | String c rest =>
      match mode with
      | InQuotes =>
          if Ascii.eqb c quoteChar then readCsv rest AfterQuote field fields records
          else readCsv rest InQuotes (field ++ String c EmptyString) fields records
      | AfterQuote =>
          if Ascii.eqb c quoteChar
          then readCsv rest InQuotes (field ++ String c EmptyString) fields records
          else if Ascii.eqb c commaChar
          then readCsv rest Plain "" (field :: fields) records
          else if Ascii.eqb c newlineChar
          then readCsv rest Plain "" [] (rev (field :: fields) :: records)
          else None
      | Plain =>
          if Ascii.eqb c commaChar
          then readCsv rest Plain "" (field :: fields) records
          else if Ascii.eqb c newlineChar
          then readCsv rest Plain "" [] (rev (field :: fields) :: records)
          else if Ascii.eqb c quoteChar
          then match field with
               | EmptyString => readCsv rest InQuotes "" fields records
               | String _ _ => None
               end
          else readCsv rest Plain (field ++ String c EmptyString) fields records
      end
  end.

(** The text holds no comma, quote or line feed. *)
Fixpoint plainText (s : string) : bool :=
  match s with
  | EmptyString => true
  | String c rest =>
      negb (Ascii.eqb c commaChar) && negb (Ascii.eqb c newlineChar)
      && negb (Ascii.eqb c quoteChar) && plainText rest
  end.

(** The fields of the record the export writes for an entry. *)
Definition recordOf (m : list (string * Z)) (entry : TaskHistoryItem)
  : list string :=
  [ date entry; taskName entry; stringOr (category entry) "Uncategorized";
    PomodoroTimer.toString (minutes entry);
    PomodoroTimer.toString (completedPomodorosOf m (taskId entry)) ].

(** A task name with a comma, a quote and a line feed in it. *)
Definition awkwardEntry : TaskHistoryItem :=
  mkTaskHistoryItem "1715644800000" "1715640000000"
    ("a" ++ String commaChar (String quoteChar (String newlineChar "b")))
    "2024-05-14" 25 None.

(** A line of the export and the record it reads as. *)
Definition readsAs (text : string) (record : list string) : Prop :=
  exists last init,
    record = rev (last :: init)
    /\ forall rest records,
         readCsv (text ++ rest) Plain "" [] records
         = readCsv rest Plain last init records.

End DataUtils.

(** ** src/components/TaskList.tsx: the task list

    The state of the component, the [activeTaskId] of its parent, and the
    handlers behind its buttons. A string is blank when [trim] leaves
    nothing of it. *)

Module TaskList.

Inductive Priority : Type := Low | Medium | High.

(** [TaskItem] *)
Module Task.
Record t : Type := mk {
  id : string;
  text : string;
  completed : bool;
  estimatedPomodoros : Z;
  completedPomodoros : Z;
  category : option string;
  priority : option Priority
}.
End Task.

Record State : Type := mkState {
  tasks : list Task.t;
  taskHistory : list DataUtils.TaskHistoryItem;
  activeTaskId : option string;          (* prop of the component *)
  newTaskText : string;
  estimatedPomodoros : Z;
  selectedCategory : string;
  selectedPriority : Priority;
  editingTask : option string;
  showCategorySelect : bool;
  showPrioritySelect : bool
}.

(** The white space [trim] removes, among the characters below 256. *)
Definition isWhiteSpace (c : Ascii.ascii) : bool :=
  let n := Ascii.nat_of_ascii c in
  ((9 <=? n)%nat && (n <=? 13)%nat) || Nat.eqb n 32 || Nat.eqb n 160.

(** [s.trim() === ''] *)
Fixpoint blank (s : string) : bool :=
  match s with
  | EmptyString => true
  | String c rest => isWhiteSpace c && blank rest
  end.

(** [addTask]; [now] is [Date.now()]. *)
Definition addTask (now : Z) (s : State) : State :=
  if blank (newTaskText s) then s else
  let newTask :=
    Task.mk (PomodoroTimer.toString now) (newTaskText s) false
            (estimatedPomodoros s) 0 (Some (selectedCategory s))
            (Some (selectedPriority s)) in
  mkState (tasks s ++ [newTask]) (taskHistory s) (activeTaskId s)
          "" 1 (selectedCategory s) (selectedPriority s) (editingTask s)
          false false.

Definition isTask (id : string) (task : Task.t) : bool :=
  String.eqb (Task.id task) id.

Definition isActiveTask (id : string) (s : State) : bool :=
  match activeTaskId s with
  | Some a => String.eqb id a
  | None => false
  end.

Definition setTasks (x : list Task.t) (s : State) : State :=
  mkState x (taskHistory s) (activeTaskId s) (newTaskText s)
          (estimatedPomodoros s) (selectedCategory s) (selectedPriority s)
          (editingTask s) (showCategorySelect s) (showPrioritySelect s).

Definition setActiveTaskId (x : option string) (s : State) : State :=
  mkState (tasks s) (taskHistory s) x (newTaskText s)
          (estimatedPomodoros s) (selectedCategory s) (selectedPriority s)
          (editingTask s) (showCategorySelect s) (showPrioritySelect s).

Definition toggleTaskCompletion (id : string) (s : State) : State :=
  let toggled :=
    map (fun task =>
           if isTask id task
           then Task.mk (Task.id task) (Task.text task) (negb (Task.completed task))
                        (Task.estimatedPomodoros task) (Task.completedPomodoros task)
                        (Task.category task) (Task.priority task)
           else task)
        (tasks s) in
  let s' := setTasks toggled s in
  if isActiveTask id s then
    match find (isTask id) (tasks s) with
    | Some task => if negb (Task.completed task) then setActiveTaskId None s' else s'
    | None => s'
    end
  else s'.

Definition deleteTask (id : string) (s : State) : State :=
  let s' := if isActiveTask id s then setActiveTaskId None s else s in
  setTasks (filter (fun task => negb (isTask id task)) (tasks s)) s'.

(** [x || y] for the optional members of a task *)
Definition categoryOr (x y : option string) : option string :=
  match x with
  | Some c => if String.eqb c "" then y else x
  | None => y
  end.

Definition priorityOr (x y : option Priority) : option Priority :=
  match x with
  | Some _ => x
  | None => y
  end.

Definition updateTask (id : string) (text : string) (estimatedPomodoros : Z)
  (category : option string) (priority : option Priority) (s : State) : State :=
  let updated :=
    map (fun task =>
           if isTask id task
           then Task.mk (Task.id task) text (Task.completed task)
                        estimatedPomodoros (Task.completedPomodoros task)
                        (categoryOr category (Task.category task))
                        (priorityOr priority (Task.priority task))
           else task)
        (tasks s) in
  let s' := setTasks updated s in
  mkState (tasks s') (taskHistory s') (activeTaskId s') (newTaskText s')
          (TaskList.estimatedPomodoros s') (selectedCategory s')
          (selectedPriority s') None (showCategorySelect s')
          (showPrioritySelect s').

(** [addTaskToHistory]; [today] is the date part of
    [new Date().toISOString()]. *)
Definition addTaskToHistory (now : Z) (today : string) (taskId taskName : string)
  (minutes : Z) (category : option string) (s : State) : State :=
  let newHistoryItem :=
    DataUtils.mkTaskHistoryItem (PomodoroTimer.toString now) taskId taskName
                                today minutes category in
  mkState (tasks s) (taskHistory s ++ [newHistoryItem]) (activeTaskId s)
          (newTaskText s) (estimatedPomodoros s) (selectedCategory s)
          (selectedPriority s) (editingTask s) (showCategorySelect s)
          (showPrioritySelect s).

Definition incrementPomodoro (now : Z) (today : string) (id : string) (s : State)
  : State :=
  match find (isTask id) (tasks s) with
  | Some task =>
      let s' := addTaskToHistory now today id (Task.text task) 25
                                 (Task.category task) s in
      setTasks
        (map (fun task =>
                if isTask id task
                then Task.mk (Task.id task) (Task.text task) (Task.completed task)
                             (Task.estimatedPomodoros task)
                             (Task.completedPomodoros task + 1)
                             (Task.category task) (Task.priority task)
                else task)
             (tasks s))
        s'
  | None => s
  end.

Definition setTaskActive (id : string) (s : State) : State :=
  setActiveTaskId (if isActiveTask id s then None else Some id) s.

(** The input field of the new task *)
Definition setNewTaskText (x : string) (s : State) : State :=
  mkState (tasks s) (taskHistory s) (activeTaskId s) x
          (estimatedPomodoros s) (selectedCategory s) (selectedPriority s)
          (editingTask s) (showCategorySelect s) (showPrioritySelect s).

Inductive Event : Type :=
| TypeText (text : string)
| AddTask (now : Z)
| ToggleTaskCompletion (id : string)
| DeleteTask (id : string)
| UpdateTask (id : string) (text : string) (estimatedPomodoros : Z)
             (category : option string) (priority : option Priority)
| IncrementPomodoro (now : Z) (today : string) (id : string)
| SetTaskActive (id : string).

Definition step (s : State) (e : Event) : State :=
  match e with
  | TypeText text => setNewTaskText text s
  | AddTask now => addTask now s
  | ToggleTaskCompletion id => toggleTaskCompletion id s
  | DeleteTask id => deleteTask id s
  | UpdateTask id text n category priority => updateTask id text n category priority s
  | IncrementPomodoro now today id => incrementPomodoro now today id s
  | SetTaskActive id => setTaskActive id s
  end.

Definition run (es : list Event) (s : State) : State := fold_left step es s.

(** *** Definitions used to state the properties *)

(** The buttons of a task belong to a task of the list, and the button
    that selects the active task is rendered for tasks that are not
    completed only. *)
Definition offered (s : State) (e : Event) : Prop :=
  match e with
  | TypeText _ | AddTask _ => True
  | ToggleTaskCompletion id | DeleteTask id | UpdateTask id _ _ _ _
  | IncrementPomodoro _ _ id =>
      exists task, In task (tasks s) /\ Task.id task = id
  | SetTaskActive id =>
      exists task, In task (tasks s) /\ Task.id task = id
                   /\ Task.completed task = false
  end.

Fixpoint offeredAll (s : State) (es : list Event) : Prop :=
  match es with
  | [] => True
  | e :: rest => offered s e /\ offeredAll (step s e) rest
  end.

(** The active task, if there is one, is a task of the list that is not
    completed. *)
Definition ActiveIsOpen (s : State) : Prop :=
  match activeTaskId s with
  | Some id => exists task, In task (tasks s) /\ Task.id task = id
                            /\ Task.completed task = false
  | None => True
  end.

(** Every id is the reading of a clock before [bound], and no two tasks
    share one. *)
Definition DistinctIds (bound : Z) (s : State) : Prop :=
  NoDup (map Task.id (tasks s))
  /\ forall task, In task (tasks s) ->
       exists n, 0 <= n < bound /\ Task.id task = PomodoroTimer.toString n.

(** Every [AddTask] reads a clock that has moved on since the last one. *)
Fixpoint laterEachTime (bound : Z) (es : list Event) : Prop :=
  match es with
  | [] => True
  | AddTask now :: rest => bound <= now /\ laterEachTime (now + 1) rest
  | _ :: rest => laterEachTime bound rest
  end.

(** A list with one open task, which is the active one. *)
Definition oneTask : State :=
  mkState [Task.mk "1715640000000" "write" false 2 0 (Some "Work") (Some High)]
          [] (Some "1715640000000") "" 1 "Work" Medium None false false.

End TaskList.

(** ** The two test timers and the repeated alarm

    [SimpleTimer] (at the end of TaskList.tsx) counts down with an effect
    that depends on both of its state variables; [BasicTimer] keeps its
    interval in a ref; [playWithRepeat] of soundUtils.ts plays an audio
    element a number of times. *)

Module SimpleTimer.

Record Render : Type := mkRender {
  seconds : Z;
  isActive : bool
}.

(** The effect, after the cleanup of its last run has cleared the
    interval that run had set: the pending state and whether an interval
    is live. *)
Definition effect (r : Render) (p : Render) : Render * bool :=
  if isActive r && (seconds r >? 0) then (p, true)
  else if seconds r =? 0 then (mkRender (seconds p) false, false)
  else (p, false).

(** Both state variables are dependencies of the effect: it runs after
    every render that changed anything. *)
Definition sameRender (a b : Render) : bool :=
  (seconds a =? seconds b) && Bool.eqb (isActive a) (isActive b).

Fixpoint settle (fuel : nat) (cur next : Render) (interval : bool)
  : Render * bool :=
  match fuel with
  | O => (next, interval)
  | S fuel' =>
      if sameRender cur next then (cur, interval)
      else
        let '(p, interval) := effect next next in
        settle fuel' next p interval
  end.

Definition fuel : nat := 4.

Definition mount : Render * bool :=
  let r := mkRender 300 false in
  let '(p, interval) := effect r r in
  settle fuel r p interval.

Definition toggleTimer (c : Render * bool) : Render * bool :=
  let '(r, interval) := c in
  settle fuel r (mkRender (seconds r) (negb (isActive r))) interval.

Definition resetTimer (c : Render * bool) : Render * bool :=
  let '(r, interval) := c in
  settle fuel r (mkRender 300 false) interval.

(** The interval fires: [setSeconds(prevSeconds => prevSeconds - 1)]. *)
Definition tick (c : Render * bool) : Render * bool :=
  let '(r, interval) := c in
  if interval then settle fuel r (mkRender (seconds r - 1) (isActive r)) interval
  else c.

Fixpoint ticks (n : nat) (c : Render * bool) : Render * bool :=
  match n with
  | O => c
  | S k => ticks k (tick c)
  end.

End SimpleTimer.

Module BasicTimer.

Record State : Type := mkState {
  count : Z;
  isRunning : bool;
  intervalRef : bool          (* whether [intervalRef.current] holds an interval *)
}.

Definition stopTimer (s : State) : State :=
  if negb (intervalRef s) then s
  else mkState (count s) false false.

Definition startTimer (s : State) : State :=
  if intervalRef s then s
  else mkState (count s) true true.

Definition resetTimer (s : State) : State :=
  let s := stopTimer s in
  mkState 60 (isRunning s) (intervalRef s).

Definition toggleTimer (s : State) : State :=
  if isRunning s then stopTimer s else startTimer s.

(** The interval fires: the updater passed to [setCount], which stops the
    timer itself when it reaches the end. *)
Definition tick (s : State) : State :=
  if negb (intervalRef s) then s
  else if count s <=? 1 then
    let s := stopTimer s in
    mkState 0 (isRunning s) (intervalRef s)
  else mkState (count s - 1) (isRunning s) (intervalRef s).

Fixpoint ticks (n : nat) (s : State) : State :=
  match n with
  | O => s
  | S k => ticks k (tick s)
  end.

End BasicTimer.

Module SoundUtils.

(** What [playWithRepeat] has done so far: the calls of [audio.play()],
    the counter [played], whether its listener for 'ended' is registered,
    and how the promise was settled ([Some true]: resolved). *)
Record Playback : Type := mkPlayback {
  plays : nat;
  played : Z;
  listening : bool;
  settled : option bool
}.

(** A promise is settled once. *)
Definition settle (how : bool) (p : Playback) : Playback :=
  mkPlayback (plays p) (played p) (listening p)
             (match settled p with Some x => Some x | None => Some how end).

(** The call itself; [hasSrc] is whether [audio.src] is set. *)
Definition playWithRepeat (hasSrc : bool) (repeatCount : Z) : Playback :=
  if (repeatCount <=? 0) || negb hasSrc
  then mkPlayback 0 0 false (Some true)
  else mkPlayback 1 0 true None.

(** The audio element fires 'ended': [playNextRepeat]. *)
Definition ended (repeatCount : Z) (p : Playback) : Playback :=
  if negb (listening p) then p
  else
    let played := played p + 1 in
    if played >=? repeatCount
    then settle true (mkPlayback (plays p) played false (settled p))
    else mkPlayback (S (plays p)) played true (settled p).

(** The promise of a call of [audio.play()] is rejected: the first call
    also removes the listener. *)
Definition playRejected (first : bool) (p : Playback) : Playback :=
  if first then settle false (mkPlayback (plays p) (played p) false (settled p))
  else settle false p.

Fixpoint endedTimes (n : nat) (repeatCount : Z) (p : Playback) : Playback :=
  match n with
  | O => p
  | S k => endedTimes k repeatCount (ended repeatCount p)
  end.

End SoundUtils.

(** ** Facts about objects *)

Section ObjectFacts.
Import Js.

Lemma lookup_update_same (k : string) (x : value) (fs : list (string * value)) :
  lookup k (update k x fs) = x.
Proof.
  induction fs as [|[k' v] rest IH]; simpl.
  - now rewrite String.eqb_refl.
  - destruct (String.eqb k k') eqn:E; simpl; rewrite E; auto.
Qed.

Lemma lookup_update_other (k k' : string) (x : value) (fs : list (string * value)) :
  String.eqb k' k = false -> lookup k' (update k x fs) = lookup k' fs.
Proof.
  intros Hne. induction fs as [|[k0 v] rest IH]; simpl.
  - now rewrite Hne.
  - destruct (String.eqb k k0) eqn:E; simpl.
    + apply String.eqb_eq in E. subst k0. now rewrite Hne.
    + destruct (String.eqb k' k0); auto.
Qed.

Lemma getPropOpt_setProp_same (v v' x : value) (k : string) :
  setProp v k x = Some v' -> getPropOpt v' k = x.
Proof.
  destruct v; simpl; try discriminate. intros [= <-]. simpl.
  apply lookup_update_same.
Qed.

Lemma getPropOpt_setProp_other (v v' x : value) (k k' : string) :
  setProp v k x = Some v' -> String.eqb k' k = false ->
  getPropOpt v' k' = getPropOpt v k'.
Proof.
  destruct v; simpl; try discriminate. intros [= <-] Hne. simpl.
  now apply lookup_update_other.
Qed.

Lemma getProp_Some (v r : value) (k : string) :
  getProp v k = Some r -> r = getPropOpt v k.
Proof. destruct v; simpl; intros [= <-]; reflexivity || discriminate. Qed.

End ObjectFacts.

(** ** The loaders of localStorageUtils.ts *)

Section LoaderFacts.
Import Js LocalStorageUtils Props.

Lemma forceInactive_spec (ts ts' : value) (k : string) (c : Z) :
  forceInactive ts k c = Some ts' ->
  (forall k', String.eqb k' k = false -> getPropOpt ts' k' = getPropOpt ts k')
  /\ (truthy (getPropOpt (getPropOpt ts' k) "isActive") = false ->
      getPropOpt (getPropOpt ts' k) "timeRemaining" = VNum c)
  /\ (exists fs, getPropOpt ts' k = VObj fs).
Proof.
  unfold forceInactive, bind.
  destruct (getProp ts k) as [slot|] eqn:Hslot; [|discriminate].
  destruct (getProp slot "isActive") as [active|] eqn:Hact; [|discriminate].
  apply getProp_Some in Hslot. apply getProp_Some in Hact.
  destruct (truthy active) eqn:Ht; simpl.
  - intros [= <-]. split; [reflexivity|]. split.
    + rewrite <- Hslot, <- Hact, Ht. discriminate.
    + rewrite <- Hslot. subst active.
      destruct slot; simpl in Ht; try discriminate. eauto.
  - destruct (setProp slot "timeRemaining" (VNum c)) as [slot'|] eqn:Hs1;
      [|discriminate].
    intros Hs2. split; [|split].
    + intros k' Hne. eapply getPropOpt_setProp_other; eauto.
    + intros _. rewrite (getPropOpt_setProp_same _ _ _ _ Hs2).
      eapply getPropOpt_setProp_same; eauto.
    + rewrite (getPropOpt_setProp_same _ _ _ _ Hs2).
      destruct slot; simpl in Hs1; try discriminate.
      injection Hs1 as <-. eauto.
Qed.

Lemma fresh_slot (settings : Settings) (kind : string) :
  isKind kind = true ->
  getPropOpt (getPropOpt (freshTimerStates settings) kind) "timeRemaining"
  = VNum (fullDuration settings kind).
Proof.
  unfold isKind, fullDuration, freshTimerStates. simpl.
  destruct (String.eqb kind "pomodoro") eqn:E1.
  - apply String.eqb_eq in E1. subst. reflexivity.
  - destruct (String.eqb kind "shortBreak") eqn:E2.
    + reflexivity.
    + destruct (String.eqb kind "longBreak") eqn:E3; [reflexivity|discriminate].
Qed.

Lemma createFresh_slot (mode : string) (settings : Settings) (kind : string) :
  isKind kind = true ->
  getPropOpt (slotOf (createFreshTimerState mode settings) kind) "timeRemaining"
  = VNum (fullDuration settings kind).
Proof. intros H. unfold slotOf, createFreshTimerState. simpl. now apply fresh_slot. Qed.

Lemma getTimerState_body_slot (mode : string) (settings : Settings)
  (parsed result : value) (kind : string) :
  getTimerState_body mode settings (Json parsed) = Some result ->
  isKind kind = true ->
  truthy (getPropOpt (slotOf result kind) "isActive") = false ->
  getPropOpt (slotOf result kind) "timeRemaining"
  = VNum (fullDuration settings kind).
Proof.
  unfold getTimerState_body, bind.
  match goal with
  | |- match ?m with _ => _ end = _ -> _ => destruct m as [parsed1|] eqn:H1
  end; [|discriminate].
  destruct (getProp parsed1 "timerStates") as [ts|] eqn:Hts; [|discriminate].
  destruct (truthy ts) eqn:Htruthy; simpl.
  - destruct (forceInactive ts "pomodoro" _) as [ts1|] eqn:F1; [|discriminate].
    destruct (forceInactive ts1 "shortBreak" _) as [ts2|] eqn:F2; [|discriminate].
    destruct (forceInactive ts2 "longBreak" _) as [ts3|] eqn:F3; [|discriminate].
    intros Hset Hkind. unfold slotOf.
    rewrite (getPropOpt_setProp_same _ _ _ _ Hset).
    apply forceInactive_spec in F1 as (_ & P1 & _).
    apply forceInactive_spec in F2 as (O2 & P2 & _).
    apply forceInactive_spec in F3 as (O3 & P3 & _).
    unfold isKind in Hkind. unfold fullDuration.
    destruct (String.eqb kind "pomodoro") eqn:E1.
    + apply String.eqb_eq in E1. subst kind. simpl.
      rewrite (O3 "pomodoro" eq_refl), (O2 "pomodoro" eq_refl). exact P1.
    + destruct (String.eqb kind "shortBreak") eqn:E2.
      * apply String.eqb_eq in E2. subst kind.
        rewrite (O3 "shortBreak" eq_refl). exact P2.
      * destruct (String.eqb kind "longBreak") eqn:E3; [|discriminate].
        apply String.eqb_eq in E3. subst kind. exact P3.
  - intros Hset Hkind _. unfold slotOf.
    rewrite (getPropOpt_setProp_same _ _ _ _ Hset). now apply fresh_slot.
Qed.

(** C9. Whatever is stored under the timer key and whatever the settings
    are, every slot of the state [getTimerState] returns whose [isActive]
    flag is not set has [timeRemaining] equal to the full configured
    duration of its kind (minutes times 60): stored progress of a paused
    slot does not survive this loader. *)
Theorem C9_inactive_slots_reset_to_full_duration
  (currentMode : string) (settings : Settings) (stored : item) (kind : string) :
  isKind kind = true ->
  truthy (getPropOpt (slotOf (getTimerState currentMode settings stored) kind)
                     "isActive") = false ->
  getPropOpt (slotOf (getTimerState currentMode settings stored) kind)
             "timeRemaining"
  = VNum (fullDuration settings kind).
Proof.
  intros Hkind. unfold getTimerState.
  destruct stored as [| |parsed].
  - simpl. intros _. now apply createFresh_slot.
  - simpl. intros _. now apply createFresh_slot.
  - destruct (getTimerState_body currentMode settings (Json parsed))
      as [result|] eqn:Hbody; simpl.
    + now apply (getTimerState_body_slot _ _ _ _ _ Hbody).
    + intros _. now apply createFresh_slot.
Qed.

(** A paused focus slot stored with 1193 of 1500 seconds left comes back at
    1500. *)
Lemma C9_witness :
  let stored :=
    Json (VObj [ ("timeRemaining", VNum 1193); ("isActive", VBool false);
                 ("completedPomodoros", VNum 0); ("timerMode", VStr "pomodoro");
                 ("timerStates",
                  VObj [ ("pomodoro", VObj [ ("timeRemaining", VNum 1193);
                                             ("isActive", VBool false) ]);
                         ("shortBreak", VObj [ ("timeRemaining", VNum 300);
                                               ("isActive", VBool false) ]);
                         ("longBreak", VObj [ ("timeRemaining", VNum 900);
                                              ("isActive", VBool false) ]) ]) ]) in
  getPropOpt (slotOf (getTimerState "pomodoro" (mkSettings 25 5 15 4) stored)
                     "pomodoro") "timeRemaining"
  = VNum 1500.
Proof.
  intro stored.
  apply (C9_inactive_slots_reset_to_full_duration
           "pomodoro" (mkSettings 25 5 15 4) stored "pomodoro");
    reflexivity.
Defined.

End LoaderFacts.

(** ** fixHardcodedPomodoroTime *)

Section FixFacts.
Import Js LocalStorageUtils Props.

Lemma fixSlot_obj (fs : list (string * value)) (b : bool) :
  exists fs',
    fixSlot (VObj fs, b) = Some (VObj fs', slotIs900 (VObj fs) || b)
    /\ (slotIs900 (VObj fs) = false -> fs' = fs)
    /\ (forall k, String.eqb k "timerStates" = false -> lookup k fs' = lookup k fs)
    /\ (forall kind, String.eqb kind "pomodoro" = false ->
        slotOf (VObj fs') kind = slotOf (VObj fs) kind)
    /\ (forall f, String.eqb f "timeRemaining" = false ->
        getPropOpt (slotOf (VObj fs') "pomodoro") f
        = getPropOpt (slotOf (VObj fs) "pomodoro") f)
    /\ getPropOpt (slotOf (VObj fs') "pomodoro") "timeRemaining"
       = if slotIs900 (VObj fs) then VNum 1500
         else getPropOpt (slotOf (VObj fs) "pomodoro") "timeRemaining".
Proof.
  unfold fixSlot, pomodoroSlotRemaining, slotIs900, slotOf, bind. simpl.
  destruct (lookup "timerStates" fs) as [| |?|?|?|tsfs] eqn:Hts; simpl;
    try (exists fs; rewrite Hts; simpl; repeat split; auto; fail).
  destruct (lookup "pomodoro" tsfs) as [| |?|?|?|sfs] eqn:Hslot; simpl;
    try (exists fs; rewrite Hts; simpl; rewrite Hslot; simpl;
         repeat split; auto; fail).
  destruct (isNum (lookup "timeRemaining" sfs) 900) eqn:Hhit; simpl.
  - eexists. split; [reflexivity|].
    split; [discriminate|].
    split; [intros k Hk; now apply lookup_update_other|].
    rewrite !lookup_update_same. simpl.
    split; [intros kind Hk; now apply lookup_update_other|].
    rewrite !lookup_update_same. simpl.
    split; [intros f Hf; now apply lookup_update_other|].
    apply lookup_update_same.
  - exists fs. rewrite Hts. simpl. rewrite Hslot. simpl. repeat split; auto.
Qed.

Lemma fixField_obj (field : string) (fs : list (string * value)) (b : bool) :
  String.eqb "timerMode" field = false ->
  let hit := isStr (lookup "timerMode" fs) "pomodoro"
             && isNum (lookup field fs) 900 in
  exists fs',
    fixField field (VObj fs, b) = Some (VObj fs', hit || b)
    /\ (hit = false -> fs' = fs)
    /\ (forall k, String.eqb k field = false -> lookup k fs' = lookup k fs)
    /\ lookup field fs' = if hit then VNum 1500 else lookup field fs.
Proof.
  intros Hfield hit. subst hit. unfold fixField, bind. simpl.
  destruct (isStr (lookup "timerMode" fs) "pomodoro"); simpl.
  - destruct (isNum (lookup field fs) 900); simpl.
    + eexists. split; [reflexivity|]. split; [discriminate|].
      split; [intros k Hk; now apply lookup_update_other|].
      apply lookup_update_same.
    + exists fs. repeat split; auto.
  - exists fs. repeat split; auto.
Qed.

(** What [fixHardcodedPomodoroTime] does to a parsed record [v]. *)
Lemma fix_json (v : value) :
  exists v',
    fixHardcodedPomodoroTime (Json v)
    = (slotIs900 v || mainIs900 v || originalIs900 v, Json v')
    /\ (slotIs900 v || mainIs900 v || originalIs900 v = false -> v' = v)
    /\ getPropOpt (slotOf v' "pomodoro") "timeRemaining"
       = (if slotIs900 v then VNum 1500
          else getPropOpt (slotOf v "pomodoro") "timeRemaining")
    /\ getPropOpt v' "timeRemaining"
       = (if mainIs900 v then VNum 1500 else getPropOpt v "timeRemaining")
    /\ getPropOpt v' "originalDuration"
       = (if originalIs900 v then VNum 1500 else getPropOpt v "originalDuration")
    /\ (forall k, String.eqb k "timerStates" = false ->
                  String.eqb k "timeRemaining" = false ->
                  String.eqb k "originalDuration" = false ->
                  getPropOpt v' k = getPropOpt v k)
    /\ (forall kind, String.eqb kind "pomodoro" = false ->
                     slotOf v' kind = slotOf v kind)
    /\ (forall f, String.eqb f "timeRemaining" = false ->
                  getPropOpt (slotOf v' "pomodoro") f
                  = getPropOpt (slotOf v "pomodoro") f).
Proof.
  destruct v as [| |?|?|?|fs];
    try (eexists; split; [reflexivity|]; repeat split; auto; fail).
  destruct (fixSlot_obj fs false) as (fs1 & E1 & I1 & O1 & K1 & F1 & S1).
  destruct (fixField_obj "timeRemaining" fs1 (slotIs900 (VObj fs) || false) eq_refl)
    as (fs2 & E2 & I2 & O2 & S2).
  destruct (fixField_obj "originalDuration" fs2
              (isStr (lookup "timerMode" fs1) "pomodoro"
               && isNum (lookup "timeRemaining" fs1) 900
               || (slotIs900 (VObj fs) || false)) eq_refl)
    as (fs3 & E3 & I3 & O3 & S3).
  assert (Hmode : lookup "timerMode" fs2 = lookup "timerMode" fs).
  { rewrite (O2 "timerMode" eq_refl). apply (O1 "timerMode" eq_refl). }
  assert (Hmain : isStr (lookup "timerMode" fs1) "pomodoro"
                  && isNum (lookup "timeRemaining" fs1) 900
                  = mainIs900 (VObj fs)).
  { unfold mainIs900. simpl.
    now rewrite (O1 "timerMode" eq_refl), (O1 "timeRemaining" eq_refl). }
  assert (Horig : isStr (lookup "timerMode" fs2) "pomodoro"
                  && isNum (lookup "originalDuration" fs2) 900
                  = originalIs900 (VObj fs)).
  { unfold originalIs900. simpl.
    now rewrite Hmode, (O2 "originalDuration" eq_refl),
      (O1 "originalDuration" eq_refl). }
  rewrite Hmain in *. rewrite Horig in *.
  assert (Hts3 : lookup "timerStates" fs3 = lookup "timerStates" fs1).
  { rewrite (O3 "timerStates" eq_refl). apply (O2 "timerStates" eq_refl). }
  assert (Hslot : forall kind, slotOf (VObj fs3) kind = slotOf (VObj fs1) kind).
  { intros kind. unfold slotOf. simpl. now rewrite Hts3. }
  set (found := slotIs900 (VObj fs) || mainIs900 (VObj fs) || originalIs900 (VObj fs)).
  assert (Hfound : originalIs900 (VObj fs)
                   || (mainIs900 (VObj fs) || (slotIs900 (VObj fs) || false))
                   = found).
  { subst found. destruct (slotIs900 (VObj fs)), (mainIs900 (VObj fs)),
      (originalIs900 (VObj fs)); reflexivity. }
  exists (if found then VObj fs3 else VObj fs).
  split.
  { unfold fixHardcodedPomodoroTime, fixHardcodedPomodoroTime_body, bind.
    rewrite E1. cbv beta iota. rewrite E2. cbv beta iota.
    rewrite E3. cbv beta iota.
    rewrite Hfound. destruct found; reflexivity. }
  split.
  { intros Hnone. fold found in Hnone. now rewrite Hnone. }
  assert (Hall : found = false -> fs3 = fs).
  { subst found. intros H.
    apply orb_false_iff in H as [H H3]. apply orb_false_iff in H as [H1 H2].
    rewrite (I3 H3), (I2 H2). now apply I1. }
  destruct found eqn:Hf.
  - split.
    { rewrite Hslot. exact S1. }
    split.
    { simpl. rewrite (O3 "timeRemaining" eq_refl), S2.
      destruct (mainIs900 (VObj fs)); [reflexivity|].
      apply (O1 "timeRemaining" eq_refl). }
    split.
    { simpl. rewrite S3.
      destruct (originalIs900 (VObj fs)); [reflexivity|].
      rewrite (O2 "originalDuration" eq_refl).
      apply (O1 "originalDuration" eq_refl). }
    split.
    { intros k Hk1 Hk2 Hk3. simpl. now rewrite (O3 k Hk3), (O2 k Hk2), (O1 k Hk1). }
    split.
    { intros kind Hk. rewrite Hslot. now apply K1. }
    intros f Hf'. rewrite Hslot. now apply F1.
  - subst found.
    apply orb_false_iff in Hf as [Hf H3]. apply orb_false_iff in Hf as [H1 H2].
    rewrite H1, H2, H3. repeat split; auto.
Qed.

End FixFacts.

(** ** Recovery from unusable stored input *)

Section RecoveryFacts.
Import Js LocalStorageUtils Props.

Lemma getSettings_cases (loaded now : Z) (stored : item) :
  getSettings loaded now stored = DEFAULT_SETTINGS loaded
  \/ exists v n,
       stored = Json v
       /\ durationOf v "pomodoro" = VNum n /\ 1 <= n <= 60
       /\ durationOf (getSettings loaded now stored) "pomodoro" = VNum n
       /\ durationOf (getSettings loaded now stored) "shortBreak"
          = orElse (durationOf v "shortBreak") (VNum 5)
       /\ durationOf (getSettings loaded now stored) "longBreak"
          = orElse (durationOf v "longBreak") (VNum 15).
Proof.
  destruct stored as [| |v]; [now left|now left|].
  unfold getSettings, getSettings_body, bind.
  destruct (getProp v "timerDurations") as [td|] eqn:Htd; [|now left].
  apply getProp_Some in Htd.
  destruct (truthy td) eqn:Ht; simpl; [|now left].
  destruct (getProp td "pomodoro") as [p|] eqn:Hp; [|now left].
  apply getProp_Some in Hp.
  destruct p as [| |?|n|?|?]; try (now left).
  destruct (n <? 1) eqn:Hlo; simpl; [now left|].
  destruct (n >? 60) eqn:Hhi; simpl; [now left|].
  right. exists v, n.
  apply Z.ltb_ge in Hlo. rewrite Z.gtb_ltb in Hhi. apply Z.ltb_ge in Hhi.
  unfold durationOf. simpl. rewrite <- Htd, <- Hp.
  repeat split; auto.
  unfold orElse. simpl. destruct (n =? 0) eqn:E; [|reflexivity].
  apply Z.eqb_eq in E. lia.
Qed.

(** A record whose pomodoro duration is a number between 1 and 60 passes
    the validation: no access throws, and the object built from the record
    is returned. *)
Lemma getSettings_valid (loaded now : Z) (v : value) (n : Z) :
  durationOf v "pomodoro" = VNum n -> 1 <= n <= 60 ->
  getSettings loaded now (Json v)
  = let sound := getPropOpt v "sound" in
    VObj
      [ ("timerDurations",
         VObj [ ("pomodoro", VNum n);
                ("shortBreak", orElse (durationOf v "shortBreak") (VNum 5));
                ("longBreak", orElse (durationOf v "longBreak") (VNum 15)) ]);
        ("longBreakInterval",
         orElse (getPropOpt v "longBreakInterval") (VNum 4));
        ("autoStartBreaks",
         orElse (getPropOpt v "autoStartBreaks") (VBool false));
        ("autoStartPomodoros",
         orElse (getPropOpt v "autoStartPomodoros") (VBool false));
        ("darkMode", if isUndef (getPropOpt v "darkMode") then VBool true
                     else getPropOpt v "darkMode");
        ("sound",
         VObj [ ("alarmSound",
                 orElse (getPropOpt sound "alarmSound") (VStr "kitty"));
                ("alarmVolume",
                 orElse (getPropOpt sound "alarmVolume") (VNum 80));
                ("alarmRepeat",
                 orElse (getPropOpt sound "alarmRepeat") (VNum 1));
                ("tickingSound",
                 orElse (getPropOpt sound "tickingSound") (VStr "none"));
                ("tickingVolume",
                 orElse (getPropOpt sound "tickingVolume") (VNum 50)) ]);
        ("lastUpdated", orElse (getPropOpt v "lastUpdated") (VNum now)) ].
Proof.
  intros Hp Hn. unfold durationOf in Hp.
  unfold getSettings, getSettings_body, bind, durationOf.
  destruct v as [| |?|?|?|fs]; try discriminate Hp.
  cbn [getProp getPropOpt] in *.
  destruct (lookup "timerDurations" fs) as [| |?|?|?|tds] eqn:Htd;
    try discriminate Hp.
  cbn [truthy negb getProp getPropOpt] in *. rewrite Hp.
  replace (n <? 1) with false by (symmetry; apply Z.ltb_ge; lia).
  replace (n >? 60) with false
    by (symmetry; rewrite Z.gtb_ltb; apply Z.ltb_ge; lia).
  cbn [orb tryCatch]. unfold orElse at 1. cbn [truthy].
  replace (n =? 0) with false by (symmetry; apply Z.eqb_neq; lia).
  reflexivity.
Qed.

(** Every other stored item gives the defaults. *)
Lemma getSettings_invalid (loaded now : Z) (stored : item) :
  (forall v n, stored = Json v -> durationOf v "pomodoro" = VNum n ->
               ~ 1 <= n <= 60) ->
  getSettings loaded now stored = DEFAULT_SETTINGS loaded.
Proof.
  intros H.
  destruct (getSettings_cases loaded now stored)
    as [Hd|(v & n & Hs & Hp & Hn & _)]; [exact Hd|].
  destruct (H v n Hs Hp Hn).
Qed.

Lemma getTimerState_slots_present (currentMode : string) (settings : Settings)
  (stored : item) (kind : string) :
  isKind kind = true ->
  exists fs, slotOf (getTimerState currentMode settings stored) kind = VObj fs.
Proof.
  intros Hkind.
  assert (Hfresh : forall s, exists fs, getPropOpt (freshTimerStates s) kind = VObj fs).
  { intros s. unfold isKind in Hkind. unfold freshTimerStates, slotValue. simpl.
    destruct (String.eqb kind "pomodoro"); [eauto|].
    destruct (String.eqb kind "shortBreak"); [eauto|].
    destruct (String.eqb kind "longBreak"); [eauto|discriminate]. }
  assert (Hcreate : exists fs,
             slotOf (createFreshTimerState currentMode settings) kind = VObj fs).
  { unfold slotOf, createFreshTimerState. simpl. apply Hfresh. }
  unfold getTimerState.
  destruct (getTimerState_body currentMode settings stored) as [result|] eqn:Hbody;
    simpl; [|exact Hcreate].
  destruct stored as [| |parsed]; simpl in Hbody.
  - injection Hbody as <-. exact Hcreate.
  - discriminate.
  - revert Hbody. unfold bind.
    match goal with
    | |- match ?m with _ => _ end = _ -> _ => destruct m as [parsed1|]
    end; [|discriminate].
    destruct (getProp parsed1 "timerStates") as [ts|]; [|discriminate].
    destruct (truthy ts); simpl.
    + destruct (forceInactive ts "pomodoro" _) as [ts1|] eqn:F1; [|discriminate].
      destruct (forceInactive ts1 "shortBreak" _) as [ts2|] eqn:F2; [|discriminate].
      destruct (forceInactive ts2 "longBreak" _) as [ts3|] eqn:F3; [|discriminate].
      intros Hset. unfold slotOf.
      rewrite (getPropOpt_setProp_same _ _ _ _ Hset).
      apply forceInactive_spec in F1 as (_ & _ & P1).
      apply forceInactive_spec in F2 as (O2 & _ & P2).
      apply forceInactive_spec in F3 as (O3 & _ & P3).
      unfold isKind in Hkind.
      destruct (String.eqb kind "pomodoro") eqn:E1.
      * apply String.eqb_eq in E1. subst kind.
        rewrite (O3 "pomodoro" eq_refl), (O2 "pomodoro" eq_refl). exact P1.
      * destruct (String.eqb kind "shortBreak") eqn:E2.
        -- apply String.eqb_eq in E2. subst kind.
           rewrite (O3 "shortBreak" eq_refl). exact P2.
        -- destruct (String.eqb kind "longBreak") eqn:E3; [|discriminate].
           apply String.eqb_eq in E3. subst kind. exact P3.
    + intros Hset. unfold slotOf.
      rewrite (getPropOpt_setProp_same _ _ _ _ Hset). apply Hfresh.
Qed.

(** C8, as the loaders implement it. Both loaders are total: their bodies
    run inside [try], and the handlers return the defaults. [getSettings]
    returns [DEFAULT_SETTINGS] for an absent item, for text that is not
    JSON, for [null], and for every record whose pomodoro duration is not a
    number between 1 and 60. For every record whose pomodoro duration is a
    number between 1 and 60 it returns the record's own members, each falsy
    one replaced by its default (25, 5 and 15 minutes, 4, false, false,
    kitty, 80, 1, none, 50, the current time) and an undefined darkMode by
    true. So the pomodoro duration it returns is always between 1 and 60
    while the break durations are not range checked. [getTimerState] returns
    the fresh state for an absent item, for text that is not JSON and for
    [null]; every state it returns has its three slots. *)
Theorem C8_loaders_recover_and_validate_pomodoro
  (loaded now : Z) (currentMode : string) (settings : Settings) :
  getSettings loaded now Absent = DEFAULT_SETTINGS loaded
  /\ getSettings loaded now Unparsable = DEFAULT_SETTINGS loaded
  /\ getSettings loaded now (Json VNull) = DEFAULT_SETTINGS loaded
  /\ getSettings loaded now (Json (VObj [])) = DEFAULT_SETTINGS loaded
  /\ (forall stored,
        (forall v n, stored = Json v -> durationOf v "pomodoro" = VNum n ->
                     ~ 1 <= n <= 60) ->
        getSettings loaded now stored = DEFAULT_SETTINGS loaded)
  /\ (forall v n,
        durationOf v "pomodoro" = VNum n -> 1 <= n <= 60 ->
        getSettings loaded now (Json v)
        = let sound := getPropOpt v "sound" in
          VObj
            [ ("timerDurations",
               VObj [ ("pomodoro", VNum n);
                      ("shortBreak",
                       orElse (durationOf v "shortBreak") (VNum 5));
                      ("longBreak",
                       orElse (durationOf v "longBreak") (VNum 15)) ]);
              ("longBreakInterval",
               orElse (getPropOpt v "longBreakInterval") (VNum 4));
              ("autoStartBreaks",
               orElse (getPropOpt v "autoStartBreaks") (VBool false));
              ("autoStartPomodoros",
               orElse (getPropOpt v "autoStartPomodoros") (VBool false));
              ("darkMode",
               if isUndef (getPropOpt v "darkMode") then VBool true
               else getPropOpt v "darkMode");
              ("sound",
               VObj [ ("alarmSound",
                       orElse (getPropOpt sound "alarmSound") (VStr "kitty"));
                      ("alarmVolume",
                       orElse (getPropOpt sound "alarmVolume") (VNum 80));
                      ("alarmRepeat",
                       orElse (getPropOpt sound "alarmRepeat") (VNum 1));
                      ("tickingSound",
                       orElse (getPropOpt sound "tickingSound") (VStr "none"));
                      ("tickingVolume",
                       orElse (getPropOpt sound "tickingVolume") (VNum 50)) ]);
              ("lastUpdated",
               orElse (getPropOpt v "lastUpdated") (VNum now)) ])
  /\ (forall stored,
        exists n, durationOf (getSettings loaded now stored) "pomodoro" = VNum n
                  /\ 1 <= n <= 60)
  /\ getTimerState currentMode settings Absent
     = createFreshTimerState currentMode settings
  /\ getTimerState currentMode settings Unparsable
     = createFreshTimerState currentMode settings
  /\ getTimerState currentMode settings (Json VNull)
     = createFreshTimerState currentMode settings
  /\ (forall stored kind,
        isKind kind = true ->
        exists fs, slotOf (getTimerState currentMode settings stored) kind = VObj fs).
Proof.
  split; [reflexivity|]. split; [reflexivity|]. split; [reflexivity|].
  split; [reflexivity|].
  split; [intros stored; apply getSettings_invalid|].
  split; [intros v n; apply getSettings_valid|].
  split.
  { intros stored.
    destruct (getSettings_cases loaded now stored)
      as [Hd|(v & n & _ & _ & Hn & Hp & _)].
    - rewrite Hd. exists 25. split; [reflexivity|lia].
    - exists n. now split. }
  split; [reflexivity|]. split; [reflexivity|].
  split.
  { unfold getTimerState, getTimerState_body, bind. simpl.
    destruct (String.eqb currentMode "pomodoro"); reflexivity. }
  intros stored kind. apply getTimerState_slots_present.
Qed.

(** Stored settings of 25, -5 and 0 minutes, read at time 7: the pomodoro
    duration is valid, so the record is kept, the zero long break replaced
    by 15 minutes and the negative short break returned as it is; this is
    not [DEFAULT_SETTINGS]. A stored pomodoro duration of 0 gives
    [DEFAULT_SETTINGS]. *)
Lemma C8_witness :
  getSettings 0 7 (Json settingsBadBreaks)
  = VObj
      [ ("timerDurations",
         VObj [ ("pomodoro", VNum 25); ("shortBreak", VNum (-5));
                ("longBreak", VNum 15) ]);
        ("longBreakInterval", VNum 4);
        ("autoStartBreaks", VBool false);
        ("autoStartPomodoros", VBool false);
        ("darkMode", VBool true);
        ("sound",
         VObj [ ("alarmSound", VStr "kitty"); ("alarmVolume", VNum 80);
                ("alarmRepeat", VNum 1); ("tickingSound", VStr "none");
                ("tickingVolume", VNum 50) ]);
        ("lastUpdated", VNum 7) ]
  /\ getSettings 0 7 (Json settingsBadBreaks) <> DEFAULT_SETTINGS 0
  /\ getSettings 0 7
       (Json (VObj [ ("timerDurations", VObj [ ("pomodoro", VNum 0) ]) ]))
     = DEFAULT_SETTINGS 0.
Proof.
  destruct (C8_loaders_recover_and_validate_pomodoro
              0 7 "pomodoro" (mkSettings 25 5 15 4))
    as (_ & _ & _ & _ & Hbad & Hgood & _).
  assert (E := Hgood settingsBadBreaks 25 eq_refl ltac:(lia)).
  split; [|split].
  - rewrite E. reflexivity.
  - rewrite E. discriminate.
  - apply Hbad. intros v n Hv Hp. injection Hv as <-.
    vm_compute in Hp. injection Hp as <-. lia.
Defined.

(** C8 as stated fails: stored break durations of -5 and 0 minutes pass
    [getSettings] (the first is returned as it is), and a stored running
    slot with -5 seconds left is returned by [getTimerState] as stored
    instead of the default state. *)
Lemma C8_counterexample :
  durationOf (getSettings 0 0 (Json settingsBadBreaks)) "shortBreak" = VNum (-5)
  /\ ~ (exists n, durationOf (getSettings 0 0 (Json settingsBadBreaks)) "shortBreak"
                  = VNum n /\ 1 <= n)
  /\ getTimerState "pomodoro" (mkSettings 25 5 15 4) (Json negativeRemaining)
     = negativeRemaining
  /\ getPropOpt (slotOf (getTimerState "pomodoro" (mkSettings 25 5 15 4)
                           (Json negativeRemaining)) "pomodoro") "timeRemaining"
     = VNum (-5)
  /\ getTimerState "pomodoro" (mkSettings 25 5 15 4) (Json negativeRemaining)
     <> createFreshTimerState "pomodoro" (mkSettings 25 5 15 4).
Proof.
  split; [reflexivity|]. split.
  { intros (n & Hn & Hle). vm_compute in Hn. injection Hn as <-. lia. }
  split; [reflexivity|]. split; [reflexivity|].
  vm_compute. discriminate.
Qed.

(** C10. [fixHardcodedPomodoroTime] returns [false] and leaves the key
    alone when nothing is stored or the text is not JSON. On a parsed
    record it rewrites to 1500 each of: the pomodoro slot's [timeRemaining]
    when it is exactly 900, and, when [timerMode] is ['pomodoro'], the
    top-level [timeRemaining] and [originalDuration] when they are exactly
    900; nothing else changes; it returns [true] exactly when one of the
    three matched, and then the rewritten record is what is stored.
    Consequently [validateLocalStorage] turns the stored record of a
    15 minute pomodoro at full duration into one of 25 minutes, and reports
    the storage as valid. *)
Theorem C10_fix_rewrites_900_to_1500 :
  fixHardcodedPomodoroTime Absent = (false, Absent)
  /\ fixHardcodedPomodoroTime Unparsable = (false, Unparsable)
  /\ (forall v, exists v',
        fixHardcodedPomodoroTime (Json v)
        = (slotIs900 v || mainIs900 v || originalIs900 v, Json v')
        /\ (slotIs900 v || mainIs900 v || originalIs900 v = false -> v' = v)
        /\ getPropOpt (slotOf v' "pomodoro") "timeRemaining"
           = (if slotIs900 v then VNum 1500
              else getPropOpt (slotOf v "pomodoro") "timeRemaining")
        /\ getPropOpt v' "timeRemaining"
           = (if mainIs900 v then VNum 1500 else getPropOpt v "timeRemaining")
        /\ getPropOpt v' "originalDuration"
           = (if originalIs900 v then VNum 1500
              else getPropOpt v "originalDuration")
        /\ (forall k, String.eqb k "timerStates" = false ->
                      String.eqb k "timeRemaining" = false ->
                      String.eqb k "originalDuration" = false ->
                      getPropOpt v' k = getPropOpt v k)
        /\ (forall kind, String.eqb kind "pomodoro" = false ->
                         slotOf v' kind = slotOf v kind)
        /\ (forall f, String.eqb f "timeRemaining" = false ->
                      getPropOpt (slotOf v' "pomodoro") f
                      = getPropOpt (slotOf v "pomodoro") f))
  /\ (exists st',
        validateLocalStorage 0 0 store15 = Some (true, st')
        /\ pomoSpaceSettings st' = Json settings15
        /\ pomoSpaceTimerState st'
           = Json (createFreshTimerState "pomodoro" (mkSettings 25 5 15 4))).
Proof.
  split; [reflexivity|]. split; [reflexivity|].
  split; [exact fix_json|].
  eexists. split; [reflexivity|]. split; reflexivity.
Qed.

(** A record whose pomodoro slot alone holds 900: the flag is set, the slot
    is rewritten and its running flag kept. *)
Lemma C10_witness :
  let v := VObj [ ("timerMode", VStr "shortBreak"); ("timeRemaining", VNum 900);
                  ("timerStates",
                   VObj [ ("pomodoro", VObj [ ("timeRemaining", VNum 900);
                                              ("isActive", VBool false) ]) ]) ] in
  exists v',
    fixHardcodedPomodoroTime (Json v) = (true, Json v')
    /\ getPropOpt (slotOf v' "pomodoro") "timeRemaining" = VNum 1500
    /\ getPropOpt v' "timeRemaining" = VNum 900
    /\ getPropOpt (slotOf v' "pomodoro") "isActive" = VBool false.
Proof.
  intro v.
  destruct C10_fix_rewrites_900_to_1500 as (_ & _ & H & _).
  destruct (H v) as (v' & E & _ & S & M & _ & _ & _ & F).
  exists v'. split; [exact E|]. split; [exact S|]. split; [exact M|].
  rewrite (F "isActive" eq_refl). reflexivity.
Defined.

End RecoveryFacts.

(** ** The component: what every commit does to the running flag *)

Section RunningFlag.
Import PomodoroTimer Scenario.

Lemma settle_S f cur next w :
  settle (S f) cur next w
  = if sameRender cur next then
      match timeouts w with
      | [] => (cur, w)
      | m :: _ => settle f cur (setTimerMode m cur) (popTimeout w)
      end
    else
      let w := renderBody next w in
      let '(p, w) := commit (Some cur) next w in
      settle f next p w.
Proof. reflexivity. Qed.

Lemma isActive_setTimerStates x pw :
  isActive (fst (setTimerStates x pw)) = isActive (fst pw).
Proof. now destruct pw. Qed.

Lemma isActive_isActiveEffect r pw :
  isActive (fst (isActiveEffect r pw)) = isActive (fst pw).
Proof.
  unfold isActiveEffect.
  destruct (setTimerStates _ pw) as [p w] eqn:E. simpl.
  change p with (fst (p, w)). rewrite <- E. apply isActive_setTimerStates.
Qed.

Lemma isActive_timerModeEffect r pw :
  isActive (fst (timerModeEffect r pw)) = false.
Proof. destruct pw as [p w]. reflexivity. Qed.

Lemma isActive_reconcileMode r mode acc :
  isActive (snd (reconcileMode r mode acc)) = isActive (snd acc).
Proof.
  destruct acc as [u p]. unfold reconcileMode.
  destruct (_ || _); simpl; destruct (TimerMode_eqb mode mode); reflexivity.
Qed.

Lemma isActive_settingsEffect r pw :
  isActive (fst (settingsEffect r pw)) = isActive (fst pw).
Proof.
  destruct pw as [p w]. unfold settingsEffect. cbn [fold_left].
  destruct (reconcileMode r LongBreak _) as [u p'] eqn:E.
  simpl.
  change p' with (snd (u, p')). rewrite <- E.
  now rewrite !isActive_reconcileMode.
Qed.

Lemma isActive_commit prev r w :
  isActive (fst (commit prev r w))
  = if changed TimerMode_eqb timerMode prev r then false else isActive r.
Proof.
  unfold commit.
  destruct (changed Z.eqb timeRemaining prev r),
    (changed Bool.eqb isActive prev r),
    (changed Z.eqb completedPomodoros prev r),
    (changed TimerMode_eqb timerMode prev r),
    (changed Nat.eqb timerStatesId prev r),
    (changed Nat.eqb settingsId prev r); cbn [orb fst snd];
    rewrite ?isActive_settingsEffect; cbn [fst snd];
    rewrite ?isActive_timerModeEffect, ?isActive_isActiveEffect; reflexivity.
Qed.

Lemma sameRender_isActive a b :
  sameRender a b = true -> isActive a = isActive b.
Proof.
  unfold sameRender. intros H.
  repeat (apply andb_true_iff in H as [H ?]).
  now apply Bool.eqb_prop.
Qed.

Lemma settle_paused f cur next w :
  isActive next = false -> isActive (fst (settle f cur next w)) = false.
Proof.
  revert cur next w. induction f as [|f IH]; intros cur next w Hn.
  - exact Hn.
  - rewrite settle_S. destruct (sameRender cur next) eqn:E.
    + apply sameRender_isActive in E. rewrite Hn in E.
      destruct (timeouts w); [exact E|]. apply IH. exact E.
    + cbv zeta. destruct (commit (Some cur) next (renderBody next w)) as [p w'] eqn:Ec.
      apply IH. change p with (fst (p, w')). rewrite <- Ec, isActive_commit.
      now destruct (changed _ _ _ _).
Qed.

(** A mounted component is paused, whatever was stored. *)
Lemma mount_paused (mode : TimerMode) (s : Settings) (w : World) :
  isActive (fst (mount mode s w)) = false.
Proof.
  unfold mount.
  destruct (getSavedTimerState mode s w) as [saved w1].
  match goal with
  | |- context [commit None ?r ?w] =>
      destruct (commit None r w) as [p w2] eqn:Ec
  end.
  apply settle_paused. change p with (fst (p, w2)).
  rewrite <- Ec, isActive_commit. reflexivity.
Qed.

End RunningFlag.

(** ** The component: Start, Pause and the interval callback *)

Section StartPause.
Import PomodoroTimer Scenario.

Lemma TimerMode_eqb_refl m : TimerMode_eqb m m = true.
Proof. now destruct m. Qed.

Lemma renderBody_inert (r : Render) (w : World) :
  match storage w with
  | None => True
  | Some s => Saved.isActive s = false
              \/ exists t, Saved.activeTimestamp s = Some t
                           /\ 0 < Saved.timeRemaining s - (now w - t) / 1000
  end ->
  renderBody r w = w.
Proof.
  unfold renderBody, getSavedTimerState.
  destruct (storage w) as [s|]; [|reflexivity].
  intros [Hq|(t & Ht & Hpos)].
  - rewrite Hq. reflexivity.
  - rewrite Ht. destruct (Saved.isActive s); [|reflexivity].
    destruct (negb (t =? 0)); [|reflexivity]. simpl.
    destruct (Z.max 0 (Saved.timeRemaining s - (now w - t) / 1000) <=? 0) eqn:E;
      [|reflexivity].
    apply Z.leb_le in E. lia.
Qed.

#[local] Opaque settle.

Ltac eqbs :=
  rewrite ?Z.eqb_refl, ?Nat.eqb_refl, ?TimerMode_eqb_refl, ?Bool.eqb_reflx.


Lemma neq_eqb (a b : nat) : (a < b)%nat -> Nat.eqb a b = false.
Proof. intros H. apply Nat.eqb_neq. lia. Qed.

Lemma gtb_pos (T : Z) : 0 < T -> (T >? 0) = true.
Proof. intros H. rewrite Z.gtb_ltb. now apply Z.ltb_lt. Qed.

Lemma toggle_start (T : Z) (c : Render * World) :
  Paused T c -> 0 < T -> Running T 0 (toggleTimer c).
Proof.
  destruct c as [r w]. unfold Paused. simpl.
  intros (Hact & HT & Hint & Hto & Hid & Hq) Hpos.
  unfold toggleTimer, fuel.
  destruct r as [m s sid tr act cp ts tsid].
  destruct w as [st iv tos pc al nw nid].
  simpl in *. subst.
  rewrite settle_S. unfold sameRender, setIsActive. simpl. eqbs. simpl.
  rewrite renderBody_inert.
  2:{ simpl. unfold quiet in Hq. simpl in Hq. destruct st; auto. }
  unfold commit, changed. simpl. eqbs. simpl.
  unfold intervalEffect, updateTimerState, setItem, setIntervalRef. simpl.
  rewrite (gtb_pos _ Hpos).
  rewrite settle_S. unfold sameRender. simpl. eqbs. rewrite (neq_eqb _ _ Hid).
  simpl.
  rewrite renderBody_inert.
  2:{ simpl. right. exists nw. split; [reflexivity|].
      rewrite Z.sub_diag. change (0 / 1000) with 0. lia. }
  unfold commit, changed. simpl. eqbs. rewrite (neq_eqb _ _ Hid). simpl.
  unfold updateTimerState, setItem. simpl.
  rewrite settle_S. unfold sameRender. simpl. eqbs. simpl.
  unfold Running. simpl.
  repeat split; eauto.
  eexists. split; [reflexivity|]. simpl. rewrite Z.sub_0_r. auto.
Qed.

Lemma tick_running (T age : Z) (c : Render * World) :
  Running T age c -> 1 < T -> 0 < T - age / 1000 -> Running (T - 1) 0 (tick c).
Proof.
  destruct c as [r w]. unfold Running. simpl.
  intros (Hact & HT & (cap & Hint) & Hto & Hid & sv & Hst & Hsa & Hstr & Hts) H1 Hage.
  unfold tick, fuel. rewrite Hint.
  destruct r as [m s sid tr act cp ts tsid].
  destruct w as [st iv tos pc al nw nid].
  simpl in *. subst tr act st tos iv.
  unfold intervalCallback.
  destruct (T <=? 1) eqn:E; [apply Z.leb_le in E; lia|].
  unfold setTimeRemaining. simpl.
  rewrite settle_S. unfold sameRender. simpl. eqbs.
  assert (Hne : (T =? T - 1) = false) by (apply Z.eqb_neq; lia).
  rewrite Hne. simpl.
  rewrite renderBody_inert.
  2:{ simpl. right. exists (nw - age). split; [exact Hts|].
      replace (nw - (nw - age)) with age by lia. rewrite Hstr. lia. }
  unfold commit, changed. simpl. eqbs. rewrite Hne. simpl.
  unfold intervalEffect, saveWhileActiveEffect, updateTimerState, setItem,
    setIntervalRef, clearInterval. simpl.
  rewrite (gtb_pos (T - 1)) by lia.
  rewrite settle_S. unfold sameRender. simpl. eqbs. simpl.
  unfold Running. simpl.
  repeat split; eauto.
  eexists. split; [reflexivity|]. simpl. rewrite Z.sub_0_r. auto.
Qed.

Lemma toggle_pause (T age : Z) (c : Render * World) :
  Running T age c -> 0 < T - age / 1000 -> Paused T (toggleTimer c).
Proof.
  destruct c as [r w]. unfold Running. simpl.
  intros (Hact & HT & (cap & Hint) & Hto & Hid & sv & Hst & Hsa & Hstr & Hts) Hage.
  unfold toggleTimer, fuel.
  destruct r as [m s sid tr act cp ts tsid].
  destruct w as [st iv tos pc al nw nid].
  simpl in *. subst tr act st tos iv.
  rewrite settle_S. unfold sameRender, setIsActive. simpl. eqbs. simpl.
  rewrite renderBody_inert.
  2:{ simpl. right. exists (nw - age). split; [exact Hts|].
      replace (nw - (nw - age)) with age by lia. rewrite Hstr. lia. }
  unfold commit, changed. simpl. eqbs. simpl.
  unfold intervalEffect, updateTimerState, setItem, setIntervalRef, clearInterval.
  simpl.
  rewrite settle_S. unfold sameRender. simpl. eqbs. rewrite (neq_eqb _ _ Hid).
  simpl.
  rewrite renderBody_inert by (simpl; auto).
  unfold commit, changed. simpl. eqbs. rewrite (neq_eqb _ _ Hid). simpl.
  rewrite settle_S. unfold sameRender. simpl. eqbs. simpl.
  unfold Paused, quiet. simpl. repeat split; auto.
Qed.

Lemma advance_running (T age d : Z) (c : Render * World) :
  Running T age c -> Running T (age + d) (advance d c).
Proof.
  destruct c as [r w]. unfold Running, advance. simpl.
  intros (Hact & HT & Hint & Hto & Hid & sv & Hst & Hsa & Hstr & Hts).
  repeat split; auto.
  exists sv. repeat split; auto. rewrite Hts. f_equal. lia.
Qed.

Lemma advance_paused (T d : Z) (c : Render * World) :
  Paused T c -> Paused T (advance d c).
Proof.
  destruct c as [r w]. unfold Paused, advance, quiet. simpl. tauto.
Qed.

Lemma run_app (es1 es2 : list Event) (c : Render * World) :
  run (es1 ++ es2) c = run es2 (run es1 c).
Proof. unfold run. apply fold_left_app. Qed.

Lemma run_ticks (gaps : list Z) (T B : Z) (c : Render * World) :
  Running T 0 c ->
  0 < B -> B <= T - Z.of_nat (List.length gaps) ->
  Forall (fun g => g / 1000 < B) gaps ->
  Running (T - Z.of_nat (List.length gaps)) 0 (run (tickEvents gaps) c).
Proof.
  revert T c. induction gaps as [|g gaps IH]; intros T c Hrun HB Hle Hall.
  - simpl. now rewrite Z.sub_0_r.
  - inversion Hall as [|? ? Hg Hrest]; subst.
    cbn [List.length] in *. rewrite Nat2Z.inj_succ in *.
    change (tickEvents (g :: gaps)) with ([Advance g; Tick] ++ tickEvents gaps)%list.
    rewrite run_app. cbn [run fold_left step].
    replace (T - Z.succ (Z.of_nat (List.length gaps)))
      with ((T - 1) - Z.of_nat (List.length gaps)) by lia.
    apply IH; [|assumption|lia|assumption].
    apply (tick_running T (0 + g)); [now apply advance_running|lia|].
    simpl. lia.
Qed.

Lemma run_cycle (cy : list Z * Z) (T B : Z) (c : Render * World) :
  Paused T c ->
  0 < B -> B <= T - Z.of_nat (List.length (fst cy)) ->
  Forall (fun g => g / 1000 < B) (fst cy ++ [snd cy]) ->
  Paused (T - Z.of_nat (List.length (fst cy))) (run (cycleEvents cy) c).
Proof.
  intros Hp HB Hle Hall.
  apply Forall_app in Hall as [Hgaps Hlast].
  inversion Hlast as [|? ? Hg _]; subst.
  unfold cycleEvents.
  change (Toggle :: tickEvents (fst cy) ++ [Advance (snd cy); Toggle])%list
    with ([Toggle] ++ tickEvents (fst cy) ++ [Advance (snd cy); Toggle])%list.
  rewrite !run_app. cbn [run fold_left step].
  apply (toggle_pause _ (0 + snd cy)).
  - apply advance_running.
    apply (run_ticks _ _ B); [|assumption|assumption|assumption].
    apply toggle_start; [assumption|lia].
  - simpl. lia.
Qed.

Lemma run_cycles (cs : list (list Z * Z)) (T : Z) (c : Render * World) :
  Paused T c ->
  tickCount cs < T ->
  Forall (fun g => g / 1000 < T - tickCount cs) (allGaps cs) ->
  Paused (T - tickCount cs) (run (cyclesEvents cs) c).
Proof.
  revert T c. induction cs as [|cy cs IH]; intros T c Hp Hlt Hall.
  - unfold tickCount. simpl. now rewrite Z.sub_0_r.
  - unfold tickCount, allGaps, cyclesEvents in *. cbn [flat_map] in *.
    rewrite length_app, Nat2Z.inj_add in *.
    apply Forall_app in Hall as [Hcy Hrest].
    rewrite run_app.
    replace (T - (Z.of_nat (List.length (fst cy))
                  + Z.of_nat (List.length (flat_map fst cs))))
      with ((T - Z.of_nat (List.length (fst cy)))
            - Z.of_nat (List.length (flat_map fst cs))) in * by lia.
    apply IH.
    + eapply run_cycle; eauto; lia.
    + lia.
    + exact Hrest.
Qed.

End StartPause.

(** ** The settings effect, entry by entry *)

Section SettingsEffect.
Import PomodoroTimer Scenario.

Lemma oldFullDuration_eq (mode : TimerMode) (s : Settings) :
  getDuration mode
    (mkSettings (mkPerMode (pomodoro (timerDurations s))
                           (shortBreak (timerDurations s))
                           (longBreak (timerDurations s)))
                (longBreakInterval s))
  = getDuration mode s.
Proof. now destruct mode. Qed.

(** One iteration writes the entry of its own kind and no other. *)
Lemma reconcileMode_entry (r : Render) (mode : TimerMode)
  (acc : PerMode Slot.t * Render) :
  get mode (fst (reconcileMode r mode acc)) = reconciled r mode
  /\ forall m, m <> mode -> get m (fst (reconcileMode r mode acc)) = get m (fst acc).
Proof.
  destruct acc as [u p]. unfold reconciled, reconcileMode.
  destruct (_ || _); cbn [fst]; split;
    try (now destruct mode);
    intros m Hm; destruct m, mode; try reflexivity; congruence.
Qed.

Lemma settingsEffect_entry (r : Render) (pw : Render * World) (mode : TimerMode) :
  get mode (timerStates (fst (settingsEffect r pw))) = reconciled r mode.
Proof.
  destruct pw as [p w]. unfold settingsEffect. cbn [fold_left].
  set (a1 := reconcileMode r Pomodoro (timerStates r, p)).
  set (a2 := reconcileMode r ShortBreak a1).
  set (a3 := reconcileMode r LongBreak a2).
  assert (H : get mode (fst a3) = reconciled r mode).
  { destruct (reconcileMode_entry r LongBreak a2) as [E3 O3].
    destruct (reconcileMode_entry r ShortBreak a1) as [E2 O2].
    destruct (reconcileMode_entry r Pomodoro (timerStates r, p)) as [E1 _].
    fold a1 in E1, O2, E2. fold a2 in E2, O3, E3. fold a3 in E3, O3.
    destruct mode.
    - rewrite O3, O2 by discriminate. exact E1.
    - rewrite O3 by discriminate. exact E2.
    - exact E3. }
  destruct a3 as [u p']. cbn [fst] in H. cbn [fst setTimerStates timerStates].
  exact H.
Qed.

Lemma get_set_same {A : Type} (mode : TimerMode) (x : A) (u : PerMode A) :
  get mode (set mode x u) = x.
Proof. now destruct mode. Qed.

(** The entry the settings effect writes for a kind: its running flag and
    its remaining time, in terms of the entry it replaces and the new full
    duration. *)
Lemma reconciled_spec (r : Render) (mode : TimerMode) :
  let slot := get mode (timerStates r) in
  let full := getDuration mode (settings r) in
  reconciled r mode
  = Slot.mk (if Slot.isActive slot || (Slot.timeRemaining slot <? full)
             then Z.max 1 (full - Z.max 0 (full - Slot.timeRemaining slot))
             else full)
            (Slot.isActive slot).
Proof.
  cbv zeta. unfold reconciled, reconcileMode. rewrite oldFullDuration_eq.
  destruct (_ || _); cbn [fst]; now rewrite get_set_same.
Qed.

Lemma reconciled_bounds (r : Render) (mode : TimerMode) :
  let slot := get mode (timerStates r) in
  let full := getDuration mode (settings r) in
  Slot.isActive (reconciled r mode) = Slot.isActive slot
  /\ Slot.timeRemaining (reconciled r mode) <= Z.max 1 full
  /\ (Slot.isActive slot = true \/ Slot.timeRemaining slot < full ->
      1 <= Slot.timeRemaining (reconciled r mode)).
Proof.
  cbv zeta. rewrite reconciled_spec. cbn [Slot.isActive Slot.timeRemaining].
  split; [reflexivity|]. split.
  - destruct (_ || _); lia.
  - intros H.
    assert (E : Slot.isActive (get mode (timerStates r))
                || (Slot.timeRemaining (get mode (timerStates r))
                    <? getDuration mode (settings r)) = true).
    { destruct H as [H|H]; [now rewrite H|].
      apply orb_true_iff. right. now apply Z.ltb_lt. }
    rewrite E. lia.
Qed.

Lemma reconciled_in_range (r : Render) (mode : TimerMode) :
  1 <= Slot.timeRemaining (get mode (timerStates r))
    <= getDuration mode (settings r) ->
  reconciled r mode = get mode (timerStates r).
Proof.
  intros H. rewrite reconciled_spec.
  destruct (get mode (timerStates r)) as [tr act]. cbn [Slot.isActive Slot.timeRemaining] in *.
  f_equal.
  destruct (act || (tr <? getDuration mode (settings r))) eqn:E; [lia|].
  apply orb_false_iff in E as [_ E]. apply Z.ltb_ge in E. lia.
Qed.



End SettingsEffect.

(** ** The interval handle *)

Section IntervalHandle.
Import PomodoroTimer Scenario.

Lemma intervalRef_renderBody r w : intervalRef (renderBody r w) = intervalRef w.
Proof.
  unfold renderBody, getSavedTimerState.
  destruct (storage w) as [s|]; [|reflexivity].
  destruct (Saved.isActive s && _); [|reflexivity].
  destruct (_ <=? 0); [|reflexivity].
  destruct (TimerMode_eqb (Saved.timerMode s) Pomodoro);
    cbn [snd]; destruct (negb _); reflexivity.
Qed.

Lemma intervalRef_isActiveEffect r pw :
  intervalRef (snd (isActiveEffect r pw)) = intervalRef (snd pw).
Proof.
  unfold isActiveEffect. destruct pw as [p w]. reflexivity.
Qed.

Lemma intervalRef_timerModeEffect r pw :
  intervalRef (snd (timerModeEffect r pw)) = None.
Proof. destruct pw as [p w]. reflexivity. Qed.

Lemma intervalRef_settingsEffect r pw :
  intervalRef (snd (settingsEffect r pw)) = intervalRef (snd pw).
Proof.
  destruct pw as [p w]. unfold settingsEffect.
  destruct (fold_left _ _ _) as [u p']. reflexivity.
Qed.

Lemma intervalRef_saveWhileActive r w :
  intervalRef (saveWhileActiveEffect r w) = intervalRef w.
Proof. unfold saveWhileActiveEffect. now destruct (isActive r). Qed.

Ltac interval_simpl :=
  cbn [fst snd orb];
  repeat (rewrite ?intervalRef_settingsEffect, ?intervalRef_timerModeEffect,
            ?intervalRef_isActiveEffect, ?intervalRef_saveWhileActive;
          cbn [fst snd]).

Lemma intervalEffect_paused r w :
  isActive r = false -> intervalRef (intervalEffect r w) = None.
Proof. intros H. unfold intervalEffect. now rewrite H. Qed.

Lemma intervalEffect_none r w :
  intervalRef w = None -> timeRemaining r <= 0 ->
  intervalRef (intervalEffect r w) = None.
Proof.
  intros Hw Hr. unfold intervalEffect. rewrite Hw.
  destruct (isActive r); [|reflexivity].
  destruct (timeRemaining r >? 0) eqn:E; [|exact Hw].
  rewrite Z.gtb_ltb in E. apply Z.ltb_lt in E. lia.
Qed.

Lemma commit_interval_none prev r w :
  isActive r = false -> intervalRef w = None ->
  intervalRef (snd (commit prev r w)) = None.
Proof.
  intros Hr Hw. unfold commit.
  destruct (changed Z.eqb timeRemaining prev r),
    (changed Bool.eqb isActive prev r),
    (changed Z.eqb completedPomodoros prev r),
    (changed TimerMode_eqb timerMode prev r),
    (changed Nat.eqb timerStatesId prev r),
    (changed Nat.eqb settingsId prev r);
    interval_simpl; rewrite ?intervalEffect_paused by assumption;
    try reflexivity; try assumption;
    destruct prev; cbn; assumption.
Qed.

Lemma settle_interval_none f cur next w :
  isActive next = false -> intervalRef w = None ->
  intervalRef (snd (settle f cur next w)) = None.
Proof.
  revert cur next w. induction f as [|f IH]; intros cur next w Hn Hw.
  - exact Hw.
  - rewrite settle_S. destruct (sameRender cur next) eqn:E.
    + destruct (timeouts w); [exact Hw|].
      apply IH; [|exact Hw].
      apply sameRender_isActive in E. cbn. congruence.
    + cbv zeta.
      destruct (commit (Some cur) next (renderBody next w)) as [p w'] eqn:Ec.
      apply IH.
      * change p with (fst (p, w')). rewrite <- Ec, isActive_commit.
        now destruct (changed _ _ _ _).
      * change w' with (snd (p, w')). rewrite <- Ec.
        apply commit_interval_none; [exact Hn|].
        now rewrite intervalRef_renderBody.
Qed.

(** What the completing run of the interval callback does by itself. *)
Lemma intervalCallback_completes (captured : Render) (prev : Z)
  (p : Render) (w : World) :
  prev <= 1 ->
  let done := intervalCallback captured prev (p, w) in
  intervalRef (snd done) = None
  /\ isActive (fst done) = isActive p
  /\ timeRemaining (fst done) = 0
  /\ timerMode (fst done) = nextMode captured
  /\ alarms (snd done) = S (alarms w)
  /\ pomodoroCompleted (snd done)
     = (if TimerMode_eqb (timerMode captured) Pomodoro
        then S (pomodoroCompleted w) else pomodoroCompleted w).
Proof.
  intros Hprev. cbv zeta. unfold intervalCallback, nextMode.
  assert (E : (prev <=? 1) = true) by now apply Z.leb_le.
  rewrite E.
  destruct (TimerMode_eqb (timerMode captured) Pomodoro); repeat split.
Qed.

Lemma next_mode_differs (captured : Render) :
  nextMode captured <> timerMode captured.
Proof.
  unfold nextMode. destruct (timerMode captured); cbn; try discriminate.
  destruct (divides _ _); discriminate.
Qed.

(** The updater leaves the settings alone. *)
Lemma intervalCallback_settings (captured : Render) (prev : Z)
  (p : Render) (w : World) :
  settingsId (fst (intervalCallback captured prev (p, w))) = settingsId p
  /\ settings (fst (intervalCallback captured prev (p, w))) = settings p.
Proof.
  unfold intervalCallback.
  destruct (prev <=? 1); [|now split].
  destruct (TimerMode_eqb (timerMode captured) Pomodoro); now split.
Qed.

(** A commit in which neither [isActive] nor a prop changed sets no state:
    the effects that run only write to the store and to the interval. *)
Lemma commit_same_props (q r : Render) (w : World) :
  isActive r = isActive q -> timerMode r = timerMode q ->
  settingsId r = settingsId q ->
  fst (commit (Some q) r w) = r.
Proof.
  intros Ha Hm Hs. unfold commit, changed. rewrite Ha, Hm, Hs.
  rewrite Bool.eqb_reflx, Nat.eqb_refl.
  replace (TimerMode_eqb (timerMode q) (timerMode q)) with true
    by (now destruct (timerMode q)).
  cbn [negb orb].
  destruct (negb (timeRemaining q =? timeRemaining r)),
    (negb (completedPomodoros q =? completedPomodoros r)),
    (negb (Nat.eqb (timerStatesId q) (timerStatesId r))); reflexivity.
Qed.

Lemma commit_same_props_interval (q r : Render) (w : World) :
  isActive r = isActive q -> timerMode r = timerMode q ->
  settingsId r = settingsId q ->
  intervalRef w = None -> timeRemaining r <= 0 ->
  intervalRef (snd (commit (Some q) r w)) = None.
Proof.
  intros Ha Hm Hs Hw Ht. unfold commit, changed. rewrite Ha, Hm, Hs.
  rewrite Bool.eqb_reflx, Nat.eqb_refl.
  replace (TimerMode_eqb (timerMode q) (timerMode q)) with true
    by (now destruct (timerMode q)).
  cbn [negb orb].
  destruct (negb (timeRemaining q =? timeRemaining r)),
    (negb (completedPomodoros q =? completedPomodoros r)),
    (negb (Nat.eqb (timerStatesId q) (timerStatesId r)));
    interval_simpl;
    rewrite ?intervalEffect_none; interval_simpl;
    try reflexivity; try assumption.
Qed.

(** The completing tick on the component: afterwards the timer is paused
    and no interval is live, so a further tick does nothing. *)
Lemma tick_completes (r : Render) (w : World) (captured : Render) :
  intervalRef w = Some captured ->
  timerMode captured = timerMode r ->
  timeRemaining r <= 1 ->
  isActive (fst (tick (r, w))) = false
  /\ intervalRef (snd (tick (r, w))) = None
  /\ tick (tick (r, w)) = tick (r, w).
Proof.
  intros Hint Hmode Hle.
  assert (Hgoal : isActive (fst (tick (r, w))) = false
                  /\ intervalRef (snd (tick (r, w))) = None).
  { unfold tick. rewrite Hint.
    assert (Eleb : (timeRemaining r <=? 1) = true) by now apply Z.leb_le.
    rewrite Eleb.
    destruct (intervalCallback captured (timeRemaining r) (r, renderBody r w))
      as [p w1] eqn:Ecb.
    destruct (intervalCallback_completes captured (timeRemaining r) r
                (renderBody r w) Hle) as (Hi & Ha & Ht & Hm & _).
    destruct (intervalCallback_settings captured (timeRemaining r) r
                (renderBody r w)) as (Hsid & _).
    rewrite Ecb in Hi, Ha, Ht, Hm, Hsid. cbn [fst snd] in Hi, Ha, Ht, Hm, Hsid.
    pose proof (next_mode_differs captured) as Hne. rewrite <- Hm, Hmode in Hne.
    set (child := setTimerMode (timerMode r) p).
    destruct (commit (Some r) child (renderBody r w1)) as [q w2] eqn:Ec.
    assert (Hq : q = child).
    { change q with (fst (q, w2)). rewrite <- Ec.
      apply commit_same_props; [exact Ha|reflexivity|exact Hsid]. }
    assert (Hw2 : intervalRef w2 = None).
    { change w2 with (snd (q, w2)). rewrite <- Ec.
      apply commit_same_props_interval;
        [exact Ha|reflexivity|exact Hsid| |].
      - now rewrite intervalRef_renderBody.
      - unfold child. cbn [setTimerMode timeRemaining]. lia. }
    subst q.
    set (next := setTimerMode (timerMode p) child).
    assert (Hnm : TimerMode_eqb (timerMode child) (timerMode next) = false).
    { unfold next, child. cbn [setTimerMode timerMode].
      destruct (TimerMode_eqb (timerMode r) (timerMode p)) eqn:E; [|reflexivity].
      exfalso. apply Hne. destruct (timerMode r), (timerMode p); cbn in E;
        congruence. }
    unfold fuel. rewrite settle_S.
    assert (Es : sameRender child next = false).
    { unfold sameRender. now rewrite Hnm. }
    rewrite Es. cbv zeta.
    destruct (commit (Some child) next (renderBody next w2)) as [p' w3] eqn:Ec2.
    assert (Hcm : changed TimerMode_eqb timerMode (Some child) next = true).
    { unfold changed. now rewrite Hnm. }
    assert (Hp' : isActive p' = false).
    { change p' with (fst (p', w3)). rewrite <- Ec2, isActive_commit.
      now rewrite Hcm. }
    assert (Hw3 : intervalRef w3 = None).
    { change w3 with (snd (p', w3)). rewrite <- Ec2. unfold commit.
      rewrite Hcm.
      destruct (changed Z.eqb timeRemaining (Some child) next),
        (changed Bool.eqb isActive (Some child) next),
        (changed Z.eqb completedPomodoros (Some child) next),
        (changed Nat.eqb timerStatesId (Some child) next),
        (changed Nat.eqb settingsId (Some child) next);
        interval_simpl;
        rewrite ?intervalEffect_none; interval_simpl;
        try reflexivity;
        try (unfold next, child; cbn [setTimerMode timeRemaining]; lia). }
    split.
    - now apply settle_paused.
    - now apply settle_interval_none. }
  destruct Hgoal as [Ha Hi]. split; [exact Ha|]. split; [exact Hi|].
  destruct (tick (r, w)) as [r' w'] eqn:Et. cbn [snd] in Hi.
  unfold tick at 1. now rewrite Hi.
Qed.

End IntervalHandle.

(** ** The claims about the component *)

Section ComponentClaims.
Import PomodoroTimer Scenario.




(** C2, as the component implements it. From a paused timer showing [T]
    seconds, run any number of Start/Pause pairs; between Start and Pause
    the interval callback runs some number of times, with any wall-clock
    gaps before each run and before the Pause, provided no completion is
    reached: fewer callbacks than [T] in total, and every gap shorter than
    the time left at the end. Then the timer is paused and shows [T] minus
    the number of callbacks that ran. The wall-clock gaps do not enter the
    result. *)
Theorem C2_remaining_is_duration_minus_callbacks
  (T : Z) (c : Render * World) (cs : list (list Z * Z)) :
  Paused T c ->
  tickCount cs < T ->
  Forall (fun g => g / 1000 < T - tickCount cs) (allGaps cs) ->
  timeRemaining (fst (run (cyclesEvents cs) c)) = T - tickCount cs
  /\ isActive (fst (run (cyclesEvents cs) c)) = false.
Proof.
  intros Hp Hlt Hall.
  destruct (run_cycles cs T c Hp Hlt Hall) as (Ha & Ht & _).
  now split.
Qed.

(** Five seconds between Start and Pause during which the callback ran
    twice: 898 seconds are left. *)
Lemma C2_witness :
  timeRemaining (fst (run (cyclesEvents [([2500; 2500], 0)]) (opened settings25)))
  = 900 - 2
  /\ isActive (fst (run (cyclesEvents [([2500; 2500], 0)]) (opened settings25)))
     = false.
Proof.
  apply (C2_remaining_is_duration_minus_callbacks
           900 (opened settings25) [([2500; 2500], 0)]).
  - unfold Paused, quiet. vm_compute. repeat split; auto.
  - reflexivity.
  - repeat constructor.
Defined.

(** C2 as stated fails. Three seconds of running time leave 897 seconds in
    one Start/Pause pair with a callback every second, and 898 seconds in
    two pairs of a second and a half each; five seconds during which the
    callback ran twice leave 898. So the remaining time is not the duration
    minus the wall-clock time between Start and Pause. *)
Lemma C2_counterexample :
  runningMillis [([1000; 1000; 1000], 0)] = 3000
  /\ timeRemaining
       (fst (run (cyclesEvents [([1000; 1000; 1000], 0)]) (opened settings25)))
     = 897
  /\ runningMillis [([1000], 500); ([1000], 500)] = 3000
  /\ timeRemaining
       (fst (run (cyclesEvents [([1000], 500); ([1000], 500)]) (opened settings25)))
     = 898
  /\ ~ (forall cs,
          tickCount cs < 900 ->
          timeRemaining (fst (run (cyclesEvents cs) (opened settings25)))
          = 900 - runningMillis cs / 1000).
Proof.
  split; [reflexivity|]. split; [vm_compute; reflexivity|].
  split; [reflexivity|]. split; [vm_compute; reflexivity|].
  intros H.
  specialize (H [([2500; 2500], 0)] eq_refl).
  vm_compute in H. discriminate.
Qed.

(** What the settings effect does to an entry of [timerStates], whether or
    not the duration of its kind changed: an entry between 1 second and the
    full duration is kept; an entry below 1 second is raised to 1 and one
    above the full duration is lowered to it, with the running flag
    kept. *)
Lemma settingsEffect_clamps_entries
  (r : Render) (pw : Render * World) (mode : TimerMode) :
  let slot := get mode (timerStates r) in
  let slot' := get mode (timerStates (fst (settingsEffect r pw))) in
  let full := getDuration mode (settings r) in
  (1 <= Slot.timeRemaining slot <= full -> slot' = slot)
  /\ (Slot.timeRemaining slot < 1 <= full ->
      slot' = Slot.mk 1 (Slot.isActive slot))
  /\ (1 <= full < Slot.timeRemaining slot ->
      slot' = Slot.mk full (Slot.isActive slot)).
Proof.
  cbv zeta. rewrite settingsEffect_entry.
  split; [apply reconciled_in_range|].
  rewrite reconciled_spec.
  destruct (get mode (timerStates r)) as [tr act].
  cbn [Slot.isActive Slot.timeRemaining].
  split; intros H; f_equal.
  - assert (E : act || (tr <? getDuration mode (settings r)) = true).
    { apply orb_true_iff. right. apply Z.ltb_lt. lia. }
    rewrite E. lia.
  - destruct (act || (tr <? getDuration mode (settings r))); lia.
Qed.

(** C3, at the example of the specification. Focus runs and has 1193
    seconds left; only the short break duration is changed, from 5 to 10
    minutes. The focus entry of [timerStates] is unchanged, as every entry
    between 1 second and its full duration is, but the time the focus timer
    shows and counts down from is replaced by the long break's 900 seconds:
    the effect sets the displayed time for every kind, the last one
    last. *)
Theorem C3_unrelated_settings_edit_overwrites_focus_time :
  let before := run (seconds 307) (focusStarted settings25) in
  let after := step before (ChangeSettings settingsShort10) in
  timerMode (fst before) = Pomodoro
  /\ isActive (fst before) = true
  /\ timeRemaining (fst before) = 1193
  /\ getDuration Pomodoro settingsShort10 = getDuration Pomodoro settings25
  /\ timerMode (fst after) = Pomodoro
  /\ isActive (fst after) = true
  /\ get Pomodoro (timerStates (fst after))
     = get Pomodoro (timerStates (fst before))
  /\ timeRemaining (fst after) = 900
  /\ timeRemaining (fst after) <> timeRemaining (fst before)
  /\ timeRemaining (fst (run (seconds 1) after)) = 899.
Proof. vm_compute. repeat split; discriminate. Qed.

(** C4, at a reachable state. Start the focus timer and click the short
    break button: the short break is the active kind and the component is
    paused, yet the focus entry still has its running flag set, in
    [timerStates] and in the stored record. Press Start: two entries have
    the flag set. *)
Theorem C4_switching_leaves_stale_running_flag :
  let switched := run [Click ShortBreak] (focusStarted settings25) in
  let started := run [Toggle] switched in
  timerMode (fst switched) = ShortBreak
  /\ isActive (fst switched) = false
  /\ runningSlots (timerStates (fst switched)) = [Pomodoro]
  /\ option_map runningSlots
       (match storage (snd switched) with
        | Some s => Saved.timerStates s
        | None => None
        end) = Some [Pomodoro]
  /\ timerMode (fst started) = ShortBreak
  /\ runningSlots (timerStates (fst started)) = [Pomodoro; ShortBreak].
Proof. vm_compute. repeat split. Qed.

(** C5, at the last second of a one minute pomodoro. The interval fires
    once and React renders. The body evaluates [getSavedTimerState], which
    finds the record stored a second earlier, running with one second left,
    and sends the notification. The updater then completes the run: it
    clears the interval, sends the notification a second time and leaves
    [isActive] as it was, so the running flag is still set after the
    notification. The state it set makes React evaluate the body again: a
    third notification. The commit stores the record of a running timer
    with nothing left, and the render of the parent with the next kind
    finds it: a fourth. Afterwards the short break is selected and paused,
    the component counts one pomodoro, and a further firing changes
    nothing. In general the completing tick leaves the timer paused with no
    interval, so that a later firing does nothing; but an updater that is
    applied to the value a completing updater has returned completes, and
    notifies, again. *)
Theorem C5_one_completion_notifies_four_times :
  (let before := run (seconds 59) (focusStarted settings1) in
   let fired := run [Advance 1000] before in
   let body := renderBody (fst fired) (snd fired) in
   let done := intervalCallback (fst fired) 1 (fst fired, body) in
   let again := renderBody (fst fired) (snd done) in
   let committed :=
     commit (Some (fst fired)) (setTimerMode Pomodoro (fst done)) again in
   let after := run [Tick] fired in
   timerMode (fst before) = Pomodoro
   /\ timeRemaining (fst before) = 1
   /\ isActive (fst before) = true
   /\ pomodoroCompleted (snd before) = 0%nat
   /\ intervalRef (snd fired) = Some (fst fired)
   /\ pomodoroCompleted body = 1%nat
   /\ pomodoroCompleted (snd done) = 2%nat
   /\ intervalRef (snd done) = None
   /\ isActive (fst done) = true
   /\ pomodoroCompleted again = 3%nat
   /\ option_map (fun s => (Saved.timeRemaining s, Saved.isActive s,
                            Saved.timerMode s))
        (storage (snd committed)) = Some (0, true, Pomodoro)
   /\ pomodoroCompleted (snd committed) = 3%nat
   /\ pomodoroCompleted (snd after) = 4%nat
   /\ alarms (snd after) = 1%nat
   /\ completedPomodoros (fst after) = 1
   /\ timerMode (fst after) = ShortBreak
   /\ isActive (fst after) = false
   /\ timeouts (snd after) = []
   /\ run [Tick] after = after)
  /\ (forall r w captured,
        intervalRef w = Some captured ->
        timerMode captured = timerMode r ->
        timeRemaining r <= 1 ->
        isActive (fst (tick (r, w))) = false
        /\ intervalRef (snd (tick (r, w))) = None
        /\ tick (tick (r, w)) = tick (r, w))
  /\ (forall captured prev p w,
        timerMode captured = Pomodoro ->
        prev <= 1 ->
        let once := intervalCallback captured prev (p, w) in
        let twice := intervalCallback captured (timeRemaining (fst once)) once in
        isActive (fst once) = isActive p
        /\ pomodoroCompleted (snd once) = S (pomodoroCompleted w)
        /\ pomodoroCompleted (snd twice) = S (S (pomodoroCompleted w))).
Proof.
  split; [vm_compute; repeat split|].
  split; [exact tick_completes|].
  intros captured prev p w Hmode Hprev once twice.
  destruct (intervalCallback_completes captured prev p w Hprev)
    as (_ & Ha & Ht & _ & _ & Hn).
  fold once in Ha, Ht, Hn. rewrite Hmode in Hn. cbn [TimerMode_eqb] in Hn.
  split; [exact Ha|]. split; [exact Hn|].
  subst twice. destruct once as [p1 w1]. cbn [fst snd] in *.
  destruct (intervalCallback_completes captured (timeRemaining p1) p1 w1
              ltac:(lia)) as (_ & _ & _ & _ & _ & Hn2).
  rewrite Hmode in Hn2. cbn [TimerMode_eqb] in Hn2.
  cbv zeta in Hn2. rewrite Hn2, Hn. reflexivity.
Qed.

(** What [getSavedTimerState] returns for a record stored while running:
    the remaining time recomputed from the stored timestamp, still
    running, when time is left ... *)
Lemma getSavedTimerState_resumes (mode : TimerMode) (s : Settings) (w : World)
  (sv : Saved.t) (t : Z) :
  storage w = Some sv ->
  Saved.isActive sv = true ->
  Saved.activeTimestamp sv = Some t -> t <> 0 ->
  0 < Saved.timeRemaining sv - (now w - t) / 1000 ->
  Saved.isActive (fst (getSavedTimerState mode s w)) = true
  /\ Saved.timeRemaining (fst (getSavedTimerState mode s w))
     = Saved.timeRemaining sv - (now w - t) / 1000
  /\ Saved.activeTimestamp (fst (getSavedTimerState mode s w)) = Some (now w)
  /\ Saved.timerMode (fst (getSavedTimerState mode s w)) = Saved.timerMode sv
  /\ Saved.completedPomodoros (fst (getSavedTimerState mode s w))
     = Saved.completedPomodoros sv
  /\ snd (getSavedTimerState mode s w) = w.
Proof.
  intros Hst Hact Hts Ht Hpos. unfold getSavedTimerState.
  rewrite Hst, Hact, Hts.
  assert (E0 : (t =? 0) = false) by now apply Z.eqb_neq.
  rewrite E0. cbn [negb andb].
  assert (E : (Z.max 0 (Saved.timeRemaining sv - (now w - t) / 1000) <=? 0) = false)
    by (apply Z.leb_gt; lia).
  rewrite E. cbn [fst snd Saved.isActive Saved.timeRemaining
                  Saved.activeTimestamp Saved.timerMode Saved.completedPomodoros].
  repeat split. lia.
Qed.

(** ... and the completion, without any tick, when none is left. *)
Lemma getSavedTimerState_completes (mode : TimerMode) (s : Settings) (w : World)
  (sv : Saved.t) (t : Z) :
  storage w = Some sv ->
  Saved.isActive sv = true ->
  Saved.activeTimestamp sv = Some t -> t <> 0 ->
  Saved.timeRemaining sv - (now w - t) / 1000 <= 0 ->
  let next :=
    if TimerMode_eqb (Saved.timerMode sv) Pomodoro then
      if divides (longBreakInterval s) (Saved.completedPomodoros sv + 1)
      then LongBreak else ShortBreak
    else Pomodoro in
  Saved.isActive (fst (getSavedTimerState mode s w)) = false
  /\ Saved.timerMode (fst (getSavedTimerState mode s w)) = next
  /\ Saved.timeRemaining (fst (getSavedTimerState mode s w)) = getDuration next s
  /\ Saved.completedPomodoros (fst (getSavedTimerState mode s w))
     = (if TimerMode_eqb (Saved.timerMode sv) Pomodoro
        then Saved.completedPomodoros sv + 1 else Saved.completedPomodoros sv)
  /\ pomodoroCompleted (snd (getSavedTimerState mode s w))
     = (if TimerMode_eqb (Saved.timerMode sv) Pomodoro
        then S (pomodoroCompleted w) else pomodoroCompleted w).
Proof.
  intros Hst Hact Hts Ht Hle next. unfold getSavedTimerState.
  rewrite Hst, Hact, Hts.
  assert (E0 : (t =? 0) = false) by now apply Z.eqb_neq.
  rewrite E0. cbn [negb andb].
  assert (E : (Z.max 0 (Saved.timeRemaining sv - (now w - t) / 1000) <=? 0) = true)
    by (apply Z.leb_le; lia).
  rewrite E. subst next.
  destruct (TimerMode_eqb (Saved.timerMode sv) Pomodoro);
    cbn [fst snd Saved.isActive Saved.timeRemaining Saved.timerMode
         Saved.completedPomodoros];
    repeat split;
    match goal with
    | |- context [if negb ?b then _ else _] => destruct b; reflexivity
    end.
Qed.

(** C6, on the component. [getSavedTimerState] does what the claim says,
    but the mode change effect also runs when the component mounts and
    sets [isActive] to false: a mounted component is never running. The
    example: a focus timer with 1495 seconds left is reloaded ten seconds
    later; the loader returns it running with 1485 seconds, and the mounted
    component is paused and shows 900. A reload after the session ran out
    does complete it at once: one notification, one more completed
    pomodoro, the short break selected and not running. *)
Theorem C6_reload_pauses_a_running_timer :
  (forall mode s w, isActive (fst (mount mode s w)) = false)
  /\ (let running :=
        run (seconds 5 ++ [Advance 10000])%list (focusStarted settings25) in
      let saved := fst (getSavedTimerState Pomodoro settings25 (snd running)) in
      isActive (fst running) = true
      /\ timeRemaining (fst running) = 1495
      /\ Saved.isActive saved = true
      /\ Saved.timeRemaining saved = 1485
      /\ isActive (fst (reload running)) = false
      /\ timeRemaining (fst (reload running)) = 900
      /\ intervalRef (snd (reload running)) = None)
  /\ (let late :=
        run (seconds 5 ++ [Advance 2000000])%list (focusStarted settings25) in
      timerMode (fst (reload late)) = ShortBreak
      /\ isActive (fst (reload late)) = false
      /\ timeRemaining (fst (reload late)) = 300
      /\ completedPomodoros (fst (reload late)) = 1
      /\ pomodoroCompleted (snd (reload late)) = S (pomodoroCompleted (snd late))).
Proof.
  split; [exact mount_paused|].
  split; vm_compute; repeat split.
Qed.

Lemma TimerMode_eqb_neq (a b : TimerMode) : a <> b -> TimerMode_eqb a b = false.
Proof. destruct a, b; simpl; congruence. Qed.

(** Clicking the button of another kind never leaves the timer running. *)
Lemma clickMode_other_pauses (mode : TimerMode) (c : Render * World) :
  mode <> timerMode (fst c) -> isActive (fst (clickMode mode c)) = false.
Proof.
  destruct c as [r w]. cbn [fst]. intros Hne.
  unfold clickMode, fuel. rewrite settle_S.
  assert (E : TimerMode_eqb (timerMode r) mode = false)
    by (apply TimerMode_eqb_neq; congruence).
  assert (Es : sameRender r (setTimerMode mode r) = false).
  { unfold sameRender. cbn [timerMode setTimerMode]. now rewrite E. }
  rewrite Es. cbv zeta.
  destruct (commit (Some r) (setTimerMode mode r)
              (renderBody (setTimerMode mode r) w)) as [p w'] eqn:Ec.
  apply settle_paused. change p with (fst (p, w')).
  rewrite <- Ec, isActive_commit. unfold changed.
  cbn [timerMode setTimerMode]. now rewrite E.
Qed.

Lemma sameRender_refl (r : Render) : sameRender r r = true.
Proof.
  unfold sameRender.
  now rewrite TimerMode_eqb_refl, !Nat.eqb_refl, !Z.eqb_refl, Bool.eqb_reflx.
Qed.

(** Clicking the button of the active kind changes nothing. *)
Lemma clickMode_same_noop (r : Render) (w : World) :
  timeouts w = [] -> clickMode (timerMode r) (r, w) = (r, w).
Proof.
  intros Hto. unfold clickMode, fuel. rewrite settle_S.
  replace (setTimerMode (timerMode r) r) with r by (now destruct r).
  now rewrite sameRender_refl, Hto.
Qed.

(** C7, at the example of the specification. Focus is started at 1500
    seconds and runs for five seconds; the short break button is clicked,
    then the pomodoro button. Focus is the active kind again and is not
    running, but it shows 1500 seconds, not 1495: the five seconds are
    lost. Clicking another kind always leaves the timer paused, and
    clicking the active kind changes nothing. *)
Theorem C7_switching_away_discards_progress :
  (let running := run (seconds 5) (focusStarted settings25) in
   let back := run [Click ShortBreak; Click Pomodoro] running in
   timerMode (fst running) = Pomodoro
   /\ isActive (fst running) = true
   /\ timeRemaining (fst running) = 1495
   /\ timerMode (fst back) = Pomodoro
   /\ isActive (fst back) = false
   /\ timeRemaining (fst back) = 1500
   /\ timeRemaining (fst back) <> getDuration Pomodoro settings25 - 5)
  /\ (forall mode c,
        mode <> timerMode (fst c) -> isActive (fst (clickMode mode c)) = false)
  /\ (forall r w, timeouts w = [] -> clickMode (timerMode r) (r, w) = (r, w)).
Proof.
  split; [vm_compute; repeat split; discriminate|].
  split; [exact clickMode_other_pauses|exact clickMode_same_noop].
Qed.

End ComponentClaims.

(** ** localStorageUtils.ts: repeated validation, and saving *)

Section ValidationFacts.
Import Js LocalStorageUtils Props.

Lemma fix_json_clean (v : value) :
  exists v', snd (fixHardcodedPomodoroTime (Json v)) = Json v'
             /\ slotIs900 v' = false /\ mainIs900 v' = false
             /\ originalIs900 v' = false.
Proof.
  destruct (fix_json v) as (v' & E & Hsame & Hs & Hm & Ho & Hk & _).
  exists v'. rewrite E. split; [reflexivity|].
  assert (Hmode : getPropOpt v' "timerMode" = getPropOpt v "timerMode")
    by (apply Hk; reflexivity).
  unfold slotIs900, mainIs900, originalIs900 in *.
  rewrite Hs, Hm, Ho, Hmode.
  repeat split.
  - destruct (isNum (getPropOpt (slotOf v "pomodoro") "timeRemaining") 900) eqn:E1;
      [reflexivity | exact E1].
  - destruct (isStr (getPropOpt v "timerMode") "pomodoro"); [|reflexivity].
    cbn [andb].
    destruct (isNum (getPropOpt v "timeRemaining") 900) eqn:E1; [reflexivity | exact E1].
  - destruct (isStr (getPropOpt v "timerMode") "pomodoro"); [|reflexivity].
    cbn [andb].
    destruct (isNum (getPropOpt v "originalDuration") 900) eqn:E1; [reflexivity | exact E1].
Qed.

Lemma fix_stable (stored : item) :
  fixHardcodedPomodoroTime (snd (fixHardcodedPomodoroTime stored))
  = (false, snd (fixHardcodedPomodoroTime stored)).
Proof.
  destruct stored as [| |v]; try reflexivity.
  destruct (fix_json_clean v) as (v' & E & H1 & H2 & H3).
  rewrite E.
  destruct (fix_json v') as (v'' & E' & Hsame & _).
  rewrite H1, H2, H3 in E', Hsame. cbn [orb] in *.
  rewrite E', (Hsame eq_refl). reflexivity.
Qed.

(** X1. [fixHardcodedPomodoroTime] is idempotent: whatever is stored
    under the timer key, a second call right after the first finds none of
    the three 900 second values, returns false and leaves the key as the
    first call left it; and what the first call leaves passes none of the
    three tests. *)
Theorem fixHardcodedPomodoroTime_second_run_finds_nothing :
  (forall stored,
     fixHardcodedPomodoroTime (snd (fixHardcodedPomodoroTime stored))
     = (false, snd (fixHardcodedPomodoroTime stored)))
  /\ (forall v, exists v',
        snd (fixHardcodedPomodoroTime (Json v)) = Json v'
        /\ slotIs900 v' = false /\ mainIs900 v' = false
        /\ originalIs900 v' = false).
Proof. split; [exact fix_stable | exact fix_json_clean]. Qed.

Lemma asSettings_getSettings_now (loaded now now' : Z) (stored : item) :
  asSettings (getSettings loaded now stored)
  = asSettings (getSettings loaded now' stored).
Proof.
  unfold getSettings, getSettings_body.
  destruct stored as [| |v]; try reflexivity.
  destruct (getProp v "timerDurations") as [td|]; [|reflexivity].
  cbn [bind]. destruct (negb (truthy td)); [reflexivity|].
  destruct (getProp td "pomodoro") as [p|]; [|reflexivity].
  cbn [bind]. destruct p; try reflexivity.
  destruct ((n <? 1) || (n >? 60)); reflexivity.
Qed.

Lemma validate_body_fixed (loaded now now' : Z) (st : Store) (settings : Settings) :
  validateLocalStorage_body loaded now' (fixedStore st) settings
  = validateLocalStorage_body loaded now st settings.
Proof.
  unfold validateLocalStorage_body, fixedStore.
  cbn [pomoSpaceTimerState pomoSpaceSettings].
  rewrite fix_stable.
  destruct (fixHardcodedPomodoroTime (pomoSpaceTimerState st)) as [f ti].
  reflexivity.
Qed.

Lemma validate_body_cases (loaded now : Z) (st : Store) (settings : Settings) r :
  validateLocalStorage_body loaded now st settings = Some r ->
  r = (false, resetLocalStorage loaded st) \/ r = (true, fixedStore st).
Proof.
  unfold validateLocalStorage_body, fixedStore.
  destruct (fixHardcodedPomodoroTime (pomoSpaceTimerState st)) as [f ti].
  cbn [snd].
  set (ts := getTimerState "pomodoro" settings ti).
  destruct (getProp ts "timerMode") as [mode|]; [|discriminate]. cbn [bind].
  destruct (isStr mode "pomodoro"); [|intros [= <-]; now right].
  destruct (getProp ts "isActive") as [a|]; [|discriminate]. cbn [bind].
  destruct (negb (truthy a)); [|intros [= <-]; now right].
  destruct (getProp ts "timerStates") as [tss|]; [|discriminate]. cbn [bind].
  destruct (getProp tss "pomodoro") as [slot|]; [|discriminate]. cbn [bind].
  destruct (getProp slot "timeRemaining") as [rem|]; [|discriminate]. cbn [bind].
  destruct (negb (isNum rem (pomodoro settings * 60))); intros [= <-];
    [now left | now right].
Qed.

Lemma validate_reset (loaded now : Z) (st : Store) :
  validateLocalStorage loaded now (resetLocalStorage loaded st)
  = Some (true, resetLocalStorage loaded st).
Proof. reflexivity. Qed.

(** X2. [validateLocalStorage] settles the store in one run. When
    it returns true the store is the one it was given with the timer
    record as [fixHardcodedPomodoroTime] leaves it; when it returns false
    the store is the one [resetLocalStorage] writes. In both cases a
    second validation, at any later time, returns true and changes
    nothing. In particular a store that was just reset validates. *)
Theorem validateLocalStorage_settles_the_store
  (loaded now now' : Z) (st st' : Store) (b : bool) :
  validateLocalStorage loaded now st = Some (b, st') ->
  (b = true -> st' = fixedStore st)
  /\ (b = false -> st' = resetLocalStorage loaded st)
  /\ validateLocalStorage loaded now' st' = Some (true, st')
  /\ validateLocalStorage loaded now' (resetLocalStorage loaded st)
     = Some (true, resetLocalStorage loaded st).
Proof.
  unfold validateLocalStorage at 1.
  destruct (asSettings (getSettings loaded now (pomoSpaceSettings st)))
    as [settings|] eqn:Es; [|discriminate].
  intros [= H].
  assert (Hcases :
            (b, st') = (false, resetLocalStorage loaded st)
            \/ (validateLocalStorage_body loaded now st settings
                = Some (true, fixedStore st)
                /\ (b, st') = (true, fixedStore st))).
  { destruct (validateLocalStorage_body loaded now st settings) as [r|] eqn:Eb;
      cbn [tryCatch] in H.
    - destruct (validate_body_cases _ _ _ _ _ Eb) as [-> | ->].
      + left. now rewrite <- H.
      + right. split; [reflexivity|]. now rewrite <- H.
    - left. now rewrite <- H. }
  destruct Hcases as [[= -> ->] | [Hb [= -> ->]]].
  - split; [discriminate|]. split; [reflexivity|].
    split; apply validate_reset.
  - split; [reflexivity|]. split; [discriminate|].
    split; [|apply validate_reset].
    unfold validateLocalStorage.
    change (pomoSpaceSettings (fixedStore st)) with (pomoSpaceSettings st).
    rewrite (asSettings_getSettings_now loaded now' now), Es.
    rewrite (validate_body_fixed loaded now now'), Hb. reflexivity.
Qed.

(** The store of a 15 minute configuration: the first run rewrites the
    record, the second accepts what the first left. *)
Lemma validateLocalStorage_settles_witness :
  validateLocalStorage 0 7 (fixedStore store15) = Some (true, fixedStore store15).
Proof.
  apply (validateLocalStorage_settles_the_store 0 0 7 store15 (fixedStore store15) true).
  reflexivity.
Defined.

End ValidationFacts.

Section SaveFacts.
Import Js LocalStorageUtils Props.

Lemma orElse_num (n d : Z) : orElse (VNum n) (VNum d) = VNum (numOr n d).
Proof. unfold orElse, numOr, truthy. now destruct (n =? 0). Qed.

Lemma orElse_str (s d : string) : orElse (VStr s) (VStr d) = VStr (strOr s d).
Proof. unfold orElse, strOr, truthy. now destruct (String.eqb s ""). Qed.

Lemma orElse_false (b : bool) : orElse (VBool b) (VBool false) = VBool b.
Proof. now destruct b. Qed.

(** X3. What [getSettings] returns after [saveSettings]. The
    pomodoro duration that was saved, and is read back, is the one given
    if it lies between 1 and 60 and 25 otherwise; [saveSettings] leaves
    every other member as it was, but [getSettings] reads back a member
    that is zero or empty as its default: a break of 0 minutes comes back
    as 5 or 15, an interval of 0 as 4, an alarm volume of 0 as 80, a
    ticking volume of 0 as 50, a repeat count of 0 as 1, and an empty
    sound name as 'kitty' or 'none'; the two auto-start flags and
    [darkMode] come back as saved, [lastUpdated] is the time of the save. *)
Theorem saveSettings_then_getSettings
  (loaded now now' : Z) (s : AppSettings) (st : Store) :
  let p := pomodoro (timing s) in
  let p' := if (1 <=? p) && (p <=? 60) then p else 25 in
  timing (fst (saveSettings now s st))
  = mkSettings p' (shortBreak (timing s)) (longBreak (timing s))
               (longBreakInterval (timing s))
  /\ getSettings loaded now' (pomoSpaceSettings (snd (saveSettings now s st)))
     = settingsObject
         (mkAppSettings
            (mkSettings p' (numOr (shortBreak (timing s)) 5)
                        (numOr (longBreak (timing s)) 15)
                        (numOr (longBreakInterval (timing s)) 4))
            (autoStartBreaks s) (autoStartPomodoros s) (darkMode s)
            (mkSound (strOr (alarmSound (sound s)) "kitty")
                     (numOr (alarmVolume (sound s)) 80)
                     (numOr (alarmRepeat (sound s)) 1)
                     (strOr (tickingSound (sound s)) "none")
                     (numOr (tickingVolume (sound s)) 50))
            (Some (numOr now now'))).
Proof.
  intros p p'.
  destruct s as [[pm sb lb lbi] asb asp dm [asnd av ar tsnd tv] lu].
  cbn [timing pomodoro shortBreak longBreak longBreakInterval autoStartBreaks
       autoStartPomodoros darkMode sound alarmSound alarmVolume alarmRepeat
       tickingSound tickingVolume] in *.
  unfold saveSettings.
  cbn [timing pomodoro shortBreak longBreak longBreakInterval autoStartBreaks
       autoStartPomodoros darkMode sound alarmSound alarmVolume alarmRepeat
       tickingSound tickingVolume lastUpdated].
  assert (Hp : ((pm =? 0) || (pm <? 1) || (pm >? 60))
               = negb ((1 <=? pm) && (pm <=? 60))).
  { destruct (pm =? 0) eqn:E0, (pm <? 1) eqn:E1, (pm >? 60) eqn:E2,
             (1 <=? pm) eqn:E3, (pm <=? 60) eqn:E4; try reflexivity; lia. }
  rewrite Hp. subst p p'.
  assert (Hrange : 1 <= (if (1 <=? pm) && (pm <=? 60) then pm else 25) <= 60).
  { destruct (1 <=? pm) eqn:E3, (pm <=? 60) eqn:E4; cbn [andb]; lia. }
  set (q := if (1 <=? pm) && (pm <=? 60) then pm else 25) in *.
  assert (Hq : timing (if negb ((1 <=? pm) && (pm <=? 60))
                 then mkAppSettings (mkSettings 25 sb lb lbi) asb asp dm
                        (mkSound asnd av ar tsnd tv) lu
                 else mkAppSettings (mkSettings pm sb lb lbi) asb asp dm
                        (mkSound asnd av ar tsnd tv) lu)
               = mkSettings q sb lb lbi).
  { subst q. now destruct ((1 <=? pm) && (pm <=? 60)). }
  split.
  - cbn [fst timing]. exact Hq.
  - unfold saveTimerState.
    match goal with
    | |- context [saveTimerState_body ?a ?b] => destruct (saveTimerState_body a b)
    end; cbn [snd pomoSpaceSettings].
    all: match goal with
         | |- context [if ?c then ?a else ?b] =>
             replace (if c then a else b)
               with (mkAppSettings (mkSettings q sb lb lbi) asb asp dm
                       (mkSound asnd av ar tsnd tv) lu)
               by (subst q; now destruct ((1 <=? pm) && (pm <=? 60)))
         end.
    all: cbn [timing autoStartBreaks autoStartPomodoros darkMode sound].
    all: unfold getSettings, getSettings_body, settingsObject;
      cbn [stringified timing pomodoro shortBreak longBreak longBreakInterval
           autoStartBreaks autoStartPomodoros darkMode sound alarmSound
           alarmVolume alarmRepeat tickingSound tickingVolume lastUpdated
           getProp getPropOpt lookup String.eqb Ascii.eqb Bool.eqb bind truthy negb
           isUndef].
    all: assert (Hv : ((q <? 1) || (q >? 60)) = false)
        by (destruct (q <? 1) eqn:A, (q >? 60) eqn:B; try reflexivity; lia);
      rewrite Hv; cbn [tryCatch];
      rewrite !orElse_num, !orElse_str, !orElse_false.
    all: assert (Hqq : numOr q 25 = q)
        by (unfold numOr; destruct (q =? 0) eqn:A; [lia|reflexivity]);
      rewrite Hqq; reflexivity.
Qed.

Lemma truthy_stringified (v : value) : truthy (stringified v) = truthy v.
Proof. destruct v; reflexivity. Qed.











End SaveFacts.

(** ** The display of the time left *)

Section DisplayFacts.
Import Ascii Decimal DecimalString DecimalZ DecimalPos.
Import PomodoroTimer Props.

Lemma toString_nonneg (m : Z) :
  0 <= m ->
  exists u, u <> Nil /\ toString m = NilEmpty.string_of_uint u /\ Z.of_uint u = m.
Proof.
  intros Hm. unfold toString. destruct m as [|p|p]; [| |lia].
  - exists (D0 Nil). repeat split. discriminate.
  - exists (Pos.to_uint p). pose proof (Unsigned.to_uint_nonnil p) as Hn.
    repeat split; [exact Hn | |].
    + cbn [Z.to_int NilZero.string_of_int]. unfold NilZero.string_of_uint.
      destruct (Pos.to_uint p); [now destruct Hn | reflexivity ..].
    + change (Z.of_uint (Pos.to_uint p)) with (Z.of_int (Z.to_int (Z.pos p))).
      apply of_to.
Qed.

Lemma readNumber_zeros (k : nat) (u : uint) :
  u <> Nil ->
  readNumber (zeros k ++ NilEmpty.string_of_uint u) = Some (Z.of_uint u).
Proof.
  intros Hu. unfold readNumber.
  assert (H : NilZero.int_of_string (zeros k ++ NilEmpty.string_of_uint u)
              = Some (Pos (Nat.iter k D0 u))).
  { assert (Hne : forall k, NilEmpty.uint_of_string (zeros k ++ NilEmpty.string_of_uint u)
                            = Some (Nat.iter k D0 u)).
    { clear k. induction k as [|k IH]; cbn [zeros append Nat.iter].
      - apply NilEmpty.usu.
      - cbn [NilEmpty.uint_of_string]. rewrite IH. reflexivity. }
    destruct k as [|k].
    - cbn [zeros append Nat.iter].
      assert (Hs : NilEmpty.string_of_uint u = NilZero.string_of_int (Pos u)).
      { cbn. unfold NilZero.string_of_uint. destruct u; [now destruct Hu | reflexivity ..]. }
      rewrite Hs. apply NilZero.isi; [intros [= E]; now apply Hu | discriminate].
    - specialize (Hne (S k)). cbn [zeros append] in *.
      unfold NilZero.int_of_string.
      change (Ascii.eqb "0" "-") with false. cbv iota.
      unfold NilZero.uint_of_string. rewrite Hne. reflexivity. }
  rewrite H. cbn [option_map Z.of_int]. f_equal. clear H.
  induction k as [|k IH]; [reflexivity|].
  cbn [Nat.iter]. rewrite <- IH. reflexivity.
Qed.

Lemma readNumber_padStart0 (w : nat) (m : Z) :
  0 <= m -> readNumber (padStart0 w (toString m)) = Some m.
Proof.
  intros Hm. destruct (toString_nonneg m Hm) as (u & Hu & -> & <-).
  unfold padStart0. now apply readNumber_zeros.
Qed.

Lemma length_append (a b : string) :
  String.length (a ++ b) = (String.length a + String.length b)%nat.
Proof.
  induction a as [|c a IH]; cbn [append String.length];
    [reflexivity | now rewrite IH].
Qed.

Lemma append_inj_length (a a' b b' : string) :
  (a ++ b = a' ++ b')%string -> String.length b = String.length b' ->
  a = a' /\ b = b'.
Proof.
  revert a'. induction a as [|c a IH]; intros a' H Hl.
  - destruct a' as [|c' a']; [now split|].
    cbn [append] in H. subst b. cbn [String.length] in Hl.
    rewrite length_append in Hl. lia.
  - destruct a' as [|c' a'].
    + cbn [append] in H. subst b'. cbn [String.length] in Hl.
      rewrite length_append in Hl. lia.
    + cbn [append] in H. injection H as -> H.
      destruct (IH a' H Hl) as [-> ->]. now split.
Qed.

Lemma below_100 (P : Z -> Prop) (f : Z -> bool) :
  (forall z, f z = true -> P z) ->
  forallb f (map Z.of_nat (seq 0 100)) = true ->
  forall z, 0 <= z < 100 -> P z.
Proof.
  intros Hf Hall z Hz. apply Hf.
  rewrite forallb_forall in Hall. apply Hall.
  apply in_map_iff. exists (Z.to_nat z). split; [lia|].
  apply in_seq. lia.
Qed.

Lemma field_length (z : Z) :
  0 <= z < 100 -> String.length (padStart0 2 (toString z)) = 2%nat.
Proof.
  revert z.
  apply (below_100 (fun z => String.length (padStart0 2 (toString z)) = 2%nat)
           (fun z => Nat.eqb (String.length (padStart0 2 (toString z))) 2)).
  - intros z' H. now apply Nat.eqb_eq.
  - vm_compute. reflexivity.
Qed.

Lemma negative_field (z : Z) :
  -100 < z < 0 -> padStart0 2 (toString z) = toString z.
Proof.
  intros Hz. replace z with (- (- z)) by lia.
  assert (H : forall y, 0 <= y < 100 ->
                y <> 0 -> padStart0 2 (toString (- y)) = toString (- y)).
  { apply (below_100 (fun y => y <> 0 -> padStart0 2 (toString (- y)) = toString (- y))
             (fun y => (y =? 0)
                       || String.eqb (padStart0 2 (toString (- y))) (toString (- y))));
      [| vm_compute; reflexivity].
    intros y H Hy. apply orb_true_iff in H as [H|H]; [lia|]. now apply String.eqb_eq. }
  apply H; lia.
Qed.

(** X5. [formatTime] of a whole number of seconds. Up to 99:59 the display
    has exactly five characters. For every whole number of seconds from 0 to
    9007199254740991 (the largest safe integer, below which the division,
    the rounding and the remainder are exact and every digit is printed) it
    is a minutes field, a colon and a two character seconds field that read
    back as the whole minutes and the seconds beyond them, so two different
    times in that range never display alike. Between -59 and -1 the display
    is -1: followed by the negative number of seconds (for instance -1:-5),
    since the minutes are rounded down and the remainder keeps its sign. *)
Theorem formatTime_displays_minutes_and_seconds :
  (forall s, 0 <= s < 6000 -> String.length (formatTime s) = 5%nat)
  /\ (forall s, 0 <= s <= 9007199254740991 ->
        exists mm ss,
          formatTime s = (mm ++ ":" ++ ss)%string
          /\ String.length ss = 2%nat
          /\ readNumber mm = Some (s / 60)
          /\ readNumber ss = Some (s mod 60))
  /\ (forall a b,
        0 <= a <= 9007199254740991 -> 0 <= b <= 9007199254740991 ->
        formatTime a = formatTime b -> a = b)
  /\ (forall s, -60 < s < 0 -> formatTime s = ("-1:" ++ toString s)%string).
Proof.
  assert (Hfields : forall s, 0 <= s ->
            String.length (padStart0 2 (toString (Z.rem s 60))) = 2%nat
            /\ readNumber (padStart0 2 (toString (s / 60))) = Some (s / 60)
            /\ readNumber (padStart0 2 (toString (Z.rem s 60))) = Some (s mod 60)).
  { intros s Hs. rewrite Z.rem_mod_nonneg by lia.
    pose proof (Z.mod_pos_bound s 60 ltac:(lia)) as Hr.
    repeat split.
    - apply field_length. lia.
    - apply readNumber_padStart0. apply Z.div_pos; lia.
    - apply readNumber_padStart0. lia. }
  repeat split.
  - intros s Hs. unfold formatTime.
    rewrite !length_append.
    destruct (Hfields s ltac:(lia)) as (Hl & _). rewrite Hl.
    rewrite field_length.
    + reflexivity.
    + split; [apply Z.div_pos; lia | apply Z.div_lt_upper_bound; lia].
  - intros s [Hs _]. destruct (Hfields s Hs) as (Hl & Hm & Hr).
    exists (padStart0 2 (toString (s / 60))), (padStart0 2 (toString (Z.rem s 60))).
    now repeat split.
  - intros a b [Ha _] [Hb _] H. unfold formatTime in H.
    destruct (Hfields a Ha) as (Hla & Hma & Hra).
    destruct (Hfields b Hb) as (Hlb & Hmb & Hrb).
    apply append_inj_length in H as [Hm H].
    + cbn [append] in H. injection H as H.
      rewrite Hm in Hma. rewrite H in Hra.
      rewrite Hma in Hmb. rewrite Hra in Hrb.
      injection Hmb as Hmb. injection Hrb as Hrb.
      rewrite (Z.div_mod a 60), (Z.div_mod b 60) by lia. lia.
    + cbn [append String.length]. now rewrite Hla, Hlb.
  - intros s Hs. unfold formatTime.
    assert (Hq : s / 60 = -1).
    { symmetry. apply (Z.div_unique s 60 (-1) (s + 60)); lia. }
    assert (Hr : Z.rem s 60 = s) by (apply Z.rem_small_iff; lia).
    rewrite Hq, Hr, !negative_field by lia. reflexivity.
Qed.

(** Twenty minutes and five seconds: five characters, and the largest safe
    integer is displayed otherwise. *)
Lemma formatTime_witness :
  formatTime 1205 = "20:05"
  /\ String.length (formatTime 1205) = 5%nat
  /\ formatTime 1205 <> formatTime 9007199254740991.
Proof.
  split; [reflexivity|]. split.
  - apply (proj1 formatTime_displays_minutes_and_seconds 1205). lia.
  - intros H.
    apply (proj1 (proj2 (proj2 formatTime_displays_minutes_and_seconds))
             1205 9007199254740991) in H; lia.
Defined.

End DisplayFacts.

(** ** The reset button of the component *)

Section LegacyReset.
Import PomodoroTimer Scenario.
#[local] Opaque settle.

Ltac eqbs :=
  rewrite ?Z.eqb_refl, ?Nat.eqb_refl, ?TimerMode_eqb_refl, ?Bool.eqb_reflx.

(** X6. The reset button of the component that keeps the
    timer state itself (it is shown while the timer runs). The timer is
    stopped and shows the full duration its kind has in the current
    settings; no interval and no timeout is left. The entry of the kind in
    [timerStates] and the stored record hold that full duration and are
    not active; the other entries, the kind and the count of completed
    pomodoros are as before. *)
Theorem resetTimer_stops_at_full_duration (T age : Z) (c : Render * World) :
  Running T age c -> 0 < T - age / 1000 ->
  let full := getDuration (timerMode (fst c)) (settings (fst c)) in
  let c' := resetTimer c in
  Paused full c'
  /\ timerMode (fst c') = timerMode (fst c)
  /\ completedPomodoros (fst c') = completedPomodoros (fst c)
  /\ get (timerMode (fst c)) (timerStates (fst c')) = Slot.mk full false
  /\ (forall m, m <> timerMode (fst c) ->
        get m (timerStates (fst c')) = get m (timerStates (fst c)))
  /\ (exists s, storage (snd c') = Some s
                /\ Saved.timeRemaining s = full
                /\ Saved.isActive s = false
                /\ Saved.timerMode s = timerMode (fst c)).
Proof.
  destruct c as [r w]. unfold Running. simpl.
  intros (Hact & HT & (cap & Hint) & Hto & Hid & sv & Hst & Hsa & Hstr & Hts) Hage.
  unfold resetTimer, fuel.
  destruct r as [m s sid tr act cp ts tsid].
  destruct w as [st iv tos pc al nw nid].
  simpl in *. subst tr act st tos iv.
  rewrite settle_S. unfold sameRender, setIsActive, setTimeRemaining. simpl. eqbs.
  rewrite ?andb_false_r. simpl.
  rewrite renderBody_inert.
  2:{ simpl. right. exists (nw - age). split; [exact Hts|].
      replace (nw - (nw - age)) with age by lia. rewrite Hstr. lia. }
  unfold commit, changed. simpl. eqbs. simpl.
  unfold intervalEffect, updateTimerState, setItem, setIntervalRef, clearInterval.
  simpl. rewrite ?orb_true_r. simpl.
  rewrite settle_S. unfold sameRender. simpl. eqbs. rewrite (neq_eqb _ _ Hid).
  simpl.
  rewrite renderBody_inert by (simpl; auto).
  unfold commit, changed. simpl. eqbs. rewrite (neq_eqb _ _ Hid). simpl.
  rewrite settle_S. unfold sameRender. simpl. eqbs. simpl.
  unfold Paused, quiet. simpl. repeat split; auto.
  - destruct m; reflexivity.
  - intros m' Hm'. destruct m, m'; try reflexivity; now destruct Hm'.
  - eexists. repeat split; reflexivity.
Qed.

(** Reset five seconds into a 25 minute pomodoro. *)
Lemma resetTimer_witness :
  let c' := resetTimer (run (seconds 5) (focusStarted settings25)) in
  timeRemaining (fst c') = 1500 /\ isActive (fst c') = false.
Proof.
  intros c'.
  destruct (resetTimer_stops_at_full_duration 1495 0
              (run (seconds 5) (focusStarted settings25)))
    as ((Hact & Htr & _) & _).
  - unfold Running. vm_compute. repeat split; try reflexivity.
    + eexists. reflexivity.
    + eexists. repeat split; reflexivity.
  - vm_compute. reflexivity.
  - split; [exact Htr | exact Hact].
Defined.
End LegacyReset.

(** ** The [useTimer] hook and its component

    Equality tests, and the first steps of the render loop. *)

Section HookBasics.
Import UseTimer HookScenario.

Lemma hook_settle_S f cur next w :
  settle (S f) cur next w
  = if sameRender cur next then (cur, w)
    else let '(p, w) := commit (Some cur) next w in settle f next p w.
Proof. reflexivity. Qed.

Lemma TimerType_eqb_eq (a b : TimerType) : TimerType_eqb a b = true <-> a = b.
Proof. destruct a, b; cbn; split; congruence. Qed.

Lemma TimerType_eqb_refl (a : TimerType) : TimerType_eqb a a = true.
Proof. now destruct a. Qed.

Lemma TimerType_eqb_neq (a b : TimerType) : a <> b -> TimerType_eqb a b = false.
Proof. destruct a, b; cbn; congruence. Qed.

Lemma stamp_eqb_eq (a b : option Z) : stamp_eqb a b = true <-> a = b.
Proof.
  destruct a as [x|], b as [y|]; cbn; try (split; congruence).
  rewrite Z.eqb_eq. split; congruence.
Qed.

Lemma TimerState_eqb_eq (a b : TimerState) : TimerState_eqb a b = true <-> a = b.
Proof.
  destruct a as [s1 d1 e1 r1], b as [s2 d2 e2 r2]. unfold TimerState_eqb. cbn.
  rewrite !andb_true_iff, stamp_eqb_eq, !Z.eqb_eq, Bool.eqb_true_iff.
  split; [intros [[[-> ->] ->] ->]; reflexivity | intros [= -> -> -> ->]; auto].
Qed.

Lemma AllTimerStates_eqb_eq (a b : AllTimerStates) :
  AllTimerStates_eqb a b = true <-> a = b.
Proof.
  destruct a as [[p1 s1 l1] t1 c1], b as [[p2 s2 l2] t2 c2].
  unfold AllTimerStates_eqb. cbn.
  rewrite !andb_true_iff, !TimerState_eqb_eq, TimerType_eqb_eq, Z.eqb_eq.
  split; [intros [[[[-> ->] ->] ->] ->]; reflexivity | intros [= -> -> -> -> ->]; auto].
Qed.

Lemma hook_sameRender_refl (a : Render) : sameRender a a = true.
Proof.
  unfold sameRender.
  rewrite TimerType_eqb_refl, Nat.eqb_refl, Z.eqb_refl.
  rewrite (proj2 (stamp_eqb_eq _ _) eq_refl).
  rewrite (proj2 (AllTimerStates_eqb_eq _ _) eq_refl). reflexivity.
Qed.

Lemma hook_sameRender_timers (a b : Render) :
  allTimers a <> allTimers b -> sameRender a b = false.
Proof.
  intros H. unfold sameRender.
  destruct (AllTimerStates_eqb (allTimers a) (allTimers b)) eqn:E.
  - apply AllTimerStates_eqb_eq in E. contradiction.
  - now rewrite !andb_false_r.
Qed.

Lemma hook_sameRender_time (a b : Render) :
  timeRemaining a <> timeRemaining b -> sameRender a b = false.
Proof.
  intros H. unfold sameRender.
  apply Z.eqb_neq in H. rewrite H. now rewrite !andb_false_r.
Qed.

Lemma hook_sameRender_mode (a b : Render) :
  timerMode a <> timerMode b -> sameRender a b = false.
Proof.
  intros H. unfold sameRender. now rewrite (TimerType_eqb_neq _ _ H).
Qed.

Lemma hook_sameRender_id (a b : Render) :
  settingsId a <> settingsId b -> sameRender a b = false.
Proof.
  intros H. unfold sameRender. apply Nat.eqb_neq in H. rewrite H.
  now rewrite !andb_false_r.
Qed.

#[local] Opaque settle.

Ltac heqbs :=
  rewrite ?Z.eqb_refl, ?Nat.eqb_refl, ?TimerType_eqb_refl, ?Bool.eqb_reflx,
    ?(proj2 (stamp_eqb_eq _ _) eq_refl).

Lemma stamp_eqb_refl (a : option Z) : stamp_eqb a a = true.
Proof. now apply stamp_eqb_eq. Qed.

Lemma hook_toggle_start (D E : Z) (c : Render * World) :
  Idle D E c -> now (snd c) - E * 1000 <> 0 ->
  Running D (now (snd c) - E * 1000) (toggleTimer c)
  /\ elapsed (activeTimer (allTimers (fst (toggleTimer c)))) = E
  /\ timeRemaining (fst (toggleTimer c)) = timeRemaining (fst c)
  /\ now (snd (toggleTimer c)) = now (snd c).
Proof.
  destruct c as [r w]. unfold Idle, AtRest. cbn [fst snd].
  intros (Hrest & HD & HE & Hrun & Href) Hstamp.
  destruct r as [m s sid lu [[tp tsb tl] k cp] tr].
  destruct w as [st iv done nw nid].
  destruct tp as [ps pd pe pr], tsb as [ss sd se sr], tl as [ls ld le lr].
  destruct k; cbn in Hrest, HD, HE, Hrun, Href, Hstamp; subst.
  all: unfold toggleTimer, fuel; cbn -[Z.mul Z.sub Z.div].
  all: rewrite hook_settle_S, hook_sameRender_timers by (cbn; intros [= ?]).
  all: unfold commit; cbn -[Z.mul Z.sub Z.div]; heqbs; cbn -[Z.mul Z.sub Z.div].
  all: rewrite hook_settle_S, hook_sameRender_refl.
  all: unfold Running, AtRest; cbn -[Z.mul Z.sub Z.div].
  all: repeat split; auto.
  all: eexists; repeat split; reflexivity.
Qed.

Ltac hook_destruct c r w :=
  destruct c as [r w];
  let m := fresh "m" in let s := fresh "s" in let sid := fresh "sid" in
  let lu := fresh "lu" in let tp := fresh "tp" in let tsb := fresh "tsb" in
  let tl := fresh "tl" in let k := fresh "k" in let cp := fresh "cp" in
  let tr := fresh "tr" in
  destruct r as [m s sid lu [[tp tsb tl] k cp] tr];
  let st := fresh "st" in let iv := fresh "iv" in let done := fresh "done" in
  let nw := fresh "nw" in let nid := fresh "nid" in
  destruct w as [st iv done nw nid];
  destruct tp as [? ? ? ?], tsb as [? ? ? ?], tl as [? ? ? ?].

Lemma hook_tick_running (D S : Z) (c : Render * World) :
  Running D S c -> 0 < D - (now (snd c) - S) / 1000 ->
  Running D S (tick c)
  /\ timeRemaining (fst (tick c)) = D - (now (snd c) - S) / 1000
  /\ now (snd (tick c)) = now (snd c).
Proof.
  destruct c as [r w]. destruct r as [m s sid lu a tr].
  destruct w as [st iv done nw nid].
  unfold Running, AtRest. cbn [fst snd timerMode allTimers timerIntervalRef now].
  intros (Hrest & HD & HS & HS0 & Hrun & cap & Href & Hcap & Hset) Hpos.
  unfold tick. cbn [timerIntervalRef]. rewrite Href.
  unfold intervalCallback. rewrite Hcap.
  assert (Hcalc : calculateTimeRemaining nw (activeTimer a) = D - (nw - S) / 1000).
  { unfold calculateTimeRemaining. rewrite HS, Hrun, HD.
    cbn [negb orb]. apply Z.eqb_neq in HS0. rewrite HS0. cbv zeta. lia. }
  cbn [snd now]. rewrite Hcalc.
  destruct (D - (nw - S) / 1000 <=? 0) eqn:E; [apply Z.leb_le in E; lia|].
  cbn [setTimeRemaining timerMode settings settingsId settingsLastUpdated allTimers].
  unfold fuel.
  destruct (Z.eq_dec tr (D - (nw - S) / 1000)) as [Heq|Hne].
  - rewrite hook_settle_S, Heq, hook_sameRender_refl.
    unfold Running, AtRest. cbn [fst snd timerMode allTimers timeRemaining timerIntervalRef now].
    repeat split; auto. exists cap. repeat split; auto.
  - rewrite hook_settle_S, hook_sameRender_time by (cbn; exact Hne).
    unfold commit, intervalDepsChanged, settingsDepsChanged, timerModeEffect.
    cbn [allTimers settingsId settingsLastUpdated timerMode].
    rewrite Hrest. heqbs. rewrite ?stamp_eqb_refl. cbn [negb andb].
    rewrite hook_settle_S, hook_sameRender_refl.
    unfold Running, AtRest. cbn [fst snd timerMode allTimers timeRemaining timerIntervalRef now].
    repeat split; auto. exists cap. repeat split; auto.
Qed.

Lemma hook_advance_running (D S d : Z) (c : Render * World) :
  Running D S c -> Running D S (advance d c).
Proof. destruct c as [r w]. unfold Running, AtRest, advance. cbn. tauto. Qed.

Lemma hook_advance_idle (D E d : Z) (c : Render * World) :
  Idle D E c -> Idle D E (advance d c).
Proof. destruct c as [r w]. unfold Idle, AtRest, advance. cbn. tauto. Qed.

Lemma hook_toggle_pause (D S : Z) (c : Render * World) :
  Running D S c ->
  Idle D ((now (snd c) - S) / 1000) (toggleTimer c)
  /\ timeRemaining (fst (toggleTimer c)) = timeRemaining (fst c)
  /\ now (snd (toggleTimer c)) = now (snd c).
Proof.
  hook_destruct c r w. unfold Running, AtRest. cbn [fst snd].
  intros (Hrest & HD & HS & HS0 & Hrun & cap & Href & Hcap & Hset).
  destruct k; cbn in Hrest, HD, HS, Hrun, Href; subst.
  all: unfold toggleTimer, fuel; cbn -[Z.mul Z.sub Z.div].
  all: apply Z.eqb_neq in HS0; rewrite HS0.
  all: rewrite hook_settle_S, hook_sameRender_timers by (cbn; intros [= ?]).
  all: unfold commit; cbn -[Z.mul Z.sub Z.div]; heqbs; cbn -[Z.mul Z.sub Z.div].
  all: rewrite hook_settle_S, hook_sameRender_refl.
  all: unfold Idle, AtRest; cbn -[Z.mul Z.sub Z.div].
  all: repeat split; auto.
Qed.

Lemma hook_run_app (es1 es2 : list Event) (c : Render * World) :
  run (es1 ++ es2) c = run es2 (run es1 c).
Proof. unfold run. apply fold_left_app. Qed.

Lemma sum_app (a b : list Z) : sum (a ++ b) = sum a + sum b.
Proof. unfold sum. induction a as [|x a IH]; cbn [app fold_right]; lia. Qed.

Lemma sum_nonneg (l : list Z) : Forall (fun g => 0 <= g) l -> 0 <= sum l.
Proof. unfold sum. induction 1; cbn [fold_right]; lia. Qed.

Lemma hook_run_ticks (gaps : list Z) (D S : Z) (c : Render * World) :
  Running D S c ->
  Forall (fun g => 0 <= g) gaps ->
  0 < D - (now (snd c) + sum gaps - S) / 1000 ->
  Running D S (run (tickEvents gaps) c)
  /\ now (snd (run (tickEvents gaps) c)) = now (snd c) + sum gaps
  /\ (gaps <> [] ->
      timeRemaining (fst (run (tickEvents gaps) c))
      = D - (now (snd c) + sum gaps - S) / 1000).
Proof.
  revert c. induction gaps as [|g gaps IH]; intros c Hrun Hall Hpos.
  - cbn [tickEvents flat_map run fold_left sum fold_right].
    split; [exact Hrun | split; [lia | congruence]].
  - inversion Hall as [|? ? Hg Hrest]; subst.
    change (tickEvents (g :: gaps)) with ([Advance g; Tick] ++ tickEvents gaps)%list.
    rewrite hook_run_app. cbn [run fold_left step].
    change (sum (g :: gaps)) with (g + sum gaps) in *.
    pose proof (sum_nonneg gaps Hrest) as Hs.
    assert (Hnow : now (snd (advance g c)) = now (snd c) + g) by now destruct c.
    assert (Hle : (now (snd c) + g - S) / 1000
                  <= (now (snd c) + (g + sum gaps) - S) / 1000)
      by (apply Z.div_le_mono; lia).
    destruct (hook_tick_running D S (advance g c)) as (Hrun' & Htr & Hnow').
    { now apply hook_advance_running. }
    { rewrite Hnow. lia. }
    rewrite Hnow in Htr, Hnow'.
    destruct (IH (tick (advance g c)) Hrun' Hrest) as (Hr & Hn & Ht).
    { rewrite Hnow'. replace (now (snd c) + g + sum gaps) with (now (snd c) + (g + sum gaps)) by lia.
      exact Hpos. }
    fold (run (tickEvents gaps) (tick (advance g c))).
    rewrite Hnow' in Hn, Ht.
    split; [exact Hr | split; [lia |]].
    intros _. destruct gaps as [|g' gaps'].
    + cbn [tickEvents flat_map run fold_left]. rewrite Htr. cbn [sum fold_right].
      f_equal. f_equal. lia.
    + rewrite Ht by discriminate. f_equal. f_equal. lia.
Qed.

Lemma hook_run_cycle (cy : list Z * Z) (D E : Z) (c : Render * World) :
  Idle D E c ->
  1000 * D <= now (snd c) ->
  Forall (fun g => 0 <= g) (fst cy ++ [snd cy]) ->
  E + runMillis cy / 1000 < D ->
  Idle D (E + runMillis cy / 1000) (run (cycleEvents cy) c)
  /\ now (snd c) <= now (snd (run (cycleEvents cy) c)).
Proof.
  intros Hidle Hclock Hall Hlt.
  apply Forall_app in Hall as [Hgaps Hlast].
  inversion Hlast as [|? ? Hg _]; subst.
  pose proof (sum_nonneg _ Hgaps) as Hs.
  assert (Hrm : 0 <= runMillis cy / 1000)
    by (apply Z.div_pos; unfold runMillis; lia).
  unfold cycleEvents.
  change (Toggle :: tickEvents (fst cy) ++ [Advance (snd cy); Toggle])%list
    with ([Toggle] ++ tickEvents (fst cy) ++ [Advance (snd cy); Toggle])%list.
  rewrite !hook_run_app. cbn [run fold_left step].
  fold (run (tickEvents (fst cy)) (toggleTimer c)).
  destruct (hook_toggle_start D E c Hidle) as (Hrun & _ & _ & Hnow); [lia|].
  set (S := now (snd c) - E * 1000) in *.
  assert (Hdiv : forall x, (now (snd c) + x - S) / 1000 = E + x / 1000).
  { intros x. subst S. replace (now (snd c) + x - (now (snd c) - E * 1000))
      with (x + E * 1000) by lia. rewrite Z.div_add by lia. lia. }
  destruct (hook_run_ticks (fst cy) D S (toggleTimer c) Hrun Hgaps) as (Hrun' & Hnow' & _).
  { rewrite Hnow, Hdiv.
    assert (sum (fst cy) / 1000 <= runMillis cy / 1000)
      by (apply Z.div_le_mono; unfold runMillis; lia).
    lia. }
  rewrite Hnow in Hnow'.
  set (c1 := run (tickEvents (fst cy)) (toggleTimer c)) in *.
  pose proof (hook_advance_running D S (snd cy) c1 Hrun') as Hrun''.
  destruct (hook_toggle_pause D S _ Hrun'') as (Hidle' & _ & Hnow'').
  assert (Hadv : now (snd (advance (snd cy) c1)) = now (snd c) + runMillis cy).
  { destruct c1 as [r1 w1]. cbn in *. unfold runMillis. lia. }
  rewrite Hadv in *. rewrite Hdiv in Hidle'.
  split; [exact Hidle'|]. rewrite Hnow''. unfold runMillis. lia.
Qed.

Lemma hook_run_cycles (cs : list (list Z * Z)) (D E : Z) (c : Render * World) :
  Idle D E c ->
  1000 * D <= now (snd c) ->
  Forall (fun g => 0 <= g) (allGaps cs) ->
  E + wholeSeconds cs < D ->
  Idle D (E + wholeSeconds cs) (run (cyclesEvents cs) c).
Proof.
  revert E c. induction cs as [|cy cs IH]; intros E c Hidle Hclock Hall Hlt.
  - cbn. now rewrite Z.add_0_r.
  - unfold allGaps, cyclesEvents, wholeSeconds in *. cbn [flat_map map] in *.
    change (sum (runMillis cy / 1000 :: map (fun cy => runMillis cy / 1000) cs))
      with (runMillis cy / 1000 + sum (map (fun cy => runMillis cy / 1000) cs)) in *.
    apply Forall_app in Hall as [Hcy Hrest].
    assert (Hw : 0 <= sum (map (fun cy => runMillis cy / 1000) cs)).
    { clear -Hrest. induction cs as [|cy' cs IH]; [cbn; lia|].
      cbn [flat_map map] in *. apply Forall_app in Hrest as [H1 H2].
      change (sum (runMillis cy' / 1000 :: map (fun cy => runMillis cy / 1000) cs))
        with (runMillis cy' / 1000 + sum (map (fun cy => runMillis cy / 1000) cs)).
      specialize (IH H2).
      assert (0 <= runMillis cy' / 1000).
      { apply Z.div_pos; [|lia]. unfold runMillis. apply Forall_app in H1 as [Ha Hb].
        inversion Hb; subst. pose proof (sum_nonneg _ Ha). lia. }
      lia. }
    rewrite hook_run_app.
    destruct (hook_run_cycle cy D E c Hidle Hclock Hcy) as (Hidle' & Hnow); [lia|].
    rewrite Z.add_assoc. apply IH; [exact Hidle' | lia | exact Hrest | lia].
Qed.
End HookBasics.

(** The active type after a commit is the kind the parent selected. *)

Section HookAtRest.
Import UseTimer HookScenario.

Lemma hook_sameRender_fields (a b : Render) :
  sameRender a b = true ->
  timerMode a = timerMode b /\ allTimers a = allTimers b
  /\ timeRemaining a = timeRemaining b.
Proof.
  unfold sameRender. rewrite !andb_true_iff.
  intros [[[[Hm _] _] Ha] Ht].
  apply TimerType_eqb_eq in Hm. apply AllTimerStates_eqb_eq in Ha.
  apply Z.eqb_eq in Ht. auto.
Qed.

Lemma settingsEffect_activeType (r : Render) (w : World) :
  activeType (allTimers (fst (settingsEffect r (r, w)))) = activeType (allTimers r)
  /\ timerMode (fst (settingsEffect r (r, w))) = timerMode r.
Proof.
  unfold settingsEffect.
  destruct (negb (hasStamp (settingsLastUpdated r))); [now split|].
  destruct (reconcile r (now w) LongBreak _) as [updated needsUpdate].
  destruct needsUpdate; [|now split].
  destruct (negb (_ =? _)); now split.
Qed.

Lemma changeTimerType_activeType (r : Render) (m : TimerType) (pw : Render * World) :
  m <> activeType (allTimers r) ->
  activeType (allTimers (fst (changeTimerType r m pw))) = m
  /\ timerMode (fst (changeTimerType r m pw)) = timerMode (fst pw).
Proof.
  intros H. unfold changeTimerType. rewrite (TimerType_eqb_neq _ _ H).
  destruct pw as [p w].
  destruct (isRunning (getTimer m (timers (allTimers r)))); now split.
Qed.

Lemma timerModeEffect_at_rest (r : Render) (pw : Render * World) :
  timerMode (fst pw) = timerMode r ->
  (timerMode r = activeType (allTimers r) ->
   activeType (allTimers (fst pw)) = activeType (allTimers r)) ->
  timerMode (fst (timerModeEffect r pw)) = timerMode r
  /\ (timerMode r <> activeType (allTimers r) \/
      activeType (allTimers (fst pw)) = activeType (allTimers r) ->
      activeType (allTimers (fst (timerModeEffect r pw))) = timerMode r).
Proof.
  intros Hm Ha. unfold timerModeEffect.
  destruct (TimerType_eqb (timerMode r) (activeType (allTimers r))) eqn:E; cbn [negb].
  - apply TimerType_eqb_eq in E. split; [exact Hm|].
    intros [Hn|He]; [contradiction|]. now rewrite He.
  - assert (Hne : timerMode r <> activeType (allTimers r)).
    { intros He. apply TimerType_eqb_eq in He. congruence. }
    destruct (changeTimerType_activeType r (timerMode r) pw Hne) as [H1 H2].
    split; [now rewrite H2 | intros _; exact H1].
Qed.

Lemma commit_at_rest (cur next : Render) (w : World) :
  timerMode (fst (commit (Some cur) next w))
  = activeType (allTimers (fst (commit (Some cur) next w))).
Proof.
  unfold commit.
  set (w1 := if intervalDepsChanged (Some cur) next then _ else w).
  set (w2 := if intervalDepsChanged (Some cur) next then _ else w1).
  set (pw := if settingsDepsChanged (Some cur) next then _ else (next, w2)).
  assert (Hpw : timerMode (fst pw) = timerMode next
                /\ activeType (allTimers (fst pw)) = activeType (allTimers next)).
  { subst pw. destruct (settingsDepsChanged (Some cur) next); [|now split].
    destruct (settingsEffect_activeType next w2). now split. }
  destruct Hpw as [Hm Ha].
  destruct (timerModeEffect_at_rest next pw Hm (fun _ => Ha)) as [H1 H2].
  rewrite H1. symmetry. apply H2. now right.
Qed.

Lemma settle_at_rest (f : nat) (cur next : Render) (w : World) :
  timerMode next = activeType (allTimers next) ->
  AtRest (settle f cur next w).
Proof.
  revert cur next w. induction f as [|f IH]; intros cur next w Hn.
  - exact Hn.
  - rewrite hook_settle_S. destruct (sameRender cur next) eqn:E.
    + apply hook_sameRender_fields in E as (Hm & Ha & _).
      unfold AtRest. cbn [fst]. now rewrite Hm, Ha.
    + destruct (commit (Some cur) next w) as [p w'] eqn:Ec.
      apply IH. change p with (fst (p, w')). rewrite <- Ec. apply commit_at_rest.
Qed.

Lemma settle_S_at_rest (f : nat) (cur next : Render) (w : World) :
  (sameRender cur next = true -> timerMode cur = activeType (allTimers cur)) ->
  AtRest (settle (S f) cur next w).
Proof.
  intros H. rewrite hook_settle_S. destruct (sameRender cur next) eqn:E.
  - exact (H eq_refl).
  - destruct (commit (Some cur) next w) as [p w'] eqn:Ec.
    apply settle_at_rest. change p with (fst (p, w')). rewrite <- Ec.
    apply commit_at_rest.
Qed.

Lemma TimerType_eq_dec_aux (a b : TimerType) : {a = b} + {a <> b}.
Proof. decide equality. Qed.

Lemma completeTimer_mode (r : Render) (pw : Render * World) :
  timerMode (fst (completeTimer r pw)) = timerMode (fst pw).
Proof. destruct pw as [p w]. reflexivity. Qed.

Lemma mountEffect_mode (r : Render) (pw : Render * World) :
  timerMode (fst (mountEffect r pw)) = timerMode (fst pw).
Proof.
  unfold mountEffect. destruct (_ && _).
  - destruct (_ <=? 0); [apply completeTimer_mode | now destruct pw].
  - now destruct pw.
Qed.

Lemma commit_mount_at_rest (r : Render) (w : World) :
  timerMode r <> activeType (allTimers r) ->
  activeType (allTimers (fst (commit None r w))) = timerMode r.
Proof.
  intros Hne. unfold commit. cbn [intervalDepsChanged settingsDepsChanged].
  set (pw := mountEffect r _).
  assert (Hm : timerMode (fst pw) = timerMode r).
  { subst pw. rewrite mountEffect_mode.
    now destruct (settingsEffect_activeType r (intervalEffect r w)). }
  destruct (timerModeEffect_at_rest r pw Hm) as [_ H2].
  - intros He. contradiction.
  - apply H2. now left.
Qed.

Lemma mount_at_rest (mode : TimerType) (s : TimerSettings) (lu : option Z)
  (w : World) : AtRest (mount mode s lu w).
Proof.
  unfold mount.
  match goal with
  | |- context [commit None ?r ?w'] =>
      destruct (commit None r w') as [p w2] eqn:Ec; set (r0 := r) in *
  end.
  apply settle_S_at_rest. intros Hsame.
  apply hook_sameRender_fields in Hsame as (_ & Ha & _).
  destruct (TimerType_eq_dec_aux (timerMode r0) (activeType (allTimers r0))) as [He|Hne];
    [exact He|].
  exfalso. apply Hne.
  match type of Ec with
  | commit None _ ?w' = _ => pose proof (commit_mount_at_rest r0 w' Hne) as H
  end.
  rewrite Ec in H. cbn [fst] in H. rewrite <- Ha in H. now symmetry.
Qed.

End HookAtRest.

(** What the events do: completion, selecting a kind, the reset button,
    mounting over a stored record, new settings. *)

Section HookEvents.
Import UseTimer HookScenario.
#[local] Opaque settle.

Ltac heqbs :=
  rewrite ?Z.eqb_refl, ?Nat.eqb_refl, ?TimerType_eqb_refl, ?Bool.eqb_reflx,
    ?stamp_eqb_refl.

Ltac hook_unfold :=
  unfold commit, intervalEffect, timerModeEffect, changeTimerType,
    startTimerInterval, clearTimerInterval.

Lemma settingsEffect_settings (r : Render) (pw : Render * World) :
  settingsId (fst (settingsEffect r pw)) = settingsId (fst pw)
  /\ settingsLastUpdated (fst (settingsEffect r pw)) = settingsLastUpdated (fst pw)
  /\ settings (fst (settingsEffect r pw)) = settings (fst pw).
Proof.
  unfold settingsEffect. destruct pw as [p w].
  destruct (negb (hasStamp (settingsLastUpdated r))); [now repeat split|].
  destruct (reconcile r (now w) LongBreak _) as [updated needsUpdate].
  destruct needsUpdate; [|now repeat split].
  destruct (negb (_ =? _)); now repeat split.
Qed.

Lemma timerModeEffect_settings (r : Render) (pw : Render * World) :
  settingsId (fst (timerModeEffect r pw)) = settingsId (fst pw)
  /\ settingsLastUpdated (fst (timerModeEffect r pw)) = settingsLastUpdated (fst pw)
  /\ settings (fst (timerModeEffect r pw)) = settings (fst pw).
Proof.
  unfold timerModeEffect, changeTimerType. destruct pw as [p w].
  destruct (negb _); [|now repeat split].
  destruct (TimerType_eqb _ _); [now repeat split|].
  destruct (isRunning (getTimer (timerMode r) (timers (allTimers r)))); now repeat split.
Qed.

Lemma commit_settings (cur r : Render) (w : World) :
  settingsId (fst (commit (Some cur) r w)) = settingsId r
  /\ settingsLastUpdated (fst (commit (Some cur) r w)) = settingsLastUpdated r.
Proof.
  unfold commit.
  match goal with
  | |- context [timerModeEffect r ?pw] =>
      destruct (timerModeEffect_settings r pw) as (H1 & H2 & _); rewrite H1, H2
  end.
  destruct (settingsDepsChanged (Some cur) r); [|now split].
  match goal with
  | |- context [settingsEffect r ?pw] =>
      destruct (settingsEffect_settings r pw) as (H3 & H4 & _); rewrite H3, H4
  end.
  now split.
Qed.

Lemma commit_quiet (cur r : Render) (w : World) :
  timerMode r = activeType (allTimers r) ->
  settingsId cur = settingsId r ->
  settingsLastUpdated cur = settingsLastUpdated r ->
  fst (commit (Some cur) r w) = r.
Proof.
  intros Hrest Hid Hlu. unfold commit, settingsDepsChanged, timerModeEffect.
  rewrite Hid, Hlu, Hrest. heqbs. reflexivity.
Qed.

(** Two commits always suffice. *)
Lemma settle_converges (f : nat) (cur next : Render) (w : World) :
  settle (3 + f) cur next w = settle 3 cur next w.
Proof.
  cbn [Nat.add]. rewrite !(hook_settle_S _ cur).
  destruct (sameRender cur next); [reflexivity|].
  destruct (commit (Some cur) next w) as [p1 w1] eqn:E1.
  assert (Hrest : timerMode p1 = activeType (allTimers p1)).
  { change p1 with (fst (p1, w1)). rewrite <- E1. apply commit_at_rest. }
  destruct (commit_settings cur next w) as [Hid Hlu]. rewrite E1 in Hid, Hlu.
  cbn [fst] in Hid, Hlu.
  rewrite !(hook_settle_S _ next).
  destruct (sameRender next p1); [reflexivity|].
  destruct (commit (Some next) p1 w1) as [p2 w2] eqn:E2.
  assert (Hp2 : p2 = p1).
  { change p2 with (fst (p2, w2)). rewrite <- E2. apply commit_quiet; auto. }
  subst p2. rewrite !hook_settle_S, hook_sameRender_refl. reflexivity.
Qed.

(** X7. When the callback of a running timer finds no time left,
    the timer is completed: it is stopped with nothing elapsed and no
    start time, a completed pomodoro is counted and reported through
    [onComplete] once (a completed break is not), the other two timers
    are untouched and the record is stored. The hook then makes the
    follow-up break (or the pomodoro) the active type, but the component's
    effect sets the active type back to the [timerMode] it was given: as
    long as the parent does not change [timerMode], the same kind is
    active again and the display shows its full length. No interval is
    left, so a further callback changes nothing. *)
Theorem useTimer_completion_keeps_the_selected_kind
  (D S : Z) (c : Render * World) :
  Running D S c -> D - (now (snd c) - S) / 1000 <= 0 ->
  let k := activeType (allTimers (fst c)) in
  let c' := tick c in
  Idle D 0 c'
  /\ activeType (allTimers (fst c')) = k
  /\ startTime (activeTimer (allTimers (fst c'))) = None
  /\ timeRemaining (fst c') = D
  /\ completedPomodoros (allTimers (fst c'))
     = (if TimerType_eqb k Pomodoro
        then completedPomodoros (allTimers (fst c)) + 1
        else completedPomodoros (allTimers (fst c)))
  /\ completions (snd c')
     = (if TimerType_eqb k Pomodoro
        then Datatypes.S (completions (snd c)) else completions (snd c))
  /\ (forall type, type <> k ->
        getTimer type (timers (allTimers (fst c')))
        = getTimer type (timers (allTimers (fst c))))
  /\ storage (snd c') = Some (allTimers (fst c'))
  /\ tick c' = c'.
Proof.
  destruct c as [r w]. destruct r as [m s sid lu [[tp tsb tl] k cp] tr].
  destruct w as [st iv done nw nid].
  destruct tp as [ps pd pe pr], tsb as [ss sd se sr], tl as [ls ld le lr].
  unfold Running, AtRest. cbn [fst snd timerMode allTimers timerIntervalRef now activeType].
  intros (Hrest & HD & HS & HS0 & Hrun & cap & Href & Hcap & Hset) Hpos.
  unfold tick. cbn [timerIntervalRef]. rewrite Href.
  unfold intervalCallback. rewrite Hcap.
  assert (Hcalc : calculateTimeRemaining nw
            (activeTimer (mkAllTimerStates
               (mkByType (mkTimerState ps pd pe pr) (mkTimerState ss sd se sr)
                         (mkTimerState ls ld le lr)) k cp)) = 0).
  { unfold calculateTimeRemaining. rewrite HS, Hrun, HD.
    cbn [negb orb]. apply Z.eqb_neq in HS0. rewrite HS0. cbv zeta. lia. }
  cbn [snd now]. rewrite Hcalc. cbn [Z.leb Z.compare].
  unfold completeTimer. rewrite Hcap, Hset.
  subst m iv.
  destruct k; cbn in HD, HS, Hrun; subst.
  all: cbn -[Z.add Z.sub Z.div Z.mul divides]; unfold fuel.
  1: destruct (divides (longBreakInterval s) (cp + 1)).
  all: rewrite hook_settle_S, hook_sameRender_timers by (cbn; intros [= ?]).
  all: unfold commit, intervalEffect, timerModeEffect, changeTimerType,
         startTimerInterval, clearTimerInterval;
       cbn -[Z.add Z.sub Z.div Z.mul]; heqbs; cbn -[Z.add Z.sub Z.div Z.mul].
  all: rewrite ?andb_false_r; cbn -[Z.add Z.sub Z.div Z.mul].
  all: repeat match goal with
       | |- context [if ?b then _ else _] => is_var b; destruct b
       end.
  all: cbn -[Z.add Z.sub Z.div Z.mul].
  all: rewrite hook_settle_S, hook_sameRender_timers by (cbn; intros [= ?]).
  all: unfold commit, intervalEffect, timerModeEffect, changeTimerType,
         startTimerInterval, clearTimerInterval;
       cbn -[Z.add Z.sub Z.div Z.mul]; heqbs; cbn -[Z.add Z.sub Z.div Z.mul].
  all: rewrite ?andb_false_r; cbn -[Z.add Z.sub Z.div Z.mul].
  all: rewrite hook_settle_S, hook_sameRender_refl.
  all: unfold Idle, AtRest; cbn -[Z.add Z.sub Z.div Z.mul].
  all: repeat split; try reflexivity; try lia.
  all: try (intros type Ht; destruct type; try reflexivity; now destruct Ht).
Qed.

(** Selecting another kind changes the active type and nothing else. *)
Lemma hook_click_other (mode : TimerType) (c : Render * World) :
  AtRest c -> mode <> activeType (allTimers (fst c)) ->
  let c' := clickMode mode c in
  timerMode (fst c') = mode
  /\ activeType (allTimers (fst c')) = mode
  /\ timers (allTimers (fst c')) = timers (allTimers (fst c))
  /\ completedPomodoros (allTimers (fst c')) = completedPomodoros (allTimers (fst c))
  /\ settings (fst c') = settings (fst c)
  /\ timeRemaining (fst c')
     = calculateTimeRemaining (now (snd c))
         (getTimer mode (timers (allTimers (fst c))))
  /\ now (snd c') = now (snd c)
  /\ completions (snd c') = completions (snd c)
  /\ (if isRunning (getTimer mode (timers (allTimers (fst c))))
      then exists captured,
             timerIntervalRef (snd c') = Some captured
             /\ allTimers captured = allTimers (fst c')
             /\ settings captured = settings (fst c')
      else timerIntervalRef (snd c') = None).
Proof.
  destruct c as [r w]. destruct r as [m s sid lu [[tp tsb tl] k cp] tr].
  destruct w as [st iv done nw nid].
  destruct tp as [ps pd pe pr], tsb as [ss sd se sr], tl as [ls ld le lr].
  unfold AtRest. cbn [fst snd timerMode allTimers activeType].
  intros Hrest Hne. subst m.
  unfold clickMode, fuel.
  cbn [timerMode settings settingsId settingsLastUpdated allTimers timeRemaining].
  rewrite hook_settle_S, hook_sameRender_mode by (cbn; congruence).
  destruct k, mode; try (now destruct Hne); clear Hne.
  all: hook_unfold; cbn -[Z.add Z.sub Z.div Z.mul calculateTimeRemaining]; heqbs;
    cbn -[Z.add Z.sub Z.div Z.mul calculateTimeRemaining].
  all: repeat match goal with
       | |- context [if ?b then _ else _] => is_var b; destruct b
       end.
  all: cbn -[Z.add Z.sub Z.div Z.mul calculateTimeRemaining].
  all: rewrite hook_settle_S, hook_sameRender_timers by (cbn; intros [= ?]).
  all: hook_unfold; cbn -[Z.add Z.sub Z.div Z.mul calculateTimeRemaining]; heqbs;
    cbn -[Z.add Z.sub Z.div Z.mul calculateTimeRemaining].
  all: rewrite ?andb_false_r; cbn -[Z.add Z.sub Z.div Z.mul calculateTimeRemaining].
  all: rewrite hook_settle_S, hook_sameRender_refl.
  all: cbn -[Z.add Z.sub Z.div Z.mul calculateTimeRemaining].
  all: repeat split; try reflexivity.
  all: eexists; repeat split; reflexivity.
Qed.

Lemma hook_click_same (c : Render * World) :
  clickMode (timerMode (fst c)) c = c.
Proof.
  destruct c as [r w]. unfold clickMode, fuel. cbn [fst].
  destruct r as [m s sid lu a tr]. cbn [timerMode settings settingsId
    settingsLastUpdated allTimers timeRemaining].
  now rewrite hook_settle_S, hook_sameRender_refl.
Qed.

Lemma calculate_running (nw D S E : Z) (s : option Z) :
  S <> 0 ->
  calculateTimeRemaining nw (mkTimerState (Some S) D E true)
  = Z.max 0 (D - (nw - S) / 1000).
Proof.
  intros H. unfold calculateTimeRemaining. cbn.
  apply Z.eqb_neq in H. now rewrite H.
Qed.

(** X8. Selecting another kind does not pause a running timer.
    While the other kind is shown the running timer's state is untouched
    (it is still marked running, with the same start time); when the user
    selects it again, after [d] milliseconds, no timer has changed, it is
    running from the same start time with a live interval, and the display
    is its length less the whole seconds since that start, the time spent
    away included, and never below zero. *)
Theorem useTimer_switching_kinds_keeps_the_timer_running
  (D S d : Z) (mode : TimerType) (c : Render * World) :
  Running D S c -> mode <> activeType (allTimers (fst c)) ->
  let k := activeType (allTimers (fst c)) in
  let away := run [Click mode; Advance d] c in
  let back := run [Click k] away in
  activeType (allTimers (fst away)) = mode
  /\ getTimer k (timers (allTimers (fst away)))
     = getTimer k (timers (allTimers (fst c)))
  /\ Running D S back
  /\ timers (allTimers (fst back)) = timers (allTimers (fst c))
  /\ timeRemaining (fst back) = Z.max 0 (D - (now (snd c) + d - S) / 1000).
Proof.
  intros Hrun Hne k away back.
  pose proof Hrun as (Hrest & HD & HS & HS0 & Hr & _).
  destruct (hook_click_other mode c Hrest Hne)
    as (Hm1 & Ha1 & Ht1 & Hc1 & Hs1 & _ & Hn1 & _ & _).
  set (c1 := clickMode mode c) in *.
  assert (Haway : away = advance d c1) by reflexivity.
  assert (Hrest1 : AtRest (advance d c1)).
  { destruct c1 as [r1 w1]. unfold AtRest in *. cbn in *. congruence. }
  assert (Hne1 : k <> activeType (allTimers (fst (advance d c1)))).
  { destruct c1 as [r1 w1]. cbn in *. subst k. congruence. }
  destruct (hook_click_other k (advance d c1) Hrest1 Hne1)
    as (Hm2 & Ha2 & Ht2 & Hc2 & Hs2 & Htr2 & Hn2 & _ & Hi2).
  assert (Hback : back = clickMode k (advance d c1)) by reflexivity.
  assert (Hadv : fst (advance d c1) = fst c1 /\ now (snd (advance d c1)) = now (snd c1) + d)
    by (destruct c1; now split).
  destruct Hadv as [Hf Hnow]. rewrite Hf in *. rewrite Hnow in *.
  rewrite Haway, Hf. split; [exact Ha1|]. split; [now rewrite Ht1|].
  rewrite Hback. rewrite Ht1 in *.
  assert (Hk : getTimer k (timers (allTimers (fst c))) = mkTimerState (Some S) D
                 (elapsed (activeTimer (allTimers (fst c)))) true).
  { subst k. unfold activeTimer in *.
    destruct (getTimer _ _) as [a b e f]. cbn in *. congruence. }
  rewrite Hk in Htr2, Hi2. cbn [isRunning] in Hi2.
  rewrite (calculate_running _ _ _ _ None HS0) in Htr2.
  split; [|split; [exact Ht2 | now rewrite Htr2, Hn1]].
  unfold Running, AtRest. rewrite Hm2, Ha2.
  unfold activeTimer. rewrite Ha2, Ht2, Hk. cbn [duration startTime isRunning].
  repeat split; auto.
Qed.

(** X9. The reset button stops the active timer and gives it the
    length its kind has in the current settings, with nothing elapsed and
    no start time; the display shows that length and no interval is left.
    The active type, the count of completed pomodoros, the other two
    timers and the calls of [onComplete] are as before. *)
Theorem useTimer_reset_restores_the_configured_length (c : Render * World) :
  AtRest c ->
  let k := activeType (allTimers (fst c)) in
  let full := getDurationFromSettings k (settings (fst c)) in
  let c' := clickReset c in
  Idle full 0 c'
  /\ activeTimer (allTimers (fst c')) = mkTimerState None full 0 false
  /\ timeRemaining (fst c') = full
  /\ activeType (allTimers (fst c')) = k
  /\ completedPomodoros (allTimers (fst c')) = completedPomodoros (allTimers (fst c))
  /\ (forall type, type <> k ->
        getTimer type (timers (allTimers (fst c')))
        = getTimer type (timers (allTimers (fst c))))
  /\ completions (snd c') = completions (snd c).
Proof.
  destruct c as [r w]. destruct r as [m s sid lu [[tp tsb tl] k cp] tr].
  destruct w as [st iv done nw nid].
  unfold AtRest. cbn [fst snd timerMode allTimers activeType settings].
  intros Hrest. subst m.
  unfold clickReset, fuel, resetTimer.
  cbn [allTimers activeType settings updateActiveTimer].
  set (full := getDurationFromSettings k s).
  cbn [setAllTimers setTimeRemaining timers completedPomodoros timerMode settings
       settingsId settingsLastUpdated allTimers timeRemaining activeType].
  rewrite hook_settle_S.
  match goal with
  | |- context [sameRender ?a ?b] => destruct (sameRender a b) eqn:Esame
  end.
  - apply hook_sameRender_fields in Esame as (_ & Ha & Ht).
    cbn [allTimers timeRemaining] in Ha, Ht.
    unfold Idle, AtRest. cbn [fst snd timerMode allTimers activeType timeRemaining
      completedPomodoros timers]. rewrite Ha, Ht.
    cbn [activeTimer activeType timers completedPomodoros].
    destruct k; cbn; repeat split; try reflexivity.
    all: intros type Hn; destruct type; try reflexivity; now destruct Hn.
  - destruct k.
    all: hook_unfold; unfold intervalDepsChanged, settingsDepsChanged;
      cbn -[Z.add Z.sub Z.div Z.mul]; heqbs; cbn -[Z.add Z.sub Z.div Z.mul].
    all: match goal with
         | |- context [if ?b then _ else _] => destruct b
         end.
    all: cbn -[Z.add Z.sub Z.div Z.mul]; rewrite hook_settle_S, hook_sameRender_refl.
    all: unfold Idle, AtRest; cbn; repeat split; try reflexivity.
    all: intros type Hn; destruct type; try reflexivity; now destruct Hn.
Qed.

(** X10. A timer that was running when the page was closed
    resumes when the page is opened again. If the stored record's active
    timer is running since [S] with the length [D] its kind has in the
    settings, the parent starts with that kind, and time is left at the
    moment of loading, then the mounted timer is running from the same
    start time with a live interval and shows [D] less the whole seconds
    since [S]: the time the page was closed counts. Nothing is completed. *)
Theorem useTimer_reload_resumes_a_running_timer
  (mode : TimerType) (s : TimerSettings) (lu : option Z)
  (w : World) (a : AllTimerStates) (D S E : Z) :
  storage w = Some a ->
  timerIntervalRef w = None ->
  activeType a = mode ->
  activeTimer a = mkTimerState (Some S) D E true ->
  S <> 0 -> D <> 0 ->
  getDurationFromSettings mode s = D ->
  0 < D - (now w - S) / 1000 ->
  let c' := mount mode s lu w in
  Running D S c'
  /\ timeRemaining (fst c') = D - (now w - S) / 1000
  /\ completions (snd c') = completions w
  /\ completedPomodoros (allTimers (fst c')) = completedPomodoros a.
Proof.
  destruct w as [st iv done nw nid].
  destruct a as [[tp tsb tl] k cp].
  destruct tp as [ps pd pe pr], tsb as [ss sd se sr], tl as [ls ld le lr].
  cbn [storage timerIntervalRef activeType now completions completedPomodoros].
  intros -> -> <- Hact HS0 HD0 Hfull Hleft.
  apply Z.eqb_neq in HS0 as HS0b. apply Z.eqb_neq in HD0 as HD0b.
  cbv zeta. unfold mount, fuel, loadTimerStates.
  cbn [storage activeType timers completedPomodoros now timerIntervalRef completions nextId].
  assert (Hmax : Z.max 0 (D - (nw - S) / 1000) = D - (nw - S) / 1000) by lia.
  assert (Hpos : (D - (nw - S) / 1000 <=? 0) = false) by (apply Z.leb_gt; lia).
  destruct k; cbn in Hact; injection Hact as -> -> -> ->.
  all: cbn [getTimer pomodoro shortBreak longBreak duration isRunning startTime elapsed
            TimerType_eqb negb orb activeTimer activeType timers].
  all: rewrite HD0b; cbn [orb negb].
  all: rewrite ?orb_true_r; cbn [orb negb].
  all: hook_unfold; unfold settingsEffect, mountEffect, reconcile, calculateTimeRemaining;
    cbn -[Z.add Z.sub Z.div Z.mul Z.max]; rewrite ?Hfull; heqbs;
    cbn -[Z.add Z.sub Z.div Z.mul Z.max]; rewrite ?HS0b;
    cbn -[Z.add Z.sub Z.div Z.mul Z.max]; rewrite ?Hmax.
  all: destruct (hasStamp lu); cbn -[Z.add Z.sub Z.div Z.mul Z.max]; rewrite ?Hmax, ?Hpos.
  all: do 3 (heqbs; cbn -[Z.add Z.sub Z.div Z.mul Z.max]; rewrite ?Hmax, ?Hpos).
  all: cbn -[Z.add Z.sub Z.div Z.mul Z.max].
  all: rewrite hook_settle_S, hook_sameRender_refl.
  all: unfold Running, AtRest; cbn -[Z.add Z.sub Z.div Z.mul Z.max].
  all: repeat split; auto.
  all: eexists; repeat split; reflexivity.
Qed.

(** X11. A timer that ran out while the page was closed is
    completed when the page is opened again: under the same conditions,
    but with no time left at the moment of loading, the mounted timer is
    stopped with nothing elapsed and shows its full length, and a
    pomodoro is counted and reported through [onComplete] once (a break is
    not), however long ago it ran out. *)
Theorem useTimer_reload_completes_an_expired_timer
  (mode : TimerType) (s : TimerSettings) (lu : option Z)
  (w : World) (a : AllTimerStates) (D S E : Z) :
  storage w = Some a ->
  timerIntervalRef w = None ->
  activeType a = mode ->
  activeTimer a = mkTimerState (Some S) D E true ->
  S <> 0 -> D <> 0 ->
  getDurationFromSettings mode s = D ->
  D - (now w - S) / 1000 <= 0 ->
  let c' := mount mode s lu w in
  Idle D 0 c'
  /\ timeRemaining (fst c') = D
  /\ completions (snd c')
     = (if TimerType_eqb mode Pomodoro
        then Datatypes.S (completions w) else completions w)
  /\ completedPomodoros (allTimers (fst c'))
     = (if TimerType_eqb mode Pomodoro
        then completedPomodoros a + 1 else completedPomodoros a).
Proof.
  destruct w as [st iv done nw nid].
  destruct a as [[tp tsb tl] k cp].
  destruct tp as [ps pd pe pr], tsb as [ss sd se sr], tl as [ls ld le lr].
  cbn [storage timerIntervalRef activeType now completions completedPomodoros].
  intros -> -> <- Hact HS0 HD0 Hfull Hleft.
  apply Z.eqb_neq in HS0 as HS0b. apply Z.eqb_neq in HD0 as HD0b.
  cbv zeta. unfold mount, fuel, loadTimerStates.
  cbn [storage activeType timers completedPomodoros now timerIntervalRef completions nextId].
  assert (Hmax : Z.max 0 (D - (nw - S) / 1000) = 0) by lia.
  destruct k; cbn in Hact; injection Hact as -> -> -> ->.
  all: cbn [getTimer pomodoro shortBreak longBreak duration isRunning startTime elapsed
            TimerType_eqb negb orb activeTimer activeType timers].
  all: rewrite HD0b; cbn [orb negb].
  all: rewrite ?orb_true_r; cbn [orb negb].
  all: hook_unfold; unfold settingsEffect, mountEffect, reconcile, calculateTimeRemaining,
         completeTimer;
    cbn -[Z.add Z.sub Z.div Z.mul Z.max divides]; rewrite ?Hfull; heqbs;
    cbn -[Z.add Z.sub Z.div Z.mul Z.max divides]; rewrite ?HS0b;
    cbn -[Z.add Z.sub Z.div Z.mul Z.max divides]; rewrite ?Hmax.
  all: destruct (hasStamp lu); cbn -[Z.add Z.sub Z.div Z.mul Z.max divides]; rewrite ?Hmax.
  all: do 3 (heqbs; cbn -[Z.add Z.sub Z.div Z.mul Z.max divides]; rewrite ?Hmax).
  all: cbn -[Z.add Z.sub Z.div Z.mul Z.max divides].
  1,2: destruct (divides (longBreakInterval s) (cp + 1)).
  all: rewrite hook_settle_S, hook_sameRender_timers by (cbn; intros [= ?]).
  all: hook_unfold; cbn -[Z.add Z.sub Z.div Z.mul]; heqbs; cbn -[Z.add Z.sub Z.div Z.mul].
  all: rewrite ?andb_false_r; cbn -[Z.add Z.sub Z.div Z.mul].
  all: repeat match goal with
       | |- context [if ?b then _ else _] => is_var b; destruct b
       end.
  all: cbn -[Z.add Z.sub Z.div Z.mul].
  all: rewrite hook_settle_S, hook_sameRender_timers by (cbn; intros [= ?]).
  all: hook_unfold; cbn -[Z.add Z.sub Z.div Z.mul]; heqbs; cbn -[Z.add Z.sub Z.div Z.mul].
  all: rewrite ?andb_false_r; cbn -[Z.add Z.sub Z.div Z.mul].
  all: rewrite hook_settle_S, hook_sameRender_refl.
  all: unfold Idle, AtRest; cbn -[Z.add Z.sub Z.div Z.mul].
  all: repeat split; try reflexivity; try lia.
Qed.

Lemma settingsEffect_at_rest (r : Render) (w : World) :
  timerMode r = activeType (allTimers r) ->
  timerMode (fst (settingsEffect r (r, w)))
  = activeType (allTimers (fst (settingsEffect r (r, w)))).
Proof.
  intros H. destruct (settingsEffect_activeType r w) as [Ha Hm]. congruence.
Qed.

Lemma changeSettings_render (s : TimerSettings) (lu : option Z) (c : Render * World) :
  AtRest c -> (settingsId (fst c) < nextId (snd c))%nat ->
  let next := withSettings s lu (nextId (snd c)) (fst c) in
  exists w1,
    fst (changeSettings s lu c) = fst (settingsEffect next (next, w1))
    /\ now w1 = now (snd c).
Proof.
  destruct c as [r w]. unfold AtRest. cbn [fst snd]. intros Hrest Hid.
  set (next := withSettings s lu (nextId w) r).
  unfold changeSettings, fuel. fold (withSettings s lu (nextId w) r). fold next.
  rewrite hook_settle_S, hook_sameRender_id by (cbn; lia).
  set (w0 := mkWorld _ _ _ _ _).
  assert (Hc : commit (Some r) next w0 = settingsEffect next (next, w0)).
  { unfold commit, intervalDepsChanged, settingsDepsChanged.
    cbn [allTimers next withSettings settingsId]. heqbs. cbn [negb andb].
    apply Nat.eqb_neq in Hid as Hidb || assert (Hidb : Nat.eqb (settingsId r) (nextId w) = false)
      by (apply Nat.eqb_neq; lia).
    rewrite Hidb. cbn [negb andb].
    unfold timerModeEffect. subst next. unfold withSettings at 1 2.
    cbn [timerMode allTimers]. rewrite Hrest. heqbs. reflexivity. }
  rewrite Hc.
  destruct (settingsEffect next (next, w0)) as [p1 w1] eqn:E1.
  exists w0. rewrite E1. cbn [fst]. split; [|reflexivity].
  assert (Hp1 : timerMode p1 = activeType (allTimers p1)).
  { change p1 with (fst (p1, w1)). rewrite <- E1. now apply settingsEffect_at_rest. }
  destruct (settingsEffect_settings next (next, w0)) as (Hi & Hl & Hs).
  rewrite E1 in Hi, Hl, Hs. cbn [fst] in Hi, Hl, Hs.
  rewrite hook_settle_S. destruct (sameRender next p1) eqn:Esame.
  - cbn [fst]. apply hook_sameRender_fields in Esame as (Hm & Ha & Ht).
    destruct next, p1. cbn in *. congruence.
  - destruct (commit (Some next) p1 w1) as [p2 w2] eqn:E2.
    assert (Hp2 : p2 = p1).
    { change p2 with (fst (p2, w2)). rewrite <- E2. apply commit_quiet; auto. }
    subst p2. now rewrite hook_settle_S, hook_sameRender_refl.
Qed.

(** What the settings effect leaves in each timer. *)
Lemma settingsEffect_timers (r : Render) (w : World) (u : Z) :
  settingsLastUpdated r = Some u -> u <> 0 ->
  let r' := fst (settingsEffect r (r, w)) in
  activeType (allTimers r') = activeType (allTimers r)
  /\ completedPomodoros (allTimers r') = completedPomodoros (allTimers r)
  /\ (forall type,
        let t := getTimer type (timers (allTimers r)) in
        let t' := getTimer type (timers (allTimers r')) in
        duration t' = getDurationFromSettings type (settings r)
        /\ elapsed t' = elapsed t
        /\ isRunning t' = isRunning t
        /\ startTime t'
           = if negb (duration t =? getDurationFromSettings type (settings r))
                && TimerType_eqb (activeType (allTimers r)) type
                && isRunning t
             then Some (now w
                        - (now w - stampOr (startTime t) (now w)) / 1000 * 1000)
             else startTime t)
  /\ timeRemaining r'
     = (let t := activeTimer (allTimers r) in
        if duration t =? getDurationFromSettings (activeType (allTimers r)) (settings r)
        then timeRemaining r
        else calculateTimeRemaining (now w) (activeTimer (allTimers r'))).
Proof.
  intros Hlu Hu r'. subst r'. unfold settingsEffect. rewrite Hlu.
  cbn [hasStamp]. apply Z.eqb_neq in Hu. rewrite Hu. cbn [negb].
  destruct r as [m s sid lu [[tp tsb tl] k cp] tr].
  destruct tp as [ps pd pe pr], tsb as [ss sd se sr], tl as [ls ld le lr].
  cbn [allTimers timers settings activeType completedPomodoros timeRemaining].
  unfold reconcile.
  cbn [allTimers timers settings activeType completedPomodoros getTimer pomodoro
       shortBreak longBreak duration elapsed isRunning startTime activeTimer setTimer].
  destruct (pd =? getDurationFromSettings Pomodoro s) eqn:Ep;
    destruct (sd =? getDurationFromSettings ShortBreak s) eqn:Es;
    destruct (ld =? getDurationFromSettings LongBreak s) eqn:El;
    cbn [negb andb];
    try apply Z.eqb_eq in Ep; try apply Z.eqb_eq in Es; try apply Z.eqb_eq in El.
  all: try (assert (Ep' : (getDurationFromSettings Pomodoro s =? pd) = false)
              by (rewrite Z.eqb_sym; exact Ep)).
  all: try (assert (Es' : (getDurationFromSettings ShortBreak s =? sd) = false)
              by (rewrite Z.eqb_sym; exact Es)).
  all: try (assert (El' : (getDurationFromSettings LongBreak s =? ld) = false)
              by (rewrite Z.eqb_sym; exact El)).
  all: destruct k, pr, sr, lr.
  all: do 4 (cbn [fst snd allTimers timers activeType completedPomodoros getTimer pomodoro
            shortBreak longBreak duration elapsed isRunning startTime setAllTimers
            setTimeRemaining timeRemaining activeTimer negb andb saveTimerStates now
            setTimer TimerType_eqb];
    rewrite ?Ep, ?Es, ?El, ?Ep', ?Es', ?El'; heqbs).
  all: split; [reflexivity|]; split; [reflexivity|]; split; [|reflexivity].
  all: intros type; destruct type;
    cbn [getTimer pomodoro shortBreak longBreak duration elapsed isRunning startTime
         TimerType_eqb negb andb];
    rewrite ?Ep, ?Es, ?El, ?Ep', ?Es', ?El'; heqbs; cbn [negb andb]; repeat split; auto.
Qed.

End HookEvents.


(** ** What the timer built on [useTimer] does *)

Section HookTheorems.
Import UseTimer HookScenario.

(** X12. The display of a running timer follows the clock, not the
    number of interval callbacks. Start on a paused timer of [D] seconds
    with [E] seconds elapsed, followed by any number of callbacks spaced
    by any delays (the 200 ms period may drift or stall), shows [D - E]
    less the whole seconds of wall-clock time since Start, as long as
    that is positive; the timer is still running, counted from the
    timestamp that Start wrote. *)
Theorem useTimer_display_follows_the_clock
  (D E : Z) (c : Render * World) (gaps : list Z) :
  Idle D E c ->
  now (snd c) - E * 1000 <> 0 ->
  gaps <> [] ->
  Forall (fun g => 0 <= g) gaps ->
  E + sum gaps / 1000 < D ->
  let c' := run (Toggle :: tickEvents gaps) c in
  timeRemaining (fst c') = D - E - sum gaps / 1000
  /\ Running D (now (snd c) - E * 1000) c'.
Proof.
  intros Hidle Hstamp Hne Hall Hlt c'.
  destruct (hook_toggle_start D E c Hidle Hstamp) as (Hrun & _ & _ & Hnow).
  assert (Hdiv : (now (snd c) + sum gaps - (now (snd c) - E * 1000)) / 1000
                 = E + sum gaps / 1000).
  { replace (now (snd c) + sum gaps - (now (snd c) - E * 1000))
      with (sum gaps + E * 1000) by lia.
    rewrite Z.div_add by lia. lia. }
  destruct (hook_run_ticks gaps D _ (toggleTimer c) Hrun Hall) as (Hrun' & _ & Htr).
  { rewrite Hnow, Hdiv. lia. }
  subst c'. change (Toggle :: tickEvents gaps) with ([Toggle] ++ tickEvents gaps)%list.
  rewrite hook_run_app. cbn [run fold_left step].
  fold (run (tickEvents gaps) (toggleTimer c)).
  split; [|exact Hrun'].
  rewrite (Htr Hne), Hnow, Hdiv. lia.
Qed.

(** Five callbacks in 1050 ms take one second off the display. *)
Lemma useTimer_display_witness :
  timeRemaining
    (fst (run (Toggle :: tickEvents [200; 200; 200; 200; 250]) (opened settings25)))
  = 1500 - 0 - 1.
Proof.
  apply (useTimer_display_follows_the_clock 1500 0 (opened settings25)
           [200; 200; 200; 200; 250]).
  - repeat split; reflexivity.
  - vm_compute. discriminate.
  - discriminate.
  - repeat constructor; vm_compute; discriminate.
  - vm_compute. reflexivity.
Defined.

(** X13. Pause keeps the whole seconds of the run it ends and
    drops the rest. After any sequence of Start ... Pause runs on a timer
    of [D] seconds, the elapsed time is the sum over the runs of the
    whole seconds of each run, and the time left is [D] less that sum:
    the fraction of a second that a run was into when it was paused is
    given back to the user at every pause. *)
Theorem useTimer_pause_keeps_whole_seconds
  (D E : Z) (c : Render * World) (cs : list (list Z * Z)) :
  Idle D E c ->
  1000 * D <= now (snd c) ->
  Forall (fun g => 0 <= g) (allGaps cs) ->
  E + wholeSeconds cs < D ->
  let c' := run (cyclesEvents cs) c in
  Idle D (E + wholeSeconds cs) c'
  /\ calculateTimeRemaining (now (snd c')) (activeTimer (allTimers (fst c')))
     = D - E - wholeSeconds cs.
Proof.
  intros Hidle Hclock Hall Hlt c'.
  pose proof (hook_run_cycles cs D E c Hidle Hclock Hall Hlt) as H.
  split; [exact H|].
  destruct H as (_ & HD & HE & Hrun & _). fold c' in HD, HE, Hrun.
  unfold calculateTimeRemaining. rewrite Hrun, HD, HE. cbn [negb orb].
  destruct (startTime _); lia.
Qed.

(** Two runs of 1.8 s and 0.7 s, 2.5 s in all, use up one second. *)
Lemma useTimer_pause_witness :
  let cs := [([200; 900], 700); ([300], 400)] in
  elapsed (activeTimer (allTimers (fst (run (cyclesEvents cs) (opened settings25)))))
  = 0 + 1.
Proof.
  intros cs.
  assert (H : Idle 1500 (0 + wholeSeconds cs) (run (cyclesEvents cs) (opened settings25))).
  { apply (useTimer_pause_keeps_whole_seconds 1500 0 (opened settings25) cs).
    - repeat split; reflexivity.
    - vm_compute. discriminate.
    - repeat constructor; vm_compute; discriminate.
    - vm_compute. reflexivity. }
  destruct H as (_ & _ & HE & _). exact HE.
Defined.

(** A one minute pomodoro, sixty seconds after Start. *)
Lemma useTimer_completion_witness :
  let c' := tick (run [Toggle; Advance 60000] (opened settings1)) in
  activeType (allTimers (fst c')) = Pomodoro
  /\ timeRemaining (fst c') = 60
  /\ completedPomodoros (allTimers (fst c')) = 1.
Proof.
  intros c'.
  destruct (useTimer_completion_keeps_the_selected_kind 60 2000000
              (run [Toggle; Advance 60000] (opened settings1)))
    as (_ & Hk & _ & Htr & Hcp & _).
  - repeat split; try reflexivity; try discriminate.
    eexists. repeat split; reflexivity.
  - vm_compute. discriminate.
  - split; [exact Hk | split; [exact Htr | exact Hcp]].
Defined.

(** Seven seconds on the short break tab cost the pomodoro seven seconds. *)
Lemma useTimer_switching_witness :
  timeRemaining
    (fst (run [Click Pomodoro]
            (run [Click ShortBreak; Advance 7000] (run [Toggle] (opened settings25)))))
  = 1493.
Proof.
  destruct (useTimer_switching_kinds_keeps_the_timer_running 1500 2000000 7000
              ShortBreak (run [Toggle] (opened settings25)))
    as (_ & _ & _ & _ & Htr).
  - repeat split; try reflexivity; try discriminate.
    eexists. repeat split; reflexivity.
  - discriminate.
  - exact Htr.
Defined.

(** Reset five seconds into a pomodoro. *)
Lemma useTimer_reset_witness :
  timeRemaining
    (fst (clickReset (run [Toggle; Advance 5000; Tick] (opened settings25))))
  = 1500.
Proof.
  destruct (useTimer_reset_restores_the_configured_length
              (run [Toggle; Advance 5000; Tick] (opened settings25)))
    as (_ & _ & Htr & _).
  - reflexivity.
  - exact Htr.
Defined.

(** Opened again ten seconds after the start. *)
Lemma useTimer_reload_witness :
  timeRemaining
    (fst (mount Pomodoro settings25 (Some 1500000)
            (freshWorld (Some storedRunning) 2010000)))
  = 1500 - (2010000 - 2000000) / 1000.
Proof.
  destruct (useTimer_reload_resumes_a_running_timer Pomodoro settings25 (Some 1500000)
              (freshWorld (Some storedRunning) 2010000) storedRunning 1500 2000000 0)
    as (_ & Htr & _);
    [reflexivity | reflexivity | reflexivity | reflexivity | discriminate
    | discriminate | reflexivity | vm_compute; reflexivity | exact Htr].
Defined.

(** Opened again an hour after the start of a 25 minute pomodoro. *)
Lemma useTimer_expired_witness :
  let c' := mount Pomodoro settings25 (Some 1500000)
              (freshWorld (Some storedRunning) 5600000) in
  timeRemaining (fst c') = 1500
  /\ completedPomodoros (allTimers (fst c')) = 0 + 1.
Proof.
  intros c'.
  destruct (useTimer_reload_completes_an_expired_timer Pomodoro settings25
              (Some 1500000) (freshWorld (Some storedRunning) 5600000)
              storedRunning 1500 2000000 0)
    as (_ & Htr & _ & Hcp);
    [reflexivity | reflexivity | reflexivity | reflexivity | discriminate
    | discriminate | reflexivity | vm_compute; discriminate
    | split; [exact Htr | exact Hcp]].
Defined.

(** X14. A new settings object with a [lastUpdated] stamp gives
    every timer the length its kind has in the new settings and keeps its
    elapsed time and its running flag; the active type and the count are
    kept. A timer whose length changed and that is the active one and
    running is restarted from the last whole second of its run; every
    other start time is kept. The display changes only if the length of
    the active timer changed, and then shows what
    [calculateTimeRemaining] gives for the updated timer: the new length
    less the time already used. A settings object without a
    [lastUpdated] stamp (or with stamp 0) changes neither the timers nor
    the display. *)
Theorem useTimer_settings_change
  (s' : TimerSettings) (c : Render * World) :
  AtRest c ->
  (settingsId (fst c) < nextId (snd c))%nat ->
  let k := activeType (allTimers (fst c)) in
  (forall u, u <> 0 ->
     let c' := changeSettings s' (Some u) c in
     activeType (allTimers (fst c')) = k
     /\ completedPomodoros (allTimers (fst c')) = completedPomodoros (allTimers (fst c))
     /\ (forall type,
           let t := getTimer type (timers (allTimers (fst c))) in
           let t' := getTimer type (timers (allTimers (fst c'))) in
           duration t' = getDurationFromSettings type s'
           /\ elapsed t' = elapsed t
           /\ isRunning t' = isRunning t
           /\ startTime t'
              = if negb (duration t =? getDurationFromSettings type s')
                   && TimerType_eqb k type && isRunning t
                then Some (now (snd c)
                           - (now (snd c) - stampOr (startTime t) (now (snd c)))
                             / 1000 * 1000)
                else startTime t)
     /\ timeRemaining (fst c')
        = (if duration (activeTimer (allTimers (fst c)))
              =? getDurationFromSettings k s'
           then timeRemaining (fst c)
           else calculateTimeRemaining (now (snd c))
                  (activeTimer (allTimers (fst c')))))
  /\ (forall lu, hasStamp lu = false ->
        allTimers (fst (changeSettings s' lu c)) = allTimers (fst c)
        /\ timeRemaining (fst (changeSettings s' lu c)) = timeRemaining (fst c)).
Proof.
  intros Hrest Hid k. split.
  - intros u Hu c'.
    destruct (changeSettings_render s' (Some u) c Hrest Hid) as (w1 & Hfst & Hnow).
    subst c'. rewrite Hfst.
    pose proof (settingsEffect_timers
                  (withSettings s' (Some u) (nextId (snd c)) (fst c)) w1 u eq_refl Hu)
      as H.
    cbv zeta in H. rewrite Hnow in H. exact H.
  - intros lu Hlu.
    destruct (changeSettings_render s' lu c Hrest Hid) as (w1 & Hfst & _).
    rewrite Hfst. unfold settingsEffect.
    cbn [withSettings settingsLastUpdated]. rewrite Hlu. cbn [negb fst].
    split; reflexivity.
Qed.

(** A pomodoro paused after five seconds, then lengthened from 25 to 30
    minutes: 29:55 are left. *)
Lemma useTimer_settings_witness :
  let c := run [Toggle; Advance 5000; Tick; Advance 300; Toggle] (opened settings25) in
  timeRemaining (fst (changeSettings settings30 (Some 2005300) c)) = 1800 - 5.
Proof.
  intros c.
  assert (Hrest : AtRest c) by reflexivity.
  assert (Hid : (settingsId (fst c) < nextId (snd c))%nat) by (vm_compute; lia).
  destruct (useTimer_settings_change settings30 c Hrest Hid) as [H _].
  destruct (H 2005300 ltac:(discriminate)) as (_ & _ & _ & Htr).
  rewrite Htr. reflexivity.
Defined.

(** X15. The active type of the hook is always the [timerMode] the
    component was given: this holds once the component is mounted,
    whatever was stored, and after every event (Start or Pause, reset, a
    click on a kind, new settings, an interval callback, time passing, a
    reload). The render loop that establishes it comes to rest: three
    rounds of render and commit after an event give the same result as
    any larger number. *)
Theorem useTimer_active_type_follows_timerMode :
  (forall mode s lu w, AtRest (mount mode s lu w))
  /\ (forall c e, AtRest c -> AtRest (step c e))
  /\ (forall f cur next w, settle (3 + f) cur next w = settle 3 cur next w).
Proof.
  split; [exact mount_at_rest|]. split; [|exact settle_converges].
  intros [r w] e Hrest. unfold AtRest in Hrest. cbn [fst] in Hrest.
  destruct e; cbn [step].
  - unfold toggleTimer. destruct (if isRunning _ then _ else _) as [p w'].
    apply settle_S_at_rest. auto.
  - unfold clickReset. destruct (resetTimer r (r, w)) as [p w'].
    apply settle_S_at_rest. auto.
  - unfold clickMode. apply settle_S_at_rest. auto.
  - unfold changeSettings. apply settle_S_at_rest. auto.
  - unfold tick. destruct (timerIntervalRef w) as [cap|]; [|exact Hrest].
    destruct (intervalCallback cap (r, w)) as [p w'].
    apply settle_S_at_rest. auto.
  - exact Hrest.
  - apply mount_at_rest.
Qed.

(** The callback that completes a one minute pomodoro leaves the pomodoro
    selected. *)
Lemma useTimer_active_type_witness :
  AtRest (step (run [Toggle; Advance 60000] (opened settings1)) Tick).
Proof.
  apply (proj1 (proj2 useTimer_active_type_follows_timerMode)). reflexivity.
Defined.

End HookTheorems.

(** ** dataUtils.ts: export, import and the CSV of the history *)

Section DataFacts.
Import Js LocalStorageUtils DataUtils.

Lemma value_nested_ind (P : value -> Prop) :
  P VUndef -> P VNull -> (forall b, P (VBool b)) -> (forall n, P (VNum n)) ->
  (forall s, P (VStr s)) ->
  (forall fs, Forall (fun kv => P (snd kv)) fs -> P (VObj fs)) ->
  forall v, P v.
Proof.
  intros HU HN HB HZ HS HO.
  fix IH 1. intros [ | | b | n | s | fs];
    [exact HU | exact HN | apply HB | apply HZ | apply HS | apply HO].
  refine ((fix go (l : list (string * value)) : Forall (fun kv => P (snd kv)) l :=
             match l with
             | [] => Forall_nil _
             | kv :: rest => Forall_cons _ (IH (snd kv)) (go rest)
             end) fs).
Qed.

Lemma stringified_obj (fs : list (string * value)) :
  stringified (VObj fs) = VObj (members fs).
Proof.
  cbn [stringified]. f_equal. unfold members.
  induction fs as [|[k x] rest IH]; [reflexivity|].
  cbn [flat_map fst snd]. rewrite <- IH. destruct x; reflexivity.
Qed.

Lemma stringified_not_undef (v : value) :
  v <> VUndef -> stringified v <> VUndef.
Proof. destruct v; cbn; congruence. Qed.

Lemma members_cons (k : string) (x : value) (rest : list (string * value)) :
  x <> VUndef -> members ((k, x) :: rest) = (k, stringified x) :: members rest.
Proof. intros H. unfold members. cbn [flat_map fst snd]. now destruct x. Qed.

Lemma members_undef (k : string) (rest : list (string * value)) :
  members ((k, VUndef) :: rest) = members rest.
Proof. reflexivity. Qed.

Lemma stringified_idem (v : value) : stringified (stringified v) = stringified v.
Proof.
  induction v as [ | | b | n | s | fs IH] using value_nested_ind; try reflexivity.
  rewrite !stringified_obj. f_equal.
  induction IH as [|[k x] rest Hx _ IHrest]; [reflexivity|].
  cbn [snd] in Hx.
  destruct (isUndef x) eqn:E.
  - destruct x; try discriminate. now rewrite members_undef.
  - assert (Hx0 : x <> VUndef) by (intros ->; discriminate).
    rewrite (members_cons k x rest Hx0).
    rewrite members_cons by now apply stringified_not_undef.
    now rewrite Hx, IHrest.
Qed.

Lemma stringified_parsed (v : value) : parsed v = true -> stringified v = v.
Proof.
  induction v as [ | | b | n | s | fs IH] using value_nested_ind; try reflexivity.
  rewrite stringified_obj. intros H. f_equal.
  induction IH as [|[k x] rest Hx _ IHrest]; [reflexivity|].
  cbn [parsed] in H. apply andb_true_iff in H as [H1 H2].
  cbn [snd] in Hx.
  assert (Hx0 : x <> VUndef) by (intros ->; discriminate).
  now rewrite (members_cons k x rest Hx0), (Hx H1), (IHrest H2).
Qed.



Lemma existsb_nodup (k : string) (l : list string) :
  existsb (String.eqb k) (nodup string_dec l) = existsb (String.eqb k) l.
Proof.
  destruct (existsb (String.eqb k) l) eqn:E.
  - apply existsb_exists in E as (x & Hin & Hx).
    apply existsb_exists. exists x. split; [now apply nodup_In | exact Hx].
  - destruct (existsb (String.eqb k) (nodup string_dec l)) eqn:E'; [|reflexivity].
    apply existsb_exists in E' as (x & Hin & Hx).
    apply nodup_In in Hin.
    assert (existsb (String.eqb k) l = true)
      by (apply existsb_exists; exists x; now split).
    congruence.
Qed.

(** The loop of [importUserData] over the keys [l] of the object [fs]. *)
Lemma import_loop (fs : list (string * value)) (l : list string)
  (st : Storage) (k : string) :
  fold_left (fun st kv =>
               if isStorageKey (fst kv)
               then setItem (fst kv) (stringify (snd kv)) st
               else st)
            (map (fun k => (k, lookup k fs)) l) st k
  = if isStorageKey k && existsb (String.eqb k) l
    then stringify (lookup k fs) else st k.
Proof.
  revert st. induction l as [|a l IH]; intros st.
  - cbn. now rewrite andb_false_r.
  - cbn [map fold_left fst snd existsb]. rewrite IH.
    destruct (String.eqb k a) eqn:E.
    + apply String.eqb_eq in E. subst a. cbn [orb].
      destruct (isStorageKey k) eqn:Ek; cbn [andb]; [|reflexivity].
      destruct (existsb (String.eqb k) l); [reflexivity|].
      unfold setItem. now rewrite String.eqb_refl.
    + cbn [orb]. destruct (isStorageKey k && existsb (String.eqb k) l); [reflexivity|].
      destruct (isStorageKey a); [|reflexivity].
      unfold setItem. now rewrite E.
Qed.

Lemma digit_key (z : Z) : 0 <= z -> isStorageKey (PomodoroTimer.toString z) = false.
Proof.
  intros Hz. destruct (toString_nonneg z Hz) as (u & Hu & -> & _).
  destruct u; [now destruct Hu | reflexivity ..].
Qed.

Lemma import_characters (s : string) (i : nat) (st : Storage) :
  fold_left (fun st kv =>
               if isStorageKey (fst kv)
               then setItem (fst kv) (stringify (snd kv)) st
               else st)
            (characters i s) st
  = st.
Proof.
  revert i st. induction s as [|c s IH]; intros i st; [reflexivity|].
  cbn [characters fold_left fst snd].
  rewrite digit_key by lia. apply IH.
Qed.

(** What an accepted import leaves under every key. *)
Lemma import_accepted (userData : value) (st : Storage) :
  accepted (Some userData) = true ->
  let data := getPropOpt userData "data" in
  exists st',
    importUserData (Some userData) st = (true, st')
    /\ forall k, st' k = if isStorageKey k && hasKey k data
                         then stringify (getPropOpt data k) else st k.
Proof.
  unfold accepted. intros H. apply andb_true_iff in H as [Hv Hd].
  cbv zeta. unfold importUserData, importUserData_body. cbn [bind].
  destruct userData as [ | | b | n | s | fs]; try discriminate.
  cbn [getProp getPropOpt bind] in *. rewrite Hv, Hd. cbn [negb].
  destruct (lookup "data" fs) as [ | | b | n | s | ds] eqn:Edata; try discriminate;
    cbn [entries bind].
  - eexists. split; [reflexivity|]. intros k. cbn. now rewrite andb_false_r.
  - eexists. split; [reflexivity|]. intros k. cbn. now rewrite andb_false_r.
  - eexists. split; [reflexivity|]. intros k.
    rewrite import_characters. cbn. now rewrite andb_false_r.
  - eexists. split; [reflexivity|]. intros k.
    rewrite import_loop, existsb_nodup. reflexivity.
Qed.

Lemma import_rejected (jsonData : throws value) (st : Storage) :
  accepted jsonData = false -> importUserData jsonData st = (false, st).
Proof.
  unfold accepted, importUserData, importUserData_body.
  destruct jsonData as [userData|]; [|reflexivity]. cbn [bind].
  destruct userData as [ | | b | n | s | fs]; try reflexivity.
  cbn [getProp getPropOpt bind].
  destruct (truthy (lookup "version" fs)); cbn [andb negb]; [|reflexivity].
  intros ->. reflexivity.
Qed.



Lemma update_absent (k : string) (x : value) (fs : list (string * value)) :
  existsb (String.eqb k) (map fst fs) = false -> update k x fs = (fs ++ [(k, x)])%list.
Proof.
  induction fs as [|[k' v] rest IH]; cbn [update map fst existsb app]; [reflexivity|].
  intros H. apply orb_false_iff in H as [H1 H2]. rewrite H1. now rewrite IH.
Qed.

Lemma export_data (st : Storage) (l : list string) (acc : list (string * value)) :
  NoDup l ->
  (forall a, In a l -> existsb (String.eqb a) (map fst acc) = false) ->
  fold_left (fun data key =>
               match getItem key st with
               | Json v => update key v data
               | Absent | Unparsable => data
               end) l acc
  = (acc ++ flat_map (fun key => match st key with
                                 | Json v => [(key, v)]
                                 | Absent | Unparsable => []
                                 end) l)%list.
Proof.
  revert acc. induction l as [|a l IH]; intros acc Hnd Hfresh.
  - cbn. now rewrite app_nil_r.
  - inversion Hnd as [|? ? Hnotin Hnd']; subst.
    cbn [fold_left flat_map]. unfold getItem at 2.
    assert (Hl : forall b, In b l -> existsb (String.eqb b) (map fst acc) = false)
      by (intros b Hb; apply Hfresh; now right).
    destruct (st a) as [ | | v]; cbn [app]; try (now apply IH).
    rewrite update_absent by (apply Hfresh; now left).
    rewrite IH; [now rewrite <- app_assoc | exact Hnd' |].
    intros b Hb. rewrite map_app, existsb_app, (Hl b Hb). cbn.
    rewrite orb_false_r. apply String.eqb_neq. intros ->. contradiction.
Qed.

Lemma members_app (a b : list (string * value)) :
  members (a ++ b) = (members a ++ members b)%list.
Proof. unfold members. apply flat_map_app. Qed.

Lemma members_exported (st : Storage) (l : list string) :
  members (flat_map (fun key => match st key with
                                | Json v => [(key, v)]
                                | Absent | Unparsable => []
                                end) l)
  = flat_map (exportedOf st) l.
Proof.
  induction l as [|a l IH]; [reflexivity|].
  cbn [flat_map]. rewrite members_app, IH. f_equal.
  unfold exportedOf. destruct (st a) as [ | | v]; try reflexivity.
  now destruct v.
Qed.

Lemma lookup_exported (st : Storage) (l : list string) (k : string) :
  lookup k (flat_map (exportedOf st) l)
  = if existsb (String.eqb k) l
    then match st k with
         | Json v => stringified v
         | Absent | Unparsable => VUndef
         end
    else VUndef.
Proof.
  induction l as [|a l IH]; [reflexivity|].
  cbn [flat_map existsb].
  destruct (String.eqb k a) eqn:E.
  - apply String.eqb_eq in E. subst a. cbn [orb]. unfold exportedOf at 1.
    destruct (st k) as [ | | v] eqn:Ek; cbn [app];
      try (rewrite IH; now destruct (existsb (String.eqb k) l)).
    destruct v; cbn [app lookup]; rewrite ?String.eqb_refl; try reflexivity.
    rewrite IH. now destruct (existsb (String.eqb k) l).
  - cbn [orb]. rewrite <- IH. unfold exportedOf at 1.
    destruct (st a) as [ | | v]; cbn [app]; try reflexivity.
    destruct v; cbn [app lookup]; rewrite ?E; reflexivity.
Qed.

Lemma hasKey_exported (st : Storage) (l : list string) (k : string) :
  existsb (String.eqb k) (map fst (flat_map (exportedOf st) l))
  = existsb (String.eqb k) l
    && match st k with
       | Json v => negb (isUndef v)
       | Absent | Unparsable => false
       end.
Proof.
  induction l as [|a l IH]; [reflexivity|].
  cbn [flat_map existsb]. rewrite map_app, existsb_app, IH.
  destruct (String.eqb k a) eqn:E.
  - apply String.eqb_eq in E. subst a. cbn [orb andb]. unfold exportedOf.
    destruct (st k) as [ | | v]; cbn [map existsb orb];
      try (now rewrite andb_false_r).
    destruct v; cbn [map fst existsb orb isUndef negb]; rewrite ?String.eqb_refl;
      try reflexivity.
    now rewrite andb_false_r.
  - cbn [orb]. unfold exportedOf at 1.
    destruct (st a) as [ | | v]; cbn [map existsb orb]; try reflexivity.
    destruct v; cbn [map fst existsb orb]; rewrite ?E; reflexivity.
Qed.

Lemma exportUserData_shape (exportDate : string) (st : Storage) :
  exportUserData exportDate st
  = VObj [ ("version", VStr "1.0"); ("exportDate", VStr exportDate);
           ("data", VObj (flat_map (exportedOf st) STORAGE_KEYS)) ].
Proof.
  unfold exportUserData.
  rewrite export_data.
  - cbn [app]. rewrite stringified_obj.
    rewrite !members_cons by discriminate. cbn [members flat_map].
    rewrite stringified_obj, members_exported. reflexivity.
  - repeat constructor; cbn; intuition discriminate.
  - reflexivity.
Qed.

(** What importing the export of [src] into [dst] leaves under [k]. *)
Lemma import_export (exportDate : string) (src dst : Storage) :
  exists st',
    importUserData (Some (exportUserData exportDate src)) dst = (true, st')
    /\ forall k, st' k = if isStorageKey k
                         then match src k with
                              | Json v => if isUndef v then dst k
                                          else Json (stringified v)
                              | Absent | Unparsable => dst k
                              end
                         else dst k.
Proof.
  rewrite exportUserData_shape.
  destruct (import_accepted
              (VObj [ ("version", VStr "1.0"); ("exportDate", VStr exportDate);
                      ("data", VObj (flat_map (exportedOf src) STORAGE_KEYS)) ])
              dst eq_refl) as (st' & Himp & Hst').
  exists st'. split; [exact Himp|].
  intros k. rewrite Hst'. cbn [getPropOpt lookup String.eqb Ascii.eqb Bool.eqb hasKey].
  rewrite hasKey_exported, lookup_exported.
  change (existsb (String.eqb k) STORAGE_KEYS) with (isStorageKey k).
  destruct (isStorageKey k); cbn [andb]; [|reflexivity].
  destruct (src k) as [ | | v]; try reflexivity.
  destruct (isUndef v) eqn:E; cbn [negb]; [reflexivity|].
  unfold stringify. rewrite stringified_idem.
  assert (Hv : stringified v <> VUndef)
    by (apply stringified_not_undef; intros ->; discriminate).
  destruct (stringified v); [now destruct Hv | reflexivity ..].
Qed.



(** X16. [importUserData] returns true exactly when the text is JSON
    for a value whose [version] and [data] are both truthy: the version
    need not be '1.0' and [data] need not be an object. It then writes
    the members of [data] whose key is one of the five storage keys, each
    as [JSON.stringify] renders it, and nothing else: every other key of
    [localStorage], the known keys that [data] does not have included,
    keeps its item, so an import adds to the store and removes nothing;
    the result is true even when nothing was written. *)
Theorem importUserData_writes_the_known_keys_of_data
  (jsonData : throws value) (st : Storage) :
  fst (importUserData jsonData st) = accepted jsonData
  /\ (forall userData,
        jsonData = Some userData -> accepted jsonData = true ->
        let data := getPropOpt userData "data" in
        forall k, snd (importUserData jsonData st) k
                  = if isStorageKey k && hasKey k data
                    then stringify (getPropOpt data k) else st k)
  /\ (accepted jsonData = false ->
      forall k, snd (importUserData jsonData st) k = st k).
Proof.
  destruct (accepted jsonData) eqn:Ha.
  - destruct jsonData as [userData|]; [|discriminate].
    destruct (import_accepted userData st Ha) as (st' & Himp & Hst').
    rewrite Himp. split; [reflexivity|]. split; [|discriminate].
    intros u [= <-] _. exact Hst'.
  - rewrite (import_rejected jsonData st Ha).
    split; [reflexivity|]. split; [discriminate|]. reflexivity.
Qed.

(** A backup with version 2: the task list is written, the unknown key
    'theme' is not, and the settings the backup does not mention stay. *)
Lemma importUserData_witness :
  let st' := snd (importUserData (Some backup) someStorage) in
  st' "pomoSpaceTasks" = Json (VObj [])
  /\ st' "theme" = Absent
  /\ st' "pomoSpaceSettings" = someStorage "pomoSpaceSettings".
Proof.
  intros st'.
  destruct (importUserData_writes_the_known_keys_of_data (Some backup) someStorage)
    as (_ & H & _).
  specialize (H backup eq_refl eq_refl). cbv zeta in H.
  subst st'. rewrite !H. repeat split.
Defined.

(** X17. Importing what [exportUserData] produced. The import
    succeeds; every storage key that held JSON in the exported store is
    overwritten with that JSON, and every other item of the importing
    store is kept: a key of the five that was missing or damaged when the
    export was made is not cleared by the import. Importing a store's own
    export changes nothing, so export followed by import loses no data
    (when every item is a value [JSON.parse] can return). *)
Theorem importUserData_of_exportUserData
  (exportDate : string) (src dst : Storage) :
  let r := importUserData (Some (exportUserData exportDate src)) dst in
  fst r = true
  /\ (forall k, snd r k = if isStorageKey k
                          then match src k with
                               | Json v => if isUndef v then dst k
                                           else Json (stringified v)
                               | Absent | Unparsable => dst k
                               end
                          else dst k)
  /\ ((forall k v, src k = Json v -> parsed v = true) ->
      forall k,
        snd (importUserData (Some (exportUserData exportDate src)) src) k = src k).
Proof.
  cbv zeta.
  destruct (import_export exportDate src dst) as (st' & Himp & Hst').
  rewrite Himp. split; [reflexivity|]. split; [exact Hst'|].
  intros Hparsed k.
  destruct (import_export exportDate src src) as (st1 & Himp1 & Hst1).
  rewrite Himp1. cbn [snd]. rewrite Hst1.
  destruct (isStorageKey k); [|reflexivity].
  destruct (src k) as [ | | v] eqn:Ek; try reflexivity.
  pose proof (Hparsed k v Ek) as Hv.
  rewrite (stringified_parsed v Hv). now destruct v.
Qed.

(** The store with settings and a damaged timer record, exported and
    imported again. *)
Lemma importUserData_of_exportUserData_witness :
  snd (importUserData (Some (exportUserData "2024-05-14" someStorage)) someStorage)
      "pomoSpaceTimerState"
  = Unparsable.
Proof.
  apply (proj2 (proj2 (importUserData_of_exportUserData
                         "2024-05-14" someStorage someStorage))).
  intros k v. unfold someStorage.
  destruct (String.eqb k "pomoSpaceSettings"); [intros [= <-]; reflexivity|].
  destruct (String.eqb k "pomoSpaceTimerState"); discriminate.
Defined.



Lemma append_assoc (a b c : string) : ((a ++ b) ++ c = a ++ (b ++ c))%string.
Proof. induction a as [|x a IH]; cbn [append]; [reflexivity | now rewrite IH]. Qed.

Lemma append_nil_r (a : string) : (a ++ "")%string = a.
Proof. induction a as [|x a IH]; cbn [append]; [reflexivity | now rewrite IH]. Qed.

Lemma read_plain (p rest field : string) (fields : list string)
  (records : list (list string)) :
  plainText p = true ->
  readCsv (p ++ rest) Plain field fields records
  = readCsv rest Plain (field ++ p) fields records.
Proof.
  revert field. induction p as [|c p IH]; intros field Hp.
  - cbn [append]. now rewrite append_nil_r.
  - cbn [plainText] in Hp.
    apply andb_true_iff in Hp as [Hp Hrest].
    apply andb_true_iff in Hp as [Hp Hq].
    apply andb_true_iff in Hp as [Hc Hn].
    apply negb_true_iff in Hc, Hn, Hq.
    cbn [append readCsv]. rewrite Hc, Hn, Hq.
    rewrite (IH _ Hrest), append_assoc. reflexivity.
Qed.

Lemma read_in_quotes (s rest field : string) (fields : list string)
  (records : list (list string)) :
  readCsv (doubleQuotes s ++ String quoteChar rest) InQuotes field fields records
  = readCsv rest AfterQuote (field ++ s) fields records.
Proof.
  revert field. induction s as [|c s IH]; intros field.
  - cbn [doubleQuotes append readCsv]. rewrite Ascii.eqb_refl.
    now rewrite append_nil_r.
  - cbn [doubleQuotes]. destruct (Ascii.eqb c quoteChar) eqn:E.
    + apply Ascii.eqb_eq in E. subst c.
      cbn [append readCsv]. rewrite !Ascii.eqb_refl.
      rewrite IH, append_assoc. reflexivity.
    + cbn [append readCsv]. rewrite E. rewrite IH, append_assoc. reflexivity.
Qed.

Lemma read_quoted (s rest : string) (fields : list string)
  (records : list (list string)) :
  readCsv (quoted s ++ rest) Plain "" fields records
  = readCsv rest AfterQuote s fields records.
Proof.
  unfold quoted. cbn [append readCsv].
  change (Ascii.eqb quoteChar commaChar) with false.
  change (Ascii.eqb quoteChar newlineChar) with false.
  rewrite Ascii.eqb_refl. cbv iota.
  rewrite append_assoc. cbn [append]. apply read_in_quotes.
Qed.



Lemma plain_digits (u : Decimal.uint) :
  plainText (DecimalString.NilEmpty.string_of_uint u) = true.
Proof. induction u; cbn [DecimalString.NilEmpty.string_of_uint plainText]; auto. Qed.

Lemma plain_toString (z : Z) : plainText (PomodoroTimer.toString z) = true.
Proof.
  unfold PomodoroTimer.toString, DecimalString.NilZero.string_of_int.
  destruct (Z.to_int z) as [u|u];
    unfold DecimalString.NilZero.string_of_uint;
    destruct u; try reflexivity;
    try (cbn [plainText]; apply (plain_digits (_ u)));
    cbn [DecimalString.NilEmpty.string_of_uint plainText andb negb];
    try apply plain_digits.
Qed.

Lemma read_comma (rest field : string) (fields : list string)
  (records : list (list string)) :
  readCsv (String commaChar rest) Plain field fields records
  = readCsv rest Plain "" (field :: fields) records.
Proof. reflexivity. Qed.

Lemma read_comma_after_quote (rest field : string) (fields : list string)
  (records : list (list string)) :
  readCsv (String commaChar rest) AfterQuote field fields records
  = readCsv rest Plain "" (field :: fields) records.
Proof. reflexivity. Qed.

Lemma numberOr0_id (n : Z) : numberOr0 n = n.
Proof. unfold numberOr0. destruct (n =? 0) eqn:E; [|reflexivity]. lia. Qed.

Lemma stringOr_some (s : string) : stringOr (Some s) "" = s.
Proof.
  unfold stringOr. destruct (String.eqb s "") eqn:E; [|reflexivity].
  apply String.eqb_eq in E. now subst.
Qed.

Lemma row_readsAs (m : list (string * Z)) (entry : TaskHistoryItem) :
  plainText (date entry) = true ->
  readsAs (join "," (formattedRow m entry)) (recordOf m entry).
Proof.
  intros Hdate. unfold readsAs, formattedRow, recordOf.
  rewrite numberOr0_id, !stringOr_some.
  eexists _, _. split.
  2:{ intros rest records. cbn [join].
      change (",") with (String commaChar EmptyString).
      rewrite !append_assoc. cbn [append].
      rewrite read_plain by exact Hdate. rewrite read_comma.
      rewrite read_quoted, read_comma_after_quote.
      rewrite read_quoted, read_comma_after_quote.
      rewrite read_plain by apply plain_toString. rewrite read_comma.
      rewrite read_plain by apply plain_toString.
      cbn [append]. reflexivity. }
  reflexivity.
Qed.

Lemma headers_readsAs : readsAs (join "," headers) headers.
Proof.
  unfold readsAs. eexists _, _. split.
  2:{ intros rest records. cbn. reflexivity. }
  reflexivity.
Qed.

Lemma read_lines (texts : list string) (lines : list (list string))
  (records : list (list string)) :
  Forall2 readsAs texts lines -> texts <> [] ->
  readCsv (join (String newlineChar EmptyString) texts) Plain "" [] records
  = Some (rev records ++ lines)%list.
Proof.
  intros H. revert records. induction H as [|text line texts lines Hl Hrest IH];
    intros records Hne; [now destruct Hne|].
  destruct Hl as (last & init & -> & Hread).
  destruct Hrest as [|text' line' texts' lines' Hl' Hrest'].
  - cbn [join]. rewrite <- (append_nil_r text), Hread. cbn [readCsv].
    reflexivity.
  - change (join (String newlineChar EmptyString) (text :: text' :: texts'))
      with (text ++ String newlineChar EmptyString
                 ++ join (String newlineChar EmptyString) (text' :: texts'))%string.
    rewrite Hread. cbn [append readCsv].
    change (Ascii.eqb newlineChar commaChar) with false.
    rewrite Ascii.eqb_refl. cbv iota.
    rewrite IH by discriminate. f_equal.
    change (rev (rev (last :: init) :: records))
      with (rev records ++ [rev (last :: init)])%list.
    now rewrite <- app_assoc.
Qed.

(** X18. The CSV text [exportTaskHistoryAsCSV] produces reads back,
    with a reader of comma separated text that knows quoted fields, as the
    header followed by one record of five fields per history entry: the
    date, the task name, the category ('Uncategorized' when there is none
    or it is empty), the minutes, and the number of completed pomodoros
    the task has now (0 when the task no longer exists). Task names and
    categories may hold any characters, commas, quotes and line feeds
    included; the date is written unquoted and must hold none of these
    three. *)
Theorem exportTaskHistoryAsCSV_reads_back
  (taskHistory : list TaskHistoryItem)
  (savedTasks : saved (list (string * option Z))) :
  savedTasks <> Damaged ->
  (forall entry, In entry taskHistory -> plainText (date entry) = true) ->
  let tasks := match savedTasks with Held tasks => tasks | _ => [] end in
  readCsv (exportTaskHistoryAsCSV (Held taskHistory) savedTasks) Plain "" [] []
  = Some (headers :: map (recordOf (taskPomodoroMap tasks)) taskHistory).
Proof.
  intros Hd Hplain tasks.
  assert (E : exportTaskHistoryAsCSV (Held taskHistory) savedTasks
              = join (String newlineChar EmptyString)
                  (join "," headers
                     :: map (fun entry =>
                               join "," (formattedRow (taskPomodoroMap tasks) entry))
                            taskHistory)).
  { unfold exportTaskHistoryAsCSV. destruct savedTasks; [reflexivity | | reflexivity].
    now destruct Hd. }
  rewrite E. clear E.
  rewrite (read_lines _ (headers :: map (recordOf (taskPomodoroMap tasks)) taskHistory));
    [reflexivity | | discriminate].
  constructor; [exact headers_readsAs|].
  induction taskHistory as [|entry l IH]; cbn [map]; constructor.
  - apply row_readsAs. apply Hplain. now left.
  - apply IH. intros e He. apply Hplain. now right.
Qed.

(** One entry whose task name holds a comma, a quote and a line feed. *)
Lemma exportTaskHistoryAsCSV_witness :
  readCsv (exportTaskHistoryAsCSV (Held [awkwardEntry]) Missing) Plain "" [] []
  = Some [ headers;
           [ "2024-05-14"; taskName awkwardEntry; "Uncategorized"; "25"; "0" ] ].
Proof.
  apply (exportTaskHistoryAsCSV_reads_back [awkwardEntry] Missing).
  - discriminate.
  - intros entry [<- | []]. reflexivity.
Defined.

End DataFacts.

(** ** TaskList.tsx: the handlers of the task list *)

Section TaskListFacts.
Import TaskList.

Lemma find_isTask (id : string) (l : list Task.t) (task : Task.t) :
  find (isTask id) l = Some task -> In task l /\ Task.id task = id.
Proof.
  intros H. apply find_some in H as [Hin Hid]. split; [exact Hin|].
  now apply String.eqb_eq.
Qed.

Lemma find_isTask_none (id : string) (l : list Task.t) (task : Task.t) :
  find (isTask id) l = None -> In task l -> Task.id task <> id.
Proof.
  intros H Hin E. pose proof (find_none _ _ H task Hin) as Hf.
  unfold isTask in Hf. rewrite E, String.eqb_refl in Hf. discriminate.
Qed.

(** A task the handler does not address stays in the list. *)
Lemma In_map_other (id : string) (f : Task.t -> Task.t) (l : list Task.t)
  (task : Task.t) :
  In task l -> Task.id task <> id ->
  In task (map (fun t => if isTask id t then f t else t) l).
Proof.
  intros Hin Hne. apply in_map_iff. exists task. split; [|exact Hin].
  unfold isTask. apply String.eqb_neq in Hne. now rewrite Hne.
Qed.

Lemma In_map_same (f : Task.t -> Task.t) (l : list Task.t) (task : Task.t) :
  In task l ->
  In (f task) (map (fun t => if isTask (Task.id task) t then f t else t) l).
Proof.
  intros Hin. apply in_map_iff. exists task. split; [|exact Hin].
  unfold isTask. now rewrite String.eqb_refl.
Qed.

Lemma active_step (s : State) (e : Event) :
  ActiveIsOpen s -> offered s e -> ActiveIsOpen (step s e).
Proof.
  destruct s as [ts hist act txt est cat prio edit sc sp].
  unfold ActiveIsOpen. cbn [activeTaskId tasks].
  destruct e as [x | now | id | id | id x n c p | now today id | id];
    cbn [step offered tasks]; intros Hact Hoff.
  - (* typing *) exact Hact.
  - (* addTask *)
    unfold addTask. cbn [newTaskText]. destruct (blank txt); cbn [activeTaskId tasks];
      [exact Hact|].
    destruct act as [a|]; [|exact I].
    destruct Hact as (task & Hin & Hid & Hc).
    exists task. split; [apply in_or_app; now left | now split].
  - (* toggleTaskCompletion *)
    unfold toggleTaskCompletion, isActiveTask, setTasks, setActiveTaskId.
    cbn [activeTaskId tasks taskHistory newTaskText estimatedPomodoros
         selectedCategory selectedPriority editingTask showCategorySelect
         showPrioritySelect].
    destruct act as [a|]; [|exact I].
    destruct Hact as (task & Hin & Hid & Hc).
    destruct (String.eqb id a) eqn:E.
    + apply String.eqb_eq in E.
      destruct (find (isTask id) ts) as [first|] eqn:Ef.
      * destruct (Task.completed first) eqn:Ec; cbn [negb activeTaskId tasks]; [|exact I].
        apply find_isTask in Ef as [Hfin Hfid].
        exists (Task.mk (Task.id first) (Task.text first) (negb (Task.completed first))
                        (Task.estimatedPomodoros first) (Task.completedPomodoros first)
                        (Task.category first) (Task.priority first)).
        destruct Hfid.
        split; [|split; [exact E | cbn [Task.completed]; now rewrite Ec]].
        apply (In_map_same
                 (fun task => Task.mk (Task.id task) (Task.text task)
                                (negb (Task.completed task))
                                (Task.estimatedPomodoros task)
                                (Task.completedPomodoros task)
                                (Task.category task) (Task.priority task))
                 ts first Hfin).
      * exfalso. apply (find_isTask_none id ts task Ef Hin). congruence.
    + cbn [activeTaskId tasks]. exists task.
      split; [|now split].
      apply In_map_other; [exact Hin|]. rewrite Hid. intros ->.
      now rewrite String.eqb_refl in E.
  - (* deleteTask *)
    unfold deleteTask, isActiveTask, setTasks, setActiveTaskId.
    cbn [activeTaskId tasks taskHistory newTaskText estimatedPomodoros
         selectedCategory selectedPriority editingTask showCategorySelect
         showPrioritySelect].
    destruct act as [a|]; [|exact I].
    destruct Hact as (task & Hin & Hid & Hc).
    destruct (String.eqb id a) eqn:E; cbn [activeTaskId tasks]; [exact I|].
    exists task. split; [|now split].
    apply filter_In. split; [exact Hin|].
    unfold isTask. rewrite Hid. rewrite String.eqb_sym, E. reflexivity.
  - (* updateTask *)
    unfold updateTask, setTasks. cbn [activeTaskId tasks].
    destruct act as [a|]; [|exact I].
    destruct Hact as (task & Hin & Hid & Hc).
    destruct (String.eqb (Task.id task) id) eqn:E.
    + apply String.eqb_eq in E.
      exists (Task.mk (Task.id task) x (Task.completed task) n
                      (Task.completedPomodoros task)
                      (categoryOr c (Task.category task))
                      (priorityOr p (Task.priority task))).
      split; [|now split].
      rewrite <- E.
      apply (In_map_same
               (fun task => Task.mk (Task.id task) x (Task.completed task) n
                              (Task.completedPomodoros task)
                              (categoryOr c (Task.category task))
                              (priorityOr p (Task.priority task)))
               ts task Hin).
    + exists task. split; [|now split].
      apply In_map_other; [exact Hin|]. now apply String.eqb_neq.
  - (* incrementPomodoro *)
    unfold incrementPomodoro, addTaskToHistory, setTasks. cbn [activeTaskId tasks].
    destruct (find (isTask id) ts) as [first|]; cbn [activeTaskId tasks]; [|exact Hact].
    destruct act as [a|]; [|exact I].
    destruct Hact as (task & Hin & Hid & Hc).
    destruct (String.eqb (Task.id task) id) eqn:E.
    + apply String.eqb_eq in E.
      exists (Task.mk (Task.id task) (Task.text task) (Task.completed task)
                      (Task.estimatedPomodoros task) (Task.completedPomodoros task + 1)
                      (Task.category task) (Task.priority task)).
      split; [|now split].
      rewrite <- E.
      apply (In_map_same
               (fun task => Task.mk (Task.id task) (Task.text task)
                              (Task.completed task) (Task.estimatedPomodoros task)
                              (Task.completedPomodoros task + 1)
                              (Task.category task) (Task.priority task))
               ts task Hin).
    + exists task. split; [|now split].
      apply In_map_other; [exact Hin|]. now apply String.eqb_neq.
  - (* setTaskActive *)
    unfold setTaskActive, isActiveTask, setActiveTaskId. cbn [activeTaskId tasks].
    destruct act as [a|].
    + destruct (String.eqb id a); [exact I | exact Hoff].
    + exact Hoff.
Qed.



(** X19. The active task is never a completed or a deleted
    task. If the [activeTaskId] of the parent names a task of the list
    that is not completed (or is [null]), this is still so after any
    sequence of the actions the list offers: adding a task, completing or
    re-opening one, deleting, editing, counting a pomodoro, and selecting
    the active task, which is offered for tasks that are not completed.
    Completing or deleting the active task clears [activeTaskId]. *)
Theorem taskList_active_task_is_open (es : list Event) (s : State) :
  ActiveIsOpen s -> offeredAll s es -> ActiveIsOpen (run es s).
Proof.
  revert s. induction es as [|e es IH]; intros s Hact Hoff; [exact Hact|].
  destruct Hoff as [He Hrest]. cbn [run fold_left].
  apply IH; [now apply active_step | exact Hrest].
Qed.

(** Completing the active task, then re-opening it: no task is active. *)
Lemma taskList_active_task_witness :
  ActiveIsOpen (run [ToggleTaskCompletion "1715640000000";
                     ToggleTaskCompletion "1715640000000"] oneTask)
  /\ activeTaskId (run [ToggleTaskCompletion "1715640000000"] oneTask) = None.
Proof.
  split; [|reflexivity].
  apply taskList_active_task_is_open.
  - cbn. eexists. split; [left; reflexivity | split; reflexivity].
  - cbn. split; [|split; [|exact I]]; eexists; (split; [left; reflexivity | reflexivity]).
Defined.

Lemma toString_inj (a b : Z) :
  0 <= a -> 0 <= b -> PomodoroTimer.toString a = PomodoroTimer.toString b -> a = b.
Proof.
  intros Ha Hb E.
  pose proof (readNumber_padStart0 0 a Ha) as Ra.
  pose proof (readNumber_padStart0 0 b Hb) as Rb.
  unfold PomodoroTimer.padStart0 in Ra, Rb. cbn [Nat.sub PomodoroTimer.zeros append] in Ra, Rb.
  rewrite E in Ra. rewrite Ra in Rb. now injection Rb.
Qed.

Lemma ids_map (id : string) (f : Task.t -> Task.t) (l : list Task.t) :
  (forall t, Task.id (f t) = Task.id t) ->
  map Task.id (map (fun t => if isTask id t then f t else t) l) = map Task.id l.
Proof.
  intros Hf. rewrite map_map. apply map_ext. intros t.
  destruct (isTask id t); [apply Hf | reflexivity].
Qed.

Lemma ids_filter (p : Task.t -> bool) (l : list Task.t) :
  NoDup (map Task.id l) -> NoDup (map Task.id (filter p l)).
Proof.
  induction l as [|t l IH]; cbn [map filter]; [auto|].
  intros H. inversion H as [|? ? Hnotin Hnd]; subst.
  destruct (p t); cbn [map]; [|now apply IH].
  constructor; [|now apply IH].
  intros Hin. apply Hnotin. apply in_map_iff in Hin as (x & Hx & Hxin).
  apply in_map_iff. exists x. split; [exact Hx|].
  now apply filter_In in Hxin as [Hxin _].
Qed.

Lemma bounded_map (bound : Z) (id : string) (f : Task.t -> Task.t)
  (l : list Task.t) :
  (forall t, Task.id (f t) = Task.id t) ->
  (forall task, In task l ->
     exists n, 0 <= n < bound /\ Task.id task = PomodoroTimer.toString n) ->
  forall task, In task (map (fun t => if isTask id t then f t else t) l) ->
    exists n, 0 <= n < bound /\ Task.id task = PomodoroTimer.toString n.
Proof.
  intros Hf H task Hin. apply in_map_iff in Hin as (x & Hx & Hxin).
  destruct (H x Hxin) as (n & Hn & Hid). exists n. split; [exact Hn|].
  rewrite <- Hx. destruct (isTask id x); [now rewrite Hf | exact Hid].
Qed.

Lemma distinct_step (bound : Z) (s : State) (e : Event) :
  0 <= bound -> DistinctIds bound s ->
  match e with AddTask now => bound <= now | _ => True end ->
  DistinctIds (match e with AddTask now => now + 1 | _ => bound end) (step s e).
Proof.
  destruct s as [ts hist act txt est cat prio edit sc sp].
  unfold DistinctIds. cbn [tasks]. intros Hb [Hnd Hids] He.
  destruct e as [x | now | id | id | id x n c p | now today id | id]; cbn [step].
  - split; assumption.
  - unfold addTask. cbn [newTaskText]. destruct (blank txt); cbn [tasks].
    + split; [exact Hnd|]. intros task Hin.
      destruct (Hids task Hin) as (n & Hn & Hid). exists n. split; [lia | exact Hid].
    + split.
      * rewrite map_app. cbn [map Task.id].
        apply NoDup_app; [exact Hnd | repeat constructor; intros [] |].
        intros a Ha [<- | []].
        apply in_map_iff in Ha as (x & Hx & Hxin).
        destruct (Hids x Hxin) as (n & Hn & Hid).
        rewrite Hid in Hx. apply toString_inj in Hx; lia.
      * intros task Hin. apply in_app_or in Hin as [Hin | [<- | []]].
        -- destruct (Hids task Hin) as (n & Hn & Hid). exists n. split; [lia | exact Hid].
        -- exists now. split; [lia | reflexivity].
  - unfold toggleTaskCompletion, isActiveTask, setTasks, setActiveTaskId.
    cbn [activeTaskId tasks taskHistory newTaskText estimatedPomodoros
         selectedCategory selectedPriority editingTask showCategorySelect
         showPrioritySelect].
    assert (H : NoDup (map Task.id
                         (map (fun task =>
                                 if isTask id task
                                 then Task.mk (Task.id task) (Task.text task)
                                        (negb (Task.completed task))
                                        (Task.estimatedPomodoros task)
                                        (Task.completedPomodoros task)
                                        (Task.category task) (Task.priority task)
                                 else task) ts))
                /\ forall task,
                     In task (map (fun task =>
                                     if isTask id task
                                     then Task.mk (Task.id task) (Task.text task)
                                            (negb (Task.completed task))
                                            (Task.estimatedPomodoros task)
                                            (Task.completedPomodoros task)
                                            (Task.category task) (Task.priority task)
                                     else task) ts) ->
                     exists n, 0 <= n < bound
                               /\ Task.id task = PomodoroTimer.toString n).
    { split; [rewrite ids_map by reflexivity; exact Hnd|].
      apply bounded_map; [reflexivity | exact Hids]. }
    destruct act as [a|]; [|exact H].
    destruct (String.eqb id a); [|exact H].
    destruct (find (isTask id) ts) as [first|]; [|exact H].
    destruct (negb (Task.completed first)); exact H.
  - unfold deleteTask, isActiveTask, setTasks, setActiveTaskId.
    assert (H : NoDup (map Task.id (filter (fun task => negb (isTask id task)) ts))
                /\ forall task,
                     In task (filter (fun task => negb (isTask id task)) ts) ->
                     exists n, 0 <= n < bound
                               /\ Task.id task = PomodoroTimer.toString n).
    { split; [now apply ids_filter|].
      intros task Hin. apply filter_In in Hin as [Hin _]. now apply Hids. }
    cbn [activeTaskId]. destruct act as [a|]; [|exact H].
    destruct (String.eqb id a); exact H.
  - unfold updateTask, setTasks. cbn [tasks].
    split; [rewrite ids_map by reflexivity; exact Hnd|].
    apply bounded_map; [reflexivity | exact Hids].
  - unfold incrementPomodoro, addTaskToHistory, setTasks. cbn [tasks].
    destruct (find (isTask id) ts) as [first|]; cbn [tasks]; [|now split].
    split; [rewrite ids_map by reflexivity; exact Hnd|].
    apply bounded_map; [reflexivity | exact Hids].
  - split; assumption.
Qed.

Lemma one_task_map (f : Task.t -> Task.t) (before after : list Task.t)
  (task : Task.t) :
  NoDup (map Task.id (before ++ task :: after)) ->
  map (fun t => if isTask (Task.id task) t then f t else t) (before ++ task :: after)
  = (before ++ f task :: after)%list.
Proof.
  intros Hnd. rewrite map_app in Hnd. cbn [map] in Hnd.
  apply NoDup_remove_2 in Hnd.
  assert (Hother : forall l, ~ In (Task.id task) (map Task.id l) ->
            map (fun t => if isTask (Task.id task) t then f t else t) l = l).
  { induction l as [|t l IH]; [reflexivity|]. cbn [map In]. intros H.
    unfold isTask at 1. destruct (String.eqb (Task.id t) (Task.id task)) eqn:E.
    - apply String.eqb_eq in E. exfalso. apply H. now left.
    - rewrite IH; [reflexivity | tauto]. }
  rewrite map_app. cbn [map]. unfold isTask at 2. rewrite String.eqb_refl.
  rewrite !Hother; [reflexivity | |];
    intros Hin; apply Hnd; apply in_or_app; [now right | now left].
Qed.

Lemma one_task_filter (before after : list Task.t) (task : Task.t) :
  NoDup (map Task.id (before ++ task :: after)) ->
  filter (fun t => negb (isTask (Task.id task) t)) (before ++ task :: after)
  = (before ++ after)%list.
Proof.
  intros Hnd. rewrite map_app in Hnd. cbn [map] in Hnd.
  apply NoDup_remove_2 in Hnd.
  assert (Hother : forall l, ~ In (Task.id task) (map Task.id l) ->
            filter (fun t => negb (isTask (Task.id task) t)) l = l).
  { induction l as [|t l IH]; [reflexivity|]. cbn [map In filter]. intros H.
    unfold isTask at 1. destruct (String.eqb (Task.id t) (Task.id task)) eqn:E.
    - apply String.eqb_eq in E. exfalso. apply H. now left.
    - cbn [negb]. rewrite IH; [reflexivity | tauto]. }
  rewrite filter_app. cbn [filter]. unfold isTask at 2. rewrite String.eqb_refl.
  cbn [negb].
  rewrite !Hother; [reflexivity | |];
    intros Hin; apply Hnd; apply in_or_app; [now right | now left].
Qed.

Lemma find_one_task (before after : list Task.t) (task : Task.t) :
  exists first, find (isTask (Task.id task)) (before ++ task :: after) = Some first.
Proof.
  destruct (find (isTask (Task.id task)) (before ++ task :: after)) as [first|] eqn:E;
    [now exists first|].
  exfalso. refine (find_isTask_none _ _ task E _ eq_refl).
  apply in_or_app. right. now left.
Qed.

(** X20. A task's id is the clock reading at the moment it was
    added. As long as no two tasks are added within the same millisecond,
    the ids of the list stay distinct whatever else is done with the
    list; and then every action on a task changes that task alone:
    completing it, counting a pomodoro for it and editing it replace it in
    place, deleting it removes it, and every other task keeps its place
    and its contents. *)
Theorem taskList_actions_change_one_task :
  (forall bound s es,
     0 <= bound -> DistinctIds bound s -> laterEachTime bound es ->
     exists bound', bound <= bound' /\ DistinctIds bound' (run es s))
  /\ (forall bound s before task after,
        DistinctIds bound s -> tasks s = (before ++ task :: after)%list ->
        let id := Task.id task in
        tasks (toggleTaskCompletion id s)
        = (before
             ++ Task.mk id (Task.text task) (negb (Task.completed task))
                        (Task.estimatedPomodoros task) (Task.completedPomodoros task)
                        (Task.category task) (Task.priority task)
             :: after)%list
        /\ (forall now today,
              tasks (incrementPomodoro now today id s)
              = (before
                   ++ Task.mk id (Task.text task) (Task.completed task)
                              (Task.estimatedPomodoros task)
                              (Task.completedPomodoros task + 1)
                              (Task.category task) (Task.priority task)
                   :: after)%list)
        /\ (forall text n category priority,
              tasks (updateTask id text n category priority s)
              = (before
                   ++ Task.mk id text (Task.completed task) n
                              (Task.completedPomodoros task)
                              (categoryOr category (Task.category task))
                              (priorityOr priority (Task.priority task))
                   :: after)%list)
        /\ tasks (deleteTask id s) = (before ++ after)%list).
Proof.
  split.
  - intros bound s es. revert bound s.
    induction es as [|e es IH]; intros bound s Hb Hd Hl.
    + exists bound. split; [lia | exact Hd].
    + cbn [run fold_left].
      assert (He : match e with AddTask now => bound <= now | _ => True end)
        by (destruct e; try exact I; now destruct Hl).
      pose proof (distinct_step bound s e Hb Hd He) as Hd'.
      destruct e as [x | now | id | id | id x n c p | now today id | id];
        cbn [laterEachTime] in Hl;
        try (apply (IH bound (step s _) Hb Hd' Hl)).
      destruct Hl as [Hnow Hl].
      destruct (IH (now + 1) (step s (AddTask now)) ltac:(lia) Hd' Hl)
        as (bound' & Hle & Hfinal).
      exists bound'. split; [lia | exact Hfinal].
  - intros bound s before task after [Hnd _] Hts id.
    destruct s as [ts hist act txt est cat prio edit sc sp].
    cbn [tasks] in *. subst ts id.
    split; [|split; [|split]].
    + unfold toggleTaskCompletion, isActiveTask, setTasks, setActiveTaskId.
      cbn [activeTaskId tasks taskHistory newTaskText estimatedPomodoros
           selectedCategory selectedPriority editingTask showCategorySelect
           showPrioritySelect].
      rewrite (one_task_map
                 (fun task => Task.mk (Task.id task) (Task.text task)
                                (negb (Task.completed task))
                                (Task.estimatedPomodoros task)
                                (Task.completedPomodoros task)
                                (Task.category task) (Task.priority task))
                 before after task Hnd).
      destruct act as [a|]; [|reflexivity].
      destruct (String.eqb (Task.id task) a); [|reflexivity].
      destruct (find _ _) as [first|]; [|reflexivity].
      destruct (negb (Task.completed first)); reflexivity.
    + intros now today. unfold incrementPomodoro. cbn [tasks].
      destruct (find_one_task before after task) as [first ->].
      unfold addTaskToHistory, setTasks. cbn [tasks].
      apply (one_task_map
               (fun task => Task.mk (Task.id task) (Task.text task)
                              (Task.completed task) (Task.estimatedPomodoros task)
                              (Task.completedPomodoros task + 1)
                              (Task.category task) (Task.priority task))
               before after task Hnd).
    + intros text n category priority. unfold updateTask, setTasks. cbn [tasks].
      apply (one_task_map
               (fun task => Task.mk (Task.id task) text (Task.completed task) n
                              (Task.completedPomodoros task)
                              (categoryOr category (Task.category task))
                              (priorityOr priority (Task.priority task)))
               before after task Hnd).
    + unfold deleteTask, isActiveTask, setTasks, setActiveTaskId.
      cbn [activeTaskId tasks].
      rewrite (one_task_filter before after task Hnd).
      destruct act as [a|]; [|reflexivity].
      destruct (String.eqb (Task.id task) a); reflexivity.
Qed.

(** Two tasks added one millisecond apart have different ids. *)
Lemma taskList_actions_witness :
  exists bound',
    DistinctIds bound'
      (run [TypeText "read"; AddTask 1715640000001] oneTask).
Proof.
  destruct (proj1 taskList_actions_change_one_task 1715640000001 oneTask
              [TypeText "read"; AddTask 1715640000001])
    as (bound' & _ & H).
  - lia.
  - split.
    + repeat constructor. intros [].
    + intros task [<- | []]. exists 1715640000000. split; [lia | reflexivity].
  - cbn. split; [lia | exact I].
  - exists bound'. exact H.
Defined.

End TaskListFacts.

(** ** The test timers and the repeated alarm *)

Section SmallTimerFacts.

Lemma simple_tick (s : Z) :
  1 < s ->
  SimpleTimer.tick (SimpleTimer.mkRender s true, true)
  = (SimpleTimer.mkRender (s - 1) true, true).
Proof.
  intros Hs. unfold SimpleTimer.tick, SimpleTimer.fuel.
  cbn [SimpleTimer.settle]. unfold SimpleTimer.sameRender at 1.
  cbn [SimpleTimer.seconds SimpleTimer.isActive].
  assert (E1 : (s =? s - 1) = false) by (apply Z.eqb_neq; lia).
  rewrite E1. cbn [andb]. unfold SimpleTimer.effect at 1.
  cbn [SimpleTimer.seconds SimpleTimer.isActive andb].
  assert (E2 : (s - 1 >? 0) = true) by (rewrite Z.gtb_ltb; apply Z.ltb_lt; lia).
  rewrite E2. unfold SimpleTimer.sameRender at 1.
  cbn [SimpleTimer.seconds SimpleTimer.isActive Bool.eqb].
  now rewrite Z.eqb_refl.
Qed.

Lemma simple_last_tick :
  SimpleTimer.tick (SimpleTimer.mkRender 1 true, true)
  = (SimpleTimer.mkRender 0 false, false).
Proof. reflexivity. Qed.

Lemma simple_stopped (n : nat) :
  SimpleTimer.ticks n (SimpleTimer.mkRender 0 false, false)
  = (SimpleTimer.mkRender 0 false, false).
Proof. induction n as [|n IH]; [reflexivity | exact IH]. Qed.

Lemma simple_ticks (n : nat) (s : Z) :
  0 < s ->
  SimpleTimer.ticks n (SimpleTimer.mkRender s true, true)
  = if Z.of_nat n <? s
    then (SimpleTimer.mkRender (s - Z.of_nat n) true, true)
    else (SimpleTimer.mkRender 0 false, false).
Proof.
  revert s. induction n as [|n IH]; intros s Hs.
  - cbn [SimpleTimer.ticks Z.of_nat].
    assert (E : (0 <? s) = true) by now apply Z.ltb_lt.
    rewrite E. now rewrite Z.sub_0_r.
  - cbn [SimpleTimer.ticks]. rewrite Nat2Z.inj_succ.
    destruct (Z.eq_dec s 1) as [-> | Hne].
    + rewrite simple_last_tick, simple_stopped.
      assert (E : (Z.succ (Z.of_nat n) <? 1) = false) by (apply Z.ltb_ge; lia).
      now rewrite E.
    + rewrite simple_tick by lia. rewrite IH by lia.
      destruct (Z.of_nat n <? s - 1) eqn:E1, (Z.succ (Z.of_nat n) <? s) eqn:E2;
        try reflexivity.
      * do 2 f_equal. lia.
      * apply Z.ltb_lt in E1. apply Z.ltb_ge in E2. lia.
      * apply Z.ltb_ge in E1. apply Z.ltb_lt in E2. lia.
Qed.

(** X21. [SimpleTimer]: started with [s] seconds on the
    display, it shows [s - n] after [n] firings of its interval and is
    still running, for every [n] below [s]; the firing that reaches zero
    stops it, after which no interval is left and further firings change
    nothing. It never shows a negative time, and at zero it cannot be
    started: START is undone by the effect at once. Reset gives 300
    seconds, stopped, whether the timer was running or not. *)
Theorem simpleTimer_counts_down_to_zero_and_stops :
  (forall s n, 0 < s ->
     SimpleTimer.ticks n
       (SimpleTimer.toggleTimer (SimpleTimer.mkRender s false, false))
     = if Z.of_nat n <? s
       then (SimpleTimer.mkRender (s - Z.of_nat n) true, true)
       else (SimpleTimer.mkRender 0 false, false))
  /\ SimpleTimer.toggleTimer (SimpleTimer.mkRender 0 false, false)
     = (SimpleTimer.mkRender 0 false, false)
  /\ (forall s a,
        SimpleTimer.resetTimer (SimpleTimer.mkRender s a, a)
        = (SimpleTimer.mkRender 300 false, false)).
Proof.
  split; [|split].
  - intros s n Hs.
    assert (Hstart : SimpleTimer.toggleTimer (SimpleTimer.mkRender s false, false)
                     = (SimpleTimer.mkRender s true, true)).
    { unfold SimpleTimer.toggleTimer, SimpleTimer.fuel.
      cbn [SimpleTimer.settle]. unfold SimpleTimer.sameRender at 1.
      cbn [SimpleTimer.seconds SimpleTimer.isActive negb Bool.eqb].
      rewrite Z.eqb_refl. cbn [andb]. unfold SimpleTimer.effect at 1.
      cbn [SimpleTimer.seconds SimpleTimer.isActive andb].
      assert (E : (s >? 0) = true) by (rewrite Z.gtb_ltb; now apply Z.ltb_lt).
      rewrite E. unfold SimpleTimer.sameRender at 1.
      cbn [SimpleTimer.seconds SimpleTimer.isActive Bool.eqb].
      now rewrite Z.eqb_refl. }
    rewrite Hstart. now apply simple_ticks.
  - reflexivity.
  - intros s a. unfold SimpleTimer.resetTimer, SimpleTimer.fuel.
    cbn [SimpleTimer.settle]. unfold SimpleTimer.sameRender at 1.
    cbn [SimpleTimer.seconds SimpleTimer.isActive].
    destruct (s =? 300) eqn:E, a; cbn [Bool.eqb andb]; try reflexivity.
    apply Z.eqb_eq in E. now subst.
Qed.

(** Five minutes: 299 firings leave one second, the 300th stops it. *)
Lemma simpleTimer_witness :
  SimpleTimer.ticks 299 (SimpleTimer.toggleTimer SimpleTimer.mount)
  = (SimpleTimer.mkRender 1 true, true)
  /\ SimpleTimer.ticks 300 (SimpleTimer.toggleTimer SimpleTimer.mount)
     = (SimpleTimer.mkRender 0 false, false).
Proof.
  split;
    apply (proj1 simpleTimer_counts_down_to_zero_and_stops 300); lia.
Defined.

Lemma basic_ticks (n : nat) (c : Z) :
  0 < c ->
  BasicTimer.ticks n (BasicTimer.mkState c true true)
  = if Z.of_nat n <? c
    then BasicTimer.mkState (c - Z.of_nat n) true true
    else BasicTimer.mkState 0 false false.
Proof.
  revert c. induction n as [|n IH]; intros c Hc.
  - cbn [BasicTimer.ticks Z.of_nat].
    assert (E : (0 <? c) = true) by now apply Z.ltb_lt.
    rewrite E. now rewrite Z.sub_0_r.
  - cbn [BasicTimer.ticks]. rewrite Nat2Z.inj_succ.
    unfold BasicTimer.tick at 1.
    cbn [BasicTimer.intervalRef BasicTimer.count BasicTimer.isRunning negb].
    destruct (c <=? 1) eqn:E.
    + apply Z.leb_le in E. cbn.
      assert (Hs : forall k, BasicTimer.ticks k (BasicTimer.mkState 0 false false)
                             = BasicTimer.mkState 0 false false)
        by (induction k as [|k IHk]; [reflexivity | exact IHk]).
      rewrite Hs.
      assert (E' : (Z.succ (Z.of_nat n) <? c) = false) by (apply Z.ltb_ge; lia).
      now rewrite E'.
    + apply Z.leb_gt in E. rewrite IH by lia.
      destruct (Z.of_nat n <? c - 1) eqn:E1, (Z.succ (Z.of_nat n) <? c) eqn:E2;
        try reflexivity.
      * f_equal. lia.
      * apply Z.ltb_lt in E1. apply Z.ltb_ge in E2. lia.
      * apply Z.ltb_ge in E1. apply Z.ltb_lt in E2. lia.
Qed.

(** X22. [BasicTimer]: started with a count [c] of at least
    one, it shows [c - n] after [n] firings of its interval while [n] is
    below [c]; the firing that finds a count of one or less sets it to
    zero and stops the timer, clearing the interval, so the count is
    never negative and later firings change nothing. Started at zero it
    runs for one firing and stops at zero. The running flag and the
    interval go together after every action. *)
Theorem basicTimer_counts_down_to_zero_and_stops :
  (forall c n, 0 < c ->
     BasicTimer.ticks n (BasicTimer.toggleTimer (BasicTimer.mkState c false false))
     = if Z.of_nat n <? c
       then BasicTimer.mkState (c - Z.of_nat n) true true
       else BasicTimer.mkState 0 false false)
  /\ (forall c, c <= 1 ->
        BasicTimer.tick (BasicTimer.toggleTimer (BasicTimer.mkState c false false))
        = BasicTimer.mkState 0 false false)
  /\ (forall s,
        BasicTimer.isRunning s = BasicTimer.intervalRef s ->
        forall s', In s' [BasicTimer.toggleTimer s; BasicTimer.resetTimer s;
                          BasicTimer.tick s] ->
        BasicTimer.isRunning s' = BasicTimer.intervalRef s').
Proof.
  split; [|split].
  - intros c n Hc. apply basic_ticks. exact Hc.
  - intros c Hc. unfold BasicTimer.toggleTimer, BasicTimer.startTimer, BasicTimer.tick.
    cbn [BasicTimer.isRunning BasicTimer.intervalRef BasicTimer.count negb].
    assert (E : (c <=? 1) = true) by now apply Z.leb_le.
    rewrite E. reflexivity.
  - intros [c r i]. cbn [BasicTimer.isRunning BasicTimer.intervalRef]. intros ->.
    intros s' [<- | [<- | [<- | []]]]; destruct i; cbn; try reflexivity.
    destruct (c <=? 1); reflexivity.
Qed.

(** One minute. *)
Lemma basicTimer_witness :
  BasicTimer.ticks 60 (BasicTimer.toggleTimer (BasicTimer.mkState 60 false false))
  = BasicTimer.mkState 0 false false.
Proof.
  apply (proj1 basicTimer_counts_down_to_zero_and_stops 60 60%nat). lia.
Defined.

Lemma ended_counts (n : nat) (repeatCount : Z) (p : SoundUtils.Playback) :
  SoundUtils.listening p = true -> SoundUtils.settled p = None ->
  SoundUtils.played p + Z.of_nat n < repeatCount ->
  SoundUtils.endedTimes n repeatCount p
  = SoundUtils.mkPlayback (SoundUtils.plays p + n)
                          (SoundUtils.played p + Z.of_nat n) true None.
Proof.
  revert p. induction n as [|n IH]; intros [pl pd li se]; cbn [SoundUtils.listening
    SoundUtils.settled SoundUtils.played SoundUtils.plays]; intros -> -> Hlt.
  - cbn. now rewrite Nat.add_0_r, Z.add_0_r.
  - cbn [SoundUtils.endedTimes]. unfold SoundUtils.ended at 1.
    cbn [SoundUtils.listening SoundUtils.played SoundUtils.plays SoundUtils.settled negb].
    rewrite Nat2Z.inj_succ in Hlt.
    assert (E : (pd + 1 >=? repeatCount) = false)
      by (rewrite Z.geb_leb; apply Z.leb_gt; lia).
    rewrite E. rewrite IH; cbn [SoundUtils.listening SoundUtils.settled
      SoundUtils.played SoundUtils.plays]; try reflexivity; [|lia].
    f_equal; lia.
Qed.

(** X23. [playWithRepeat] with a repeat count of at least one, on
    an element that has a source, when no call of [play] fails: the
    element is played once at the call and once more after each time it
    ended, until it has ended [repeatCount] times; at that moment the
    listener is removed and the promise resolved. So the sound is played
    exactly [repeatCount] times, the promise is pending until the last
    one ended, and later 'ended' events start nothing. With a count of
    zero or less, or without a source, nothing is played and the promise
    is resolved at once. *)
Theorem playWithRepeat_plays_repeatCount_times :
  (forall repeatCount n,
     0 < repeatCount ->
     SoundUtils.endedTimes n repeatCount (SoundUtils.playWithRepeat true repeatCount)
     = if Z.of_nat n <? repeatCount
       then SoundUtils.mkPlayback (S n) (Z.of_nat n) true None
       else SoundUtils.mkPlayback (Z.to_nat repeatCount) repeatCount false (Some true))
  /\ (forall hasSrc repeatCount,
        repeatCount <= 0 \/ hasSrc = false ->
        SoundUtils.playWithRepeat hasSrc repeatCount
        = SoundUtils.mkPlayback 0 0 false (Some true)).
Proof.
  split.
  - intros R n HR.
    assert (Hstart : SoundUtils.playWithRepeat true R
                     = SoundUtils.mkPlayback 1 0 true None).
    { unfold SoundUtils.playWithRepeat.
      assert (E : (R <=? 0) = false) by (apply Z.leb_gt; lia).
      now rewrite E. }
    rewrite Hstart. clear Hstart.
    destruct (Z.of_nat n <? R) eqn:E.
    + apply Z.ltb_lt in E.
      rewrite ended_counts; cbn [SoundUtils.listening SoundUtils.settled
        SoundUtils.played SoundUtils.plays]; try reflexivity; lia.
    + apply Z.ltb_ge in E.
      (* the first R - 1 events, the one that completes, then the rest *)
      assert (Hn : n = (Z.to_nat (R - 1) + S (n - Z.to_nat R))%nat) by lia.
      rewrite Hn. clear Hn.
      assert (Happ : forall a b p,
                SoundUtils.endedTimes (a + b) R p
                = SoundUtils.endedTimes b R (SoundUtils.endedTimes a R p)).
      { induction a as [|a IHa]; intros b p; [reflexivity|].
        cbn [Nat.add SoundUtils.endedTimes]. apply IHa. }
      rewrite Happ. clear Happ.
      rewrite (ended_counts (Z.to_nat (R - 1)) R (SoundUtils.mkPlayback 1 0 true None));
        cbn [SoundUtils.listening SoundUtils.settled SoundUtils.played
             SoundUtils.plays]; try reflexivity; [|lia].
      cbn [SoundUtils.endedTimes]. unfold SoundUtils.ended at 1.
      cbn [SoundUtils.listening SoundUtils.played SoundUtils.plays SoundUtils.settled negb].
      assert (E' : (0 + Z.of_nat (Z.to_nat (R - 1)) + 1 >=? R) = true)
        by (rewrite Z.geb_leb; apply Z.leb_le; lia).
      rewrite E'. unfold SoundUtils.settle.
      cbn [SoundUtils.listening SoundUtils.played SoundUtils.plays SoundUtils.settled].
      replace (1 + Z.to_nat (R - 1))%nat with (Z.to_nat R) by lia.
      replace (0 + Z.of_nat (Z.to_nat (R - 1)) + 1) with R by lia.
      generalize (n - Z.to_nat R)%nat. intros k.
      induction k as [|k IHk]; [reflexivity | exact IHk].
  - intros hasSrc R [H | ->]; unfold SoundUtils.playWithRepeat.
    + assert (E : (R <=? 0) = true) by now apply Z.leb_le. now rewrite E.
    + now rewrite orb_true_r.
Qed.

(** An alarm set to repeat three times. *)
Lemma playWithRepeat_witness :
  SoundUtils.endedTimes 2 3 (SoundUtils.playWithRepeat true 3)
  = SoundUtils.mkPlayback 3 2 true None
  /\ SoundUtils.endedTimes 3 3 (SoundUtils.playWithRepeat true 3)
     = SoundUtils.mkPlayback 3 3 false (Some true).
Proof.
  split; apply (proj1 playWithRepeat_plays_repeatCount_times 3); lia.
Defined.

End SmallTimerFacts.
